(** * Delivery manager: a shallow embedding of the flat-file and text layer

    The first part embeds the Python sources, module by module:

    - [PyStr], [PyNum]  the [str] methods and number formats the sources
                   call (strip, split, replace, upper, isdigit, int(...),
                   round, the format specifications), on ASCII text;
    - [PyFloat], [Limits]  the floats with [nan] and the infinities, the
                   conversion [float(int)], and the default limits of the
                   interpreter and of the [csv] module;
    - [Validators] [validators/validators.py];
    - [Parsers]    [utils/parsers.py], with its regular expression;
    - [Formatters] [utils/formatters.py];
    - [Models], [ProductPrice]  [models/order.py] and the price lookup of
                   [data/products_loader.py];
    - [Config], [OS], [AddressManager], [AgentManager], [ProductsLoader],
      [CSVHandler]  the [data/] package, over an explicit file-system state;
    - [Json], [Csv]  the parts of the standard [json] and [csv] modules that
                   [CSVHandler] and [ProductsLoader] run;
    - [DeliveryFee], [Capitalize], [AddressHistory], [OrderTable],
      [MainWindow]  the other functions of these files and the two methods
                   of [ui/] that call them; [ParserTokens], [Spellings],
                   [AgentNames], [CatalogRows] hold the vocabulary of their
                   properties.

    The second part holds the properties, one module of facts per module of
    definitions.

    Modelling conventions.

    - A Python [str] is a [string]; the development covers ASCII text, and
      the character classes below are the ASCII restrictions of Python's
      Unicode-aware ones.
    - A Python [int] is a [Z].  A finite [float] is modelled by the rational
      it denotes (every finite double is one).  Where the code can meet
      them, [nan] and the two infinities are values of [PyFloat.pyfloat]:
      the amounts that [format_currency] and [validate_delivery_fee]
      receive, the fee, the total and the order lines of an order, and the
      floats of JSON text.  The catalog and [parse_numeric] keep to finite
      floats.  The built-ins [float(str)] and [repr(float)] are parameters
      of the functions that call them; [float(int)] is defined.
    - A raised exception is a value: a function that can raise returns a
      [res], and [try]/[except] is a [match] on it.
    - Files and the console are fields of a [world] that the functions of
      the [data/] package take and return; a read or a write fails where the
      world says so.
    - The csv reader refuses a field beyond [csv.field_size_limit()], and
      the JSON decoder gives up beyond the recursion limit and refuses a
      number beyond the digit limit of [int]; [Limits] holds the default
      values.  [PyStr.int_of_str] itself has no digit limit and the
      character classes are the ASCII ones: the properties of the parser
      and of [capitalize_name] are stated for ASCII text within the digit
      limit. *)

From Stdlib Require Import ZArith QArith Qround Qabs Lia Ascii String List Bool.
From Stdlib Require Import DecimalString DecimalZ DecimalPos DecimalFacts.
From stdpp Require Import base option gmap strings list fin_maps.

Local Open Scope string_scope.
Local Open Scope list_scope.

(** Appending to a string that starts with a known character computes. *)
#[local] Arguments String.append !s1 s2 : simpl nomatch.

(** ** Exceptions as values *)
Inductive exn : Type :=
| ValueError (msg : string)
| TypeError (msg : string)
| FileNotFoundError (path : string)
| PermissionError (path : string)
| OSError (msg : string)
| CsvError (msg : string)
| JSONDecodeError (msg : string)
| RecursionError (msg : string)
| OverflowError (msg : string)
| Unmodelled (what : string).

Inductive res (A : Type) : Type :=
| Ret (a : A)
| Raise (e : exn).

Arguments Ret {A} a.
Arguments Raise {A} e.

(** Sequencing is written [x ← m; k]: a raise in [m] skips [k]. *)
#[global] Instance res_bind : MBind res := fun A B k m =>
  match m with
  | Ret a => k a
  | Raise e => Raise e
  end.

#[global] Instance res_ret : MRet res := fun A a => Ret a.

Definition returns {A} (m : res A) : Prop := exists a, m = Ret a.

(** ** Python [str] methods on ASCII text *)

Module PyStr.

(** [ord(c)] *)
Definition ord (c : ascii) : nat := nat_of_ascii c.

Definition between (lo hi : nat) (c : ascii) : bool :=
  (lo <=? ord c)%nat && (ord c <=? hi)%nat.

(** [str.isspace] on one character: TAB, LF, VT, FF, CR, FS, GS, RS, US, SP. *)
Definition isspace (c : ascii) : bool := between 9 13 c || between 28 32 c.

Definition isdigit_char (c : ascii) : bool := between 48 57 c.
Definition isupper_char (c : ascii) : bool := between 65 90 c.
Definition islower_char (c : ascii) : bool := between 97 122 c.

(** The regex class [[A-Za-z0-9]]. *)
Definition isalnum_char (c : ascii) : bool :=
  isupper_char c || islower_char c || isdigit_char c.

Definition upper_char (c : ascii) : ascii :=
  if islower_char c then ascii_of_nat (ord c - 32) else c.

Fixpoint upper (s : string) : string :=
  match s with
  | EmptyString => EmptyString
  | String c s' => String (upper_char c) (upper s')
  end.

Fixpoint lower (s : string) : string :=
  match s with
  | EmptyString => EmptyString
  | String c s' =>
      String (if isupper_char c then ascii_of_nat (ord c + 32) else c) (lower s')
  end.

Fixpoint forallb_str (p : ascii -> bool) (s : string) : bool :=
  match s with
  | EmptyString => true
  | String c s' => p c && forallb_str p s'
  end.

Fixpoint existsb_str (p : ascii -> bool) (s : string) : bool :=
  match s with
  | EmptyString => false
  | String c s' => p c || existsb_str p s'
  end.

Definition is_empty (s : string) : bool :=
  match s with EmptyString => true | _ => false end.

(** Truthiness of a [str]: [if s:] holds for the non-empty strings. *)
Definition truthy (s : string) : bool := negb (is_empty s).

(** [s.isdigit()]: at least one character, all of them digits. *)
Definition isdigit (s : string) : bool :=
  truthy s && forallb_str isdigit_char s.

(** [s.lstrip()] and [s.lstrip(chars)] through one predicate on characters. *)
Fixpoint lstrip_by (p : ascii -> bool) (s : string) : string :=
  match s with
  | EmptyString => EmptyString
  | String c s' => if p c then lstrip_by p s' else s
  end.

Fixpoint rstrip_by (p : ascii -> bool) (s : string) : string :=
  match s with
  | EmptyString => EmptyString
  | String c s' =>
      match rstrip_by p s' with
      | EmptyString => if p c then EmptyString else String c EmptyString
      | r => String c r
      end
  end.

Definition strip (s : string) : string := rstrip_by isspace (lstrip_by isspace s).

(** The test [not s or not s.strip()]. *)
Definition blank (s : string) : bool := negb (truthy s) || negb (truthy (strip s)).

(** [s.split(sep)] for a separator given as a class of single characters
    ([re.split] on a character class behaves the same): the pieces between
    the separators, empty ones included, at least one piece. *)
Fixpoint split_on (sep : ascii -> bool) (s : string) : list string :=
  match s with
  | EmptyString => [EmptyString]
  | String c s' =>
      if sep c then EmptyString :: split_on sep s'
      else match split_on sep s' with
           | [] => [String c EmptyString]
           | p :: ps => String c p :: ps
           end
  end.

(** [s.split()] without argument: the maximal runs of non-space characters. *)
Fixpoint words_aux (cur : option string) (s : string) : list string :=
  match s with
  | EmptyString => match cur with Some w => [w] | None => [] end
  | String c s' =>
      if isspace c then
        match cur with
        | Some w => w :: words_aux None s'
        | None => words_aux None s'
        end
      else words_aux (Some (match cur with
                            | Some w => w +:+ String c EmptyString
                            | None => String c EmptyString
                            end)) s'
  end.

Definition words (s : string) : list string := words_aux None s.

Fixpoint startswith (s pre : string) {struct pre} : bool :=
  match pre with
  | EmptyString => true
  | String p pre' =>
      match s with
      | String c s' => if Ascii.eqb p c then startswith s' pre' else false
      | EmptyString => false
      end
  end.

(** [s.replace(old, new)] for a non-empty [old]: a left-to-right scan that
    replaces every non-overlapping occurrence.  [skip] counts the characters
    of a matched occurrence still to be dropped. *)
Fixpoint replace_aux (old new : string) (skip : nat) (s : string) : string :=
  match s with
  | EmptyString => EmptyString
  | String c s' =>
      match skip with
      | S k => replace_aux old new k s'
      | O =>
          if startswith s old
          then new +:+ replace_aux old new (String.length old - 1) s'
          else String c (replace_aux old new 0 s')
      end
  end.

Definition replace (old new s : string) : string := replace_aux old new 0 s.

Definition contains_char (c : ascii) (s : string) : bool :=
  existsb_str (Ascii.eqb c) s.

Fixpoint filter_str (p : ascii -> bool) (s : string) : string :=
  match s with
  | EmptyString => EmptyString
  | String c s' => if p c then String c (filter_str p s') else filter_str p s'
  end.

Fixpoint map_str (f : ascii -> ascii) (s : string) : string :=
  match s with
  | EmptyString => EmptyString
  | String c s' => String (f c) (map_str f s')
  end.

(** Decimal digits to a number, most significant first. *)
Fixpoint digits_value (acc : Z) (s : string) : Z :=
  match s with
  | EmptyString => acc
  | String c s' => digits_value (10 * acc + Z.of_nat (ord c - 48)) s'
  end.

(** The digit part of an integer literal accepted by [int]: digits, with
    single underscores allowed between two digits. *)
Fixpoint int_body_ok (prev_digit : bool) (s : string) : bool :=
  match s with
  | EmptyString => prev_digit
  | String c s' =>
      if isdigit_char c then int_body_ok true s'
      else if Ascii.eqb c "_" then prev_digit && int_body_ok false s'
      else false
  end.

Definition drop_underscores (s : string) : string := replace "_" "" s.

(** [int(s)] in base ten: surrounding whitespace is ignored, one sign is
    allowed, anything else raises [ValueError]. *)
Definition int_of_str (s : string) : res Z :=
  let t := strip s in
  let '(neg, body) :=
    match t with
    | String "-" b => (true, b)
    | String "+" b => (false, b)
    | _ => (false, t)
    end in
  if int_body_ok false body
  then let v := digits_value 0 (drop_underscores body) in
       Ret (if neg then - v else v)%Z
  else Raise (ValueError ("invalid literal for int() with base 10: " +:+ s)).

(** The longest prefix made of characters of a class; [lstrip_by] gives
    what follows it. *)
Fixpoint take_while (p : ascii -> bool) (s : string) : string :=
  match s with
  | EmptyString => EmptyString
  | String c s' => if p c then String c (take_while p s') else EmptyString
  end.

(** The visible ASCII characters and the space. *)
Definition printable (c : ascii) : bool := between 32 126 c.

Definition not_space (c : ascii) : bool := negb (isspace c).

End PyStr.

(** ** validators/validators.py *)

Module Validators.
Import PyStr.

(** [s[n:]] *)
Fixpoint slice_from (n : nat) (s : string) : string :=
  match n, s with
  | O, _ => s
  | S k, String _ s' => slice_from k s'
  | S _, EmptyString => EmptyString
  end.

(** The body of [for part in parts:], with its two early returns. *)
Fixpoint check_parts (parts : list string) : bool * string :=
  match parts with
  | [] => (true, "OK")
  | part :: rest =>
      let cleaned :=
        replace ")" "" (replace "(" "" (replace "-" "" (replace " " "" part))) in
      let digits :=
        if startswith cleaned "+" then slice_from 1 cleaned else cleaned in
      if negb (isdigit digits) then
        (false, "Phone '" +:+ part +:+ "' contains invalid characters")
      else if (String.length digits <? 8)%nat || (15 <? String.length digits)%nat then
        (false, "Phone '" +:+ part +:+ "' length must be 8–15 digits")
      else check_parts rest
  end.

Definition validate_phone (phone : string) : bool * string :=
  if negb (truthy phone) then (false, "Empty phone field")
  else
    let parts :=
      map strip (filter (fun p => truthy (strip p) = true)
                        (split_on (Ascii.eqb "/") phone)) in
    match parts with
    | [] => (false, "Empty phone field")
    | _ => check_parts parts
    end.

Definition validate_address (address : string) : bool * string :=
  if blank address then (false, "Address cannot be empty")
  else (true, "OK").

(** *** The rule of the specification, in its own words *)

(** The non-blank parts between the slashes, trimmed. *)
Definition phone_parts (phone : string) : list string :=
  filter (fun p => p <> EmptyString) (map strip (split_on (Ascii.eqb "/") phone)).

Definition punctuation (c : ascii) : bool :=
  Ascii.eqb c " " || Ascii.eqb c "-" || Ascii.eqb c "(" || Ascii.eqb c ")".

Definition without_punctuation (p : string) : string :=
  filter_str (fun c => negb (punctuation c)) p.

Definition without_plus (p : string) : string :=
  match p with
  | String "+" r => r
  | _ => p
  end.

Definition number_ok (part : string) : Prop :=
  let d := without_plus (without_punctuation part) in
  forallb_str isdigit_char d = true /\ (8 <= String.length d <= 15)%nat.

Definition phone_rule (phone : string) : Prop :=
  phone_parts phone <> [] /\ Forall number_ok (phone_parts phone).

End Validators.

(** ** utils/parsers.py *)

Module Parsers.
Import PyStr.

(** *** The regular expression [PRODUCT_PATTERN]

    [([A-Za-z0-9]+)\s*(?:[:xX]?\s*(-?\d+))?] is written with backtracking
    combinators in continuation-passing style: a combinator hands what it
    consumed and the rest of the text to its continuation, and tries its
    next alternative when the continuation fails, in the order of Python's
    [re] engine (greedy: longest first). *)

Section Backtracking.
Context {R : Type}.

(** [cls{min,}], greedy, for a character class. *)
Fixpoint rep (cls : ascii -> bool) (min : nat) (s : string)
    (k : string -> string -> option R) : option R :=
  let stop := match min with O => k EmptyString s | S _ => None end in
  match s with
  | String c s' =>
      if cls c then
        match rep cls (Nat.pred min) s' (fun m r => k (String c m) r) with
        | Some x => Some x
        | None => stop
        end
      else stop
  | EmptyString => stop
  end.

(** [cls?], greedy. *)
Definition opt (cls : ascii -> bool) (s : string)
    (k : string -> string -> option R) : option R :=
  match s with
  | String c s' =>
      if cls c then
        match k (String c EmptyString) s' with
        | Some x => Some x
        | None => k EmptyString s
        end
      else k EmptyString s
  | EmptyString => k EmptyString s
  end.
End Backtracking.

Definition is_sep (c : ascii) : bool :=
  Ascii.eqb c ":" || Ascii.eqb c "x" || Ascii.eqb c "X".

(** [PRODUCT_PATTERN.match(item)]: [None] when there is no match, otherwise
    [group(1)] and [group(2)] ([None] when the optional group took no part). *)
Definition PRODUCT_PATTERN_match (item : string) : option (string * option string) :=
  rep isalnum_char 1 item (fun g1 r1 =>
  rep isspace 0 r1 (fun _ r2 =>
    match
      opt is_sep r2 (fun _ r3 =>
      rep isspace 0 r3 (fun _ r4 =>
      opt (Ascii.eqb "-") r4 (fun sign r5 =>
      rep isdigit_char 1 r5 (fun ds _ => Some (sign +:+ ds)))))
    with
    | Some g2 => Some (g1, Some g2)
    | None => Some (g1, None)
    end)).

Record entry : Type := { code : string; qty : Z }.

Definition nth_str (l : list string) (i : nat) : string := nth i l EmptyString.

(** The body of [for item in items:]; [parsed] is the list built so far. *)
Fixpoint parse_items (items : list string) (parsed : list entry) : res (list entry) :=
  match items with
  | [] => Ret parsed
  | item :: rest =>
      let item := strip item in
      if negb (truthy item) then parse_items rest parsed
      else
        match PRODUCT_PATTERN_match item with
        | None =>
            let tokens := words item in
            if (length tokens =? 2)%nat
               && isdigit (lstrip_by (Ascii.eqb "-") (nth_str tokens 1))
            then
              let code := upper (nth_str tokens 0) in
              q ← int_of_str (nth_str tokens 1);
              parse_items rest (parsed ++ [{| code := code; qty := q |}])
            else
              parse_items rest (parsed ++ [{| code := upper item; qty := 1 |}])
        | Some (g1, qty_raw) =>
            let code := upper g1 in
            q ← match qty_raw with
                | Some raw => if truthy raw then int_of_str raw else Ret 1%Z
                | None => Ret 1%Z
                end;
            parse_items rest (parsed ++ [{| code := code; qty := q |}])
        end
  end.

Definition is_item_sep (c : ascii) : bool := Ascii.eqb c ";" || Ascii.eqb c ",".

Definition parse_product_field (field_text : string) : res (list entry) :=
  if blank field_text then Ret []
  else parse_items (split_on is_item_sep field_text) [].

(** The non-blank tokens of a field, and the tokens that start with a
    letter or a digit, which are the ones the pattern matches. *)
Definition tokens (field_text : string) : list string :=
  filter (fun p => truthy (strip p) = true) (split_on is_item_sep field_text).

Definition starts_alnum (item : string) : bool :=
  match strip item with
  | String c _ => isalnum_char c
  | EmptyString => false
  end.

End Parsers.

(** [try: m except (ValueError, TypeError, ...): h] *)
Definition catch {A} (m : res A) (handled : exn -> bool) (h : exn -> res A) : res A :=
  match m with
  | Ret a => Ret a
  | Raise e => if handled e then h e else Raise e
  end.

Definition is_value_or_type_error (e : exn) : bool :=
  match e with
  | ValueError _ | TypeError _ => true
  | _ => false
  end.

(** [except Exception]: every exception of the model is one. *)
Definition is_exception (e : exn) : bool := true.

(** ** Numbers and their text *)

Module PyNum.
Import PyStr.

(** [str(n)] for an [int]. *)
Definition str_of_int (n : Z) : string := NilZero.string_of_int (Z.to_int n).

(** [round(x)] of a float: the nearest integer, ties to the even one. *)
Definition round_half_even (x : Q) : Z :=
  let f := Qfloor x in
  let d := (x - inject_Z f)%Q in
  match (d ?= 1 # 2)%Q with
  | Lt => f
  | Gt => (f + 1)%Z
  | Eq => if Z.even f then f else (f + 1)%Z
  end.

(** The grouping of the [,] format option: a separator before every group
    of three digits counted from the right. *)
Fixpoint group_thousands (sep : string) (ds : string) : string :=
  match ds with
  | EmptyString => EmptyString
  | String c r =>
      String c (if (0 <? String.length r)%nat && (String.length r mod 3 =? 0)%nat
                then sep +:+ group_thousands sep r
                else group_thousands sep r)
  end.

(** [f"{n:,}"] for an [int]. *)
Definition format_int_grouped (n : Z) : string :=
  if (n <? 0)%Z then "-" +:+ group_thousands "," (str_of_int (- n))
  else group_thousands "," (str_of_int n).

Definition two_digits (n : Z) : string :=
  if (n <? 10)%Z then "0" +:+ str_of_int n else str_of_int n.

(** [f"{x:,.2f}"] for a float: the exact value rounded to hundredths (ties
    to even), the integer part grouped. *)
Definition format_fixed2_grouped (x : Q) : string :=
  let r := round_half_even (Qabs x * 100) in
  (if Qlt_le_dec x 0 then "-" else "") +:+
  group_thousands "," (str_of_int (r / 100)) +:+ "." +:+ two_digits (r mod 100).

Definition comma_to_space (x : ascii) : ascii := if Ascii.eqb "," x then " "%char else x.

End PyNum.

(** ** Floats with their special values

    A finite float is the rational it denotes; [nan] and the two
    infinities are values of their own. *)

Module PyFloat.

Inductive pyfloat : Type :=
| Finite (x : Q)
| NaN
| Inf (negative : bool).

Definition zero : pyfloat := Finite 0.

(** [x < 0]: every comparison with [nan] is false. *)
Definition lt_zero (x : pyfloat) : bool :=
  match x with
  | Finite q => if Qlt_le_dec q 0 then true else false
  | NaN => false
  | Inf negative => negative
  end.

(** [x >= 0] *)
Definition ge_zero (x : pyfloat) : bool :=
  match x with
  | Finite q => if Qlt_le_dec q 0 then false else true
  | NaN => false
  | Inf negative => negb negative
  end.

(** [bool(x)]: only the zeros are false. *)
Definition nonzero (x : pyfloat) : bool :=
  match x with
  | Finite q => negb (Qeq_bool q 0)
  | _ => true
  end.

(** [abs(x)] *)
Definition abs (x : pyfloat) : pyfloat :=
  match x with
  | Finite q => Finite (Qabs q)
  | NaN => NaN
  | Inf _ => Inf false
  end.

(** [round(x)] with one argument: an [int], or the exception of a value
    that has none. *)
Definition round (x : pyfloat) : res Z :=
  match x with
  | Finite q => Ret (PyNum.round_half_even q)
  | NaN => Raise (ValueError "cannot convert float NaN to integer")
  | Inf _ => Raise (OverflowError "cannot convert float infinity to integer")
  end.

(** [repr(x)], which is [str(x)], over the [repr] of the finite floats. *)
Definition repr (float_repr : Q -> string) (x : pyfloat) : string :=
  match x with
  | Finite q => float_repr q
  | NaN => "nan"
  | Inf false => "inf"
  | Inf true => "-inf"
  end.

(** Up to [2^53] every integer is a float. *)
Definition EXACT_INT_MAX : Z := 9007199254740992.

(** [float(n)] for an [int]: the nearest float, which keeps 53 bits, a tie
    going to the even one; an [int] that rounds beyond the largest float,
    to [2^1024], is refused. *)
Definition of_int (n : Z) : res pyfloat :=
  let a := Z.abs n in
  let unit := (2 ^ Z.max 0 (Z.log2 a - 52))%Z in
  let q := (a / unit)%Z in
  let q' :=
    match (2 * (a mod unit) ?= unit)%Z with
    | Lt => q
    | Gt => (q + 1)%Z
    | Eq => if Z.even q then q else (q + 1)%Z
    end in
  if (2 ^ 1024 <=? q' * unit)%Z
  then Raise (OverflowError "int too large to convert to float")
  else Ret (Finite (inject_Z (Z.sgn n * (q' * unit)))).

End PyFloat.

(** ** Limits of the interpreter and of the standard library, at their
    default values *)

Module Limits.
Import PyStr.

(** [sys.get_int_max_str_digits()]: [int(text)] and [str(n)] refuse more
    digits. *)
Definition INT_MAX_STR_DIGITS : nat := 4300.

(** [csv.field_size_limit()] *)
Definition FIELD_SIZE_LIMIT : Z := 131072.

(** [sys.getrecursionlimit()] *)
Definition RECURSION_LIMIT : nat := 1000.

(** The number of decimal digits of an [int]. *)
Definition int_digits (n : Z) : nat := String.length (PyNum.str_of_int (Z.abs n)).

(** An [int] that [str] and [int] convert. *)
Definition convertible (n : Z) : Prop := (int_digits n <= INT_MAX_STR_DIGITS)%nat.

(** The length of a text, as a number that does not grow with it. *)
Definition text_length (s : string) : Z := Z.of_nat (String.length s).

(** A text that the csv reader accepts as one field. *)
Definition fits_field (s : string) : Prop := (text_length s <= FIELD_SIZE_LIMIT)%Z.

(** Text of ASCII characters: on it the methods of [PyStr] are those of
    Python's [str]. *)
Definition is_ascii (s : string) : bool := forallb_str (fun c => (ord c <? 128)%nat) s.

End Limits.

(** ** utils/formatters.py *)

Module Formatters.
Import PyStr PyNum PyFloat.

(** What the callers pass as [value]: [None], an [int], a [float], or
    text. *)
Inductive pyval : Type :=
| VNone
| VInt (n : Z)
| VFloat (x : pyfloat)
| VStr (s : string).

(** A parsed number: Python keeps [int] and [float] apart. *)
Inductive pynum : Type :=
| PInt (n : Z)
| PFloat (x : Q).

Definition pynum_value (v : pynum) : Q :=
  match v with
  | PInt n => inject_Z n
  | PFloat x => x
  end.

(** The double written [0.0001] in the source: 7378697629483821 / 2^66. *)
Definition tolerance : Q := 7378697629483821 # 73786976294838206464.

Section WithFloat.
(** The built-in [float] on text: [None] stands for its [ValueError]. *)
Variable float_of_str : string -> option Q.

Definition float_str (s : string) : res Q :=
  match float_of_str s with
  | Some x => Ret x
  | None => Raise (ValueError ("could not convert string to float: " +:+ s))
  end.

(** The built-in [float] on text with the special values it reads
    ([float("nan")], [float("inf")], a number too large): [None] stands for
    its [ValueError]. *)
Variable float_of_text : string -> option pyfloat.

Definition float_of_string (s : string) : res pyfloat :=
  match float_of_text s with
  | Some x => Ret x
  | None => Raise (ValueError ("could not convert string to float: " +:+ s))
  end.

(** [float(value)] *)
Definition float_of_value (value : pyval) : res pyfloat :=
  match value with
  | VNone => Raise (TypeError "float() argument must be a string or a real number")
  | VInt n => of_int n
  | VFloat x => Ret x
  | VStr s => float_of_string s
  end.

(** [str(value)] *)
Definition str_of_value (float_repr : Q -> string) (value : pyval) : string :=
  match value with
  | VNone => "None"
  | VInt n => str_of_int n
  | VFloat x => repr float_repr x
  | VStr s => s
  end.

(** The part of [format_currency] after the [try], on a finite float [v]. *)
Definition format_float (v : Q) : string :=
  let is_negative := if Qlt_le_dec v 0 then true else false in
  let v_abs := Qabs v in
  let formatted :=
    if Qlt_le_dec (Qabs (v_abs - inject_Z (round_half_even v_abs))) tolerance
    then replace "," " " (format_int_grouped (round_half_even v_abs))
    else replace "," " " (format_fixed2_grouped v_abs) in
  let prefix := if is_negative then "-" else "" in
  prefix +:+ formatted +:+ " Ar".

(** [format_currency(value)]: the [try] holds the conversion only, so the
    exception of [round] on a float that is no number leaves the function. *)
Definition format_currency (float_repr : Q -> string) (value : pyval) : res string :=
  match value with
  | VNone => Ret ""
  | _ =>
      match float_of_value value with
      | Raise e =>
          if is_value_or_type_error e then Ret (str_of_value float_repr value)
          else Raise e
      | Ret v =>
          match v with
          | Finite q => Ret (format_float q)
          | NaN | Inf _ =>
              (* [round(v_abs)] raises on a float that is no number *)
              n ← round (abs v); Ret (str_of_int n +:+ " Ar")
          end
      end
  end.

(** [parse_numeric(value_str, allow_negative)] for a [str] argument. *)
Definition parse_numeric (value_str : string) (allow_negative : bool)
    : res (option pynum) :=
  let cleaned := strip value_str in
  let cleaned :=
    replace "," "" (replace "ar" "" (replace "Ar" "" (replace " " "" cleaned))) in
  if negb (truthy cleaned) then Ret None
  else
    catch
      (value ← (if contains_char "." cleaned
                then x ← float_str cleaned; Ret (PFloat x)
                else n ← int_of_str cleaned; Ret (PInt n));
       if negb allow_negative && (if Qlt_le_dec (pynum_value value) 0 then true else false)
       then Ret None
       else Ret (Some value))
      is_value_or_type_error
      (fun _ => Ret None).

End WithFloat.

(** *** The rendering of the specification, in its own words *)

Definition thousands_with_spaces (n : Z) : string :=
  group_thousands " " (str_of_int n).

(** The amount differs from the nearest integer by less than [tolerance]. *)
Definition nearly_whole (a : Q) : bool :=
  if Qlt_le_dec (Qabs (a - inject_Z (round_half_even a))) tolerance then true else false.

Definition hundredths (a : Q) : Z := round_half_even (a * 100).

Definition amount_text (a : Q) : string :=
  if nearly_whole a then thousands_with_spaces (round_half_even a)
  else thousands_with_spaces (hundredths a / 100) +:+ "." +:+
       two_digits (hundredths a mod 100).

Definition currency_text (x : Q) : string :=
  (if Qlt_le_dec x 0 then "-" else "") +:+ amount_text (Qabs x) +:+ " Ar".

End Formatters.

(** ** models/order.py *)

Module Models.
Import PyStr PyFloat.

Record OrderLine : Type := {
  product_code : string;
  quantity : Z;
  unit_price : pyfloat;
  line_total : pyfloat
}.

(** [delivery_fee] is [None] when absent: [is_valid] tests for it. *)
Record Order : Type := {
  client_name : string;
  phone : string;
  address : string;
  delivery_fee : option pyfloat;
  products : string;
  total_price : pyfloat;
  status : string;
  agent : string;
  notes : string;
  order_lines : list OrderLine
}.

(** A method is a function of [self] that also returns [self] as the call
    leaves it; [is_valid] has no assignment, so every [return] hands the
    object back as it came. *)
Definition is_valid (self : Order) : bool * Order :=
  if blank (client_name self) then (false, self)
  else if blank (phone self) then (false, self)
  else if blank (address self) then (false, self)
  else
    match delivery_fee self with
    | None => (false, self)
    | Some fee => if lt_zero fee then (false, self) else (true, self)
    end.

(** *** Validity in the words of the specification *)

Definition non_empty_after_trimming (s : string) : Prop := strip s <> EmptyString.

(** A fee is non-negative when it is zero or more: a finite number that is,
    or the positive infinity. *)
Definition non_negative (fee : pyfloat) : Prop :=
  match fee with
  | Finite q => (0 <= q)%Q
  | NaN => False
  | Inf negative => negative = false
  end.

Definition valid_rule (o : Order) : Prop :=
  non_empty_after_trimming (client_name o) /\
  non_empty_after_trimming (phone o) /\
  non_empty_after_trimming (address o) /\
  exists fee, delivery_fee o = Some fee /\ non_negative fee.

(** What the method tests instead: a fee that is present and for which
    [fee < 0] is false. *)
Definition tested_rule (o : Order) : Prop :=
  non_empty_after_trimming (client_name o) /\
  non_empty_after_trimming (phone o) /\
  non_empty_after_trimming (address o) /\
  exists fee, delivery_fee o = Some fee /\ lt_zero fee = false.

End Models.

(** ** data/products_loader.py: the price lookup *)

Module ProductPrice.
Import PyStr.

(** [products.get(code.upper(), 0.0)] *)
Definition get_product_price (code : string) (products : gmap string Q) : Q :=
  default 0%Q (products !! upper code).

(** A catalog as [load_products] builds it: every key is upper case. *)
Definition upper_keys (products : gmap string Q) : Prop :=
  forall k, is_Some (products !! k) -> upper k = k.

(** Two codes that differ only in the case of their letters. *)
Definition same_ignoring_case (a b : string) : Prop := upper a = upper b.

End ProductPrice.

(** ** config.py *)

Module Config.

Definition AGENTS_FILE : string := "agents.txt".
Definition ADDRESSES_FILE : string := "addresses.txt".
Definition PRODUCTS_FILE : string := "products.csv".
Definition DEFAULT_STATUS : string := "Pending".
Definition MAX_ADDRESS_HISTORY : nat := 200.
Definition DEFAULT_AGENTS : list string :=
  ["Jean"; "Hery"; "Mamy"; "Rado"; "External Courier"].
Definition SAMPLE_PRODUCTS : list (list string) :=
  [ ["CA"; "Creme Affinante"; "25000"; "unit"];
    ["TA"; "Tisane Affinante"; "25000"; "unit"];
    ["CG"; "Creme Galbante"; "25000"; "unit"];
    ["SG"; "SAVON GALBANT"; "15000"; "unit"];
    ["BS"; "Base de Savon"; "50"; "g"];
    ["G"; "Gaine"; "10000"; "unit"] ].

End Config.

(** ** The files and the console

    The state the [data/] package works on: the text files by path, the
    paths on which opening for reading or for writing fails (with the
    exception raised), and the lines printed so far.  Text files are read
    with universal newlines; on writing a line feed is kept as it is. *)

Module OS.
Import PyStr.

Record world : Type := {
  files : gmap string string;
  read_fault : gmap string exn;
  write_fault : gmap string exn;
  console : list string
}.

Definition LF : ascii := "010"%char.
Definition CR : ascii := "013"%char.
Definition newline : string := String LF EmptyString.
Definition line_terminator_example : string := String CR (String LF "Ambohibao").
Definition is_LF (c : ascii) : bool := Ascii.eqb c LF.
Definition not_LF (c : ascii) : bool := negb (is_LF c).
Definition not_CR (c : ascii) : bool := negb (Ascii.eqb c CR).

(** [str(e)] *)
Definition exn_str (e : exn) : string :=
  match e with
  | ValueError m | TypeError m | OSError m | CsvError m | JSONDecodeError m
  | RecursionError m | OverflowError m | Unmodelled m => m
  | FileNotFoundError p => "[Errno 2] No such file or directory: '" +:+ p +:+ "'"
  | PermissionError p => "[Errno 13] Permission denied: '" +:+ p +:+ "'"
  end.

Definition print (line : string) (w : world) : world :=
  {| files := files w; read_fault := read_fault w; write_fault := write_fault w;
     console := console w ++ [line] |}.

(** [os.path.exists(path)] *)
Definition path_exists (path : string) (w : world) : bool :=
  match files w !! path with Some _ => true | None => false end.

(** Universal newlines: CR LF and a lone CR are read as LF. *)
Fixpoint universal_newlines (s : string) : string :=
  match s with
  | EmptyString => EmptyString
  | String c s' =>
      if Ascii.eqb c CR then
        String LF (match s' with
                   | String d s'' => if Ascii.eqb d LF then universal_newlines s''
                                     else universal_newlines s'
                   | EmptyString => EmptyString
                   end)
      else String c (universal_newlines s')
  end.

(** [open(path, 'r', encoding='utf-8')] followed by reading all the text. *)
Definition read_text (path : string) (w : world) : res string :=
  match files w !! path with
  | None => Raise (FileNotFoundError path)
  | Some data =>
      match read_fault w !! path with
      | Some e => Raise e
      | None => Ret (universal_newlines data)
      end
  end.

(** [open(path, 'w', ...)], the writes and the close, with all the text
    written given at once. *)
Definition write_text (path data : string) (w : world) : res world :=
  match write_fault w !! path with
  | Some e => Raise e
  | None =>
      Ret {| files := <[path := data]> (files w); read_fault := read_fault w;
             write_fault := write_fault w; console := console w |}
  end.

(** [for line in f]: the lines of a text, each with its line feed. *)
Fixpoint text_lines_aux (cur : string) (s : string) : list string :=
  match s with
  | EmptyString => if is_empty cur then [] else [cur]
  | String c s' =>
      if Ascii.eqb c LF then (cur +:+ newline) :: text_lines_aux EmptyString s'
      else text_lines_aux (cur +:+ String c EmptyString) s'
  end.

Definition text_lines (s : string) : list string := text_lines_aux EmptyString s.

(** [[line.strip() for line in f if line.strip()]] *)
Definition stripped_lines (text : string) : list string :=
  map strip (filter (fun line => truthy (strip line) = true) (text_lines text)).

(** [f.write(f"{x}\n")] for every [x] of a list. *)
Definition lines_text (l : list string) : string :=
  fold_right (fun x acc => x +:+ newline +:+ acc) EmptyString l.

Fixpoint ends_with_CR (s : string) : bool :=
  match s with
  | EmptyString => false
  | String c s' =>
      match s' with
      | EmptyString => Ascii.eqb c CR
      | _ => ends_with_CR s'
      end
  end.

End OS.

(** ** data/addresses_manager.py *)

Module AddressManager.
Import PyStr OS.

(** [x in l] for a list of text. *)
Definition list_in (x : string) (l : list string) : bool :=
  existsb (String.eqb x) l.

(** [l.remove(x)] where [x in l] holds: the first occurrence goes. *)
Fixpoint list_remove (x : string) (l : list string) : list string :=
  match l with
  | [] => []
  | y :: l' => if String.eqb x y then l' else y :: list_remove x l'
  end.

Section Manager.
(** [self.addresses_file] *)
Variable addresses_file : string.

Definition load_addresses (w : world) : list string * world :=
  if negb (path_exists addresses_file w) then ([], w)
  else
    match read_text addresses_file w with
    | Ret text => (stripped_lines text, w)
    | Raise e => ([], print ("Error loading addresses: " +:+ exn_str e) w)
    end.

Definition save_address (address : string) (w : world) : world :=
  if blank address then w
  else
    let address := strip address in
    let '(addresses, w) := load_addresses w in
    let addresses :=
      if list_in address addresses then list_remove address addresses else addresses in
    let addresses := address :: addresses in
    let addresses := firstn Config.MAX_ADDRESS_HISTORY addresses in
    match write_text addresses_file (lines_text addresses) w with
    | Ret w' => w'
    | Raise e => print ("Error saving address: " +:+ exn_str e) w
    end.

End Manager.

(** A text without line break. *)
Definition single_line (s : string) : bool :=
  forallb_str (fun c => negb (Ascii.eqb c LF || Ascii.eqb c CR)) s.

(** The file can be opened for reading and for writing. *)
Definition accessible (path : string) (w : world) : Prop :=
  read_fault w !! path = None /\ write_fault w !! path = None.

(** An entry as the history file holds it: trimmed, not empty, one line. *)
Definition entry_ok (a : string) : Prop :=
  strip a = a /\ a <> EmptyString /\ single_line a = true.

(** The history after a successful save, in the words of the docstring:
    the address on top, its previous occurrence removed, at most 200. *)
Definition moved_to_front (a : string) (history : list string) : list string :=
  firstn Config.MAX_ADDRESS_HISTORY (a :: list_remove a history).

End AddressManager.

(** A world without files, in which nothing fails. *)
Definition empty_world : OS.world :=
  {| OS.files := ∅; OS.read_fault := ∅; OS.write_fault := ∅; OS.console := [] |}.

(** ** data/agents_manager.py

    [load_agents] hands out list objects, and [get_default_agents] promises
    a copy, so lists live in a store of objects addressed by reference;
    [Config.DEFAULT_AGENTS] is the object at [DEFAULT_AGENTS_ref]. *)

Module AgentManager.
Import PyStr OS.

Record state : Type := {
  os : world;
  heap : gmap nat (list string)
}.

Definition DEFAULT_AGENTS_ref : nat := 0.

Definition initial_heap : gmap nat (list string) :=
  {[ DEFAULT_AGENTS_ref := Config.DEFAULT_AGENTS ]}.

(** A new list object. *)
Definition alloc (l : list string) (h : gmap nat (list string))
    : nat * gmap nat (list string) :=
  let r := fresh (dom h) in (r, <[r := l]> h).

(** [l.copy()] *)
Definition list_copy (r : nat) (h : gmap nat (list string))
    : nat * gmap nat (list string) :=
  alloc (default [] (h !! r)) h.

Definition get_default_agents (st : state) : nat * state :=
  let '(r, h) := list_copy DEFAULT_AGENTS_ref (heap st) in
  (r, {| os := os st; heap := h |}).

Section Manager.
(** [self.agents_file] *)
Variable agents_file : string.

Definition load_agents (st : state) : nat * state :=
  if negb (path_exists agents_file (os st)) then get_default_agents st
  else
    match read_text agents_file (os st) with
    | Ret text =>
        let '(agents, h) := alloc (stripped_lines text) (heap st) in
        let st := {| os := os st; heap := h |} in
        match stripped_lines text with
        | _ :: _ => (agents, st)
        | [] => get_default_agents st
        end
    | Raise e =>
        get_default_agents
          {| os := print ("Error loading agents: " +:+ exn_str e) (os st);
             heap := heap st |}
    end.

(** [save_agents(agents)] for the list object [agents]. *)
Definition save_agents (agents : nat) (st : state) : state :=
  let names := default [] (heap st !! agents) in
  let kept := map strip (filter (fun a => truthy (strip a) = true) names) in
  match write_text agents_file (lines_text kept) (os st) with
  | Ret w => {| os := w; heap := heap st |}
  | Raise e =>
      {| os := print ("Error saving agents: " +:+ exn_str e) (os st); heap := heap st |}
  end.

End Manager.

(** The three situations in which there is nothing to load: no file, a
    failing read, a file with nothing but blank lines. *)
Definition nothing_to_load (path : string) (w : world) : Prop :=
  files w !! path = None \/
  (exists e, read_text path w = Raise e) \/
  (exists text, read_text path w = Ret text /\ stripped_lines text = []).

End AgentManager.

(** The program at start-up: no files, and the default agents as the
    module [Config] defines them. *)
Definition initial_state : AgentManager.state :=
  {| AgentManager.os := empty_world; AgentManager.heap := AgentManager.initial_heap |}.

(** ** The [json] module: [dumps] and [loads]

    Python objects that JSON text denotes.  A [dict] keeps its keys in
    insertion order.  Strings are read and written character by character
    with [ensure_ascii]; an escape [\uXXXX] above 00ff denotes a character
    outside the model and is reported as [Unmodelled].  Positions are left
    out of the messages of [JSONDecodeError].  The decoder gives up with a
    [RecursionError] on arrays and objects nested beyond the recursion
    limit, and [int] refuses a number beyond its digit limit. *)

Module Json.
Import PyStr PyNum PyFloat.

#[local] Set Warnings "-register-all".

Inductive pyobj : Type :=
| PyNone
| PyBool (b : bool)
| PyInt (n : Z)
| PyFloat (x : pyfloat)
| PyStr (s : string)
| PyList (l : list pyobj)
| PyDict (d : list (string * pyobj)).

Definition DQUOTE : ascii := "034"%char.
Definition BACKSLASH : ascii := "092"%char.
Definition TAB : ascii := "009"%char.
Definition BS : ascii := "008"%char.
Definition FF : ascii := "012"%char.

(** [d[k] = v] *)
Fixpoint dict_set (k : string) (v : pyobj) (d : list (string * pyobj))
    : list (string * pyobj) :=
  match d with
  | [] => [(k, v)]
  | (k', v') :: d' => if String.eqb k k' then (k, v) :: d' else (k', v') :: dict_set k v d'
  end.

(** [dict(pairs)] *)
Definition dict_of_pairs (pairs : list (string * pyobj)) : list (string * pyobj) :=
  fold_left (fun d kv => dict_set (fst kv) (snd kv) d) pairs [].

(** *** Encoding *)

Definition hex_digit (n : nat) : ascii :=
  if (n <? 10)%nat then ascii_of_nat (48 + n) else ascii_of_nat (87 + n).

(** One character of [py_encode_basestring_ascii]. *)
Definition escape_char (c : ascii) : string :=
  if Ascii.eqb c DQUOTE then String BACKSLASH (String DQUOTE EmptyString)
  else if Ascii.eqb c BACKSLASH then String BACKSLASH (String BACKSLASH EmptyString)
  else if Ascii.eqb c OS.LF then String BACKSLASH "n"
  else if Ascii.eqb c OS.CR then String BACKSLASH "r"
  else if Ascii.eqb c TAB then String BACKSLASH "t"
  else if Ascii.eqb c BS then String BACKSLASH "b"
  else if Ascii.eqb c FF then String BACKSLASH "f"
  else if between 32 126 c then String c EmptyString
  else String BACKSLASH
         (String "u" (String "0" (String "0"
            (String (hex_digit (ord c / 16)) (String (hex_digit (ord c mod 16)) EmptyString))))).

Fixpoint escape_chars (s : string) : string :=
  match s with
  | EmptyString => EmptyString
  | String c s' => escape_char c +:+ escape_chars s'
  end.

Definition encode_basestring_ascii (s : string) : string :=
  String DQUOTE (escape_chars s +:+ String DQUOTE EmptyString).

(** [sep.join(l)] *)
Fixpoint join (sep : string) (l : list string) : string :=
  match l with
  | [] => EmptyString
  | [x] => x
  | x :: l' => x +:+ sep +:+ join sep l'
  end.

Section Codec.
(** [float.__repr__], the text [dumps] writes for a finite float, and the
    finite float that the built-in [float] reads in a text.  On a number of
    JSON [float] never raises: there [None] stands for a number too large,
    which it gives as an infinity. *)
Variable float_repr : Q -> string.
Variable float_of_str : string -> option Q.

(** [encoder.floatstr] *)
Definition floatstr (x : pyfloat) : string :=
  match x with
  | Finite q => float_repr q
  | NaN => "NaN"
  | Inf false => "Infinity"
  | Inf true => "-Infinity"
  end.

(** [json.dumps(o)] with the default separators. *)
Fixpoint dumps (o : pyobj) : string :=
  match o with
  | PyNone => "null"
  | PyBool true => "true"
  | PyBool false => "false"
  | PyInt n => str_of_int n
  | PyFloat x => floatstr x
  | PyStr s => encode_basestring_ascii s
  | PyList l => "[" +:+ join ", " (map dumps l) +:+ "]"
  | PyDict d =>
      "{" +:+
      join ", " (map (fun kv => encode_basestring_ascii (fst kv) +:+ ": " +:+ dumps (snd kv)) d)
      +:+ "}"
  end.

(** *** Decoding *)

(** The text of one member of a dict. *)
Definition member_text (kv : string * pyobj) : string :=
  encode_basestring_ascii kv.1 +:+ ": " +:+ dumps kv.2.

Definition is_json_ws (c : ascii) : bool :=
  Ascii.eqb c " " || Ascii.eqb c TAB || Ascii.eqb c OS.LF || Ascii.eqb c OS.CR.

Definition skip_ws (s : string) : string := lstrip_by is_json_ws s.

Definition hex_value (c : ascii) : option nat :=
  if isdigit_char c then Some (ord c - 48)
  else if between 97 102 c then Some (ord c - 87)
  else if between 65 70 c then Some (ord c - 55)
  else None.

(** The four hexadecimal digits of a [\u] escape. *)
Definition hex4 (a b c d : ascii) : option nat :=
  match hex_value a, hex_value b, hex_value c, hex_value d with
  | Some x, Some y, Some z, Some t => Some (((x * 16 + y) * 16 + z) * 16 + t)
  | _, _, _, _ => None
  end.

(** [scanstring]: the text after the opening quote, up to the closing one. *)
Fixpoint scanstring (s : string) (acc : string) : res (string * string) :=
  match s with
  | EmptyString => Raise (JSONDecodeError "Unterminated string starting at")
  | String c s' =>
      if Ascii.eqb c DQUOTE then Ret (acc, s')
      else if Ascii.eqb c BACKSLASH then
        match s' with
        | EmptyString => Raise (JSONDecodeError "Unterminated string starting at")
        | String e s'' =>
            let simple (x : ascii) := scanstring s'' (acc +:+ String x EmptyString) in
            if Ascii.eqb e DQUOTE then simple DQUOTE
            else if Ascii.eqb e BACKSLASH then simple BACKSLASH
            else if Ascii.eqb e "/" then simple "/"%char
            else if Ascii.eqb e "b" then simple BS
            else if Ascii.eqb e "f" then simple FF
            else if Ascii.eqb e "n" then simple OS.LF
            else if Ascii.eqb e "r" then simple OS.CR
            else if Ascii.eqb e "t" then simple TAB
            else if Ascii.eqb e "u" then
              match s'' with
              | String h1 (String h2 (String h3 (String h4 rest))) =>
                  match hex4 h1 h2 h3 h4 with
                  | Some n =>
                      if (n <? 256)%nat
                      then scanstring rest (acc +:+ String (ascii_of_nat n) EmptyString)
                      else Raise (Unmodelled "character above U+00FF")
                  | None => Raise (JSONDecodeError "Invalid \uXXXX escape")
                  end
              | _ => Raise (JSONDecodeError "Invalid \uXXXX escape")
              end
            else Raise (JSONDecodeError "Invalid \escape")
        end
      else if (ord c <? 32)%nat then Raise (JSONDecodeError "Invalid control character at")
      else scanstring s' (acc +:+ String c EmptyString)
  end.

(** The longest prefix of characters of a class, and what follows it. *)
Fixpoint span (p : ascii -> bool) (s : string) : string * string :=
  match s with
  | EmptyString => (EmptyString, EmptyString)
  | String c s' =>
      if p c then let '(a, b) := span p s' in (String c a, b)
      else (EmptyString, s)
  end.

(** The three groups of [NUMBER_RE]: the integer part (an optional minus
    sign, then a single zero or digits that do not start with zero), the
    optional fraction and the optional exponent.  Each scanner returns what
    it matched and the text that follows. *)
Definition take_sign (signs : ascii -> bool) (s : string) : string * string :=
  match s with
  | String c r => if signs c then (String c EmptyString, r) else (EmptyString, s)
  | EmptyString => (EmptyString, s)
  end.

Definition scan_integer (s : string) : option (string * string) :=
  let '(sign, s1) := take_sign (Ascii.eqb "-") s in
  match s1 with
  | String c r =>
      if isdigit_char c then
        let '(digits, s2) :=
          if Ascii.eqb c "0" then ("0", r) else span isdigit_char s1 in
        Some (sign +:+ digits, s2)
      else None
  | EmptyString => None
  end.

Definition scan_fraction (s : string) : string * string :=
  match s with
  | String c r =>
      if Ascii.eqb c "." then
        let '(digits, r') := span isdigit_char r in
        if is_empty digits then (EmptyString, s) else (String c digits, r')
      else (EmptyString, s)
  | EmptyString => (EmptyString, s)
  end.

Definition scan_exponent (s : string) : string * string :=
  match s with
  | String e r =>
      if Ascii.eqb e "e" || Ascii.eqb e "E" then
        let '(sign, r1) := take_sign (fun c => Ascii.eqb c "-" || Ascii.eqb c "+") r in
        let '(digits, r2) := span isdigit_char r1 in
        if is_empty digits then (EmptyString, s)
        else (String e sign +:+ digits, r2)
      else (EmptyString, s)
  | EmptyString => (EmptyString, s)
  end.

(** [NUMBER_RE.match]: the three groups and the rest, [None] without match. *)
Definition match_number (s : string) : option (string * string * string * string) :=
  match scan_integer s with
  | None => None
  | Some (integer, s2) =>
      let '(frac, s3) := scan_fraction s2 in
      let '(exp, s4) := scan_exponent s3 in
      Some (integer, frac, exp, s4)
  end.

(** A text that is one JSON number with a fraction or an exponent, the
    shape of the [repr] of a finite float. *)
Definition float_token (t : string) : bool :=
  match match_number t with
  | Some (_, frac, exp, EmptyString) => truthy frac || truthy exp
  | _ => false
  end.

Definition expecting_value {A} : res A := Raise (JSONDecodeError "Expecting value").

(** What a loop of the decoder would give with more items than its text
    has characters: no text has that many, see [JsonFacts.loads_ends]. *)
Definition out_of_items : exn := Unmodelled "more items than characters".

(** The loop of [JSONArray] after the first skip of white space: [scan] reads
    one value.  The loop ends with the text; [n], more than the length of
    the text, makes that plain to Rocq. *)
Fixpoint parse_items (scan : string -> res (pyobj * string)) (n : nat) (s : string)
    (acc : list pyobj) : res (pyobj * string) :=
  match n with
  | O => Raise out_of_items
  | S n' =>
      '(v, r) ← scan s;
      match skip_ws r with
      | String "]" r' => Ret (PyList (acc ++ [v]), r')
      | String "," r' => parse_items scan n' (skip_ws r') (acc ++ [v])
      | _ => Raise (JSONDecodeError "Expecting ',' delimiter")
      end
  end.

(** The loop of [JSONObject] after the first skip of white space. *)
Fixpoint parse_members (scan : string -> res (pyobj * string)) (n : nat) (s : string)
    (pairs : list (string * pyobj)) : res (pyobj * string) :=
  match n with
  | O => Raise out_of_items
  | S n' =>
      match s with
      | String c r0 =>
          if Ascii.eqb c DQUOTE then
            '(key, r) ← scanstring r0 EmptyString;
            match skip_ws r with
            | String ":" r1 =>
                '(v, r2) ← scan (skip_ws r1);
                match skip_ws r2 with
                | String "}" r3 => Ret (PyDict (dict_of_pairs (pairs ++ [(key, v)])), r3)
                | String "," r3 => parse_members scan n' (skip_ws r3) (pairs ++ [(key, v)])
                | _ => Raise (JSONDecodeError "Expecting ',' delimiter")
                end
            | _ => Raise (JSONDecodeError "Expecting ':' delimiter")
            end
          else Raise (JSONDecodeError "Expecting property name enclosed in double quotes")
      | EmptyString =>
          Raise (JSONDecodeError "Expecting property name enclosed in double quotes")
      end
  end.

(** The digits of the integer part of a number, without its sign. *)
Definition unsigned (integer : string) : string := lstrip_by (Ascii.eqb "-") integer.

(** [int(integer)] on the integer part of a number. *)
Definition int_of_token (integer : string) : res Z :=
  if (Limits.INT_MAX_STR_DIGITS <? String.length (unsigned integer))%nat
  then Raise (ValueError "Exceeds the limit (4300 digits) for integer string conversion")
  else int_of_str integer.

(** [float(integer + frac + exp)] *)
Definition float_of_token (token : string) : pyfloat :=
  match float_of_str token with
  | Some x => Finite x
  | None => Inf (startswith token "-")
  end.

(** A number at the head of [s], one of the constants [NaN], [Infinity] and
    [-Infinity], or the failure of [scan_once]. *)
Definition scan_number (s : string) : res (pyobj * string) :=
  match match_number s with
  | Some (integer, frac, exp, r') =>
      if truthy frac || truthy exp then
        Ret (PyFloat (float_of_token (integer +:+ frac +:+ exp)), r')
      else
        n ← int_of_token integer; Ret (PyInt n, r')
  | None =>
      if startswith s "NaN" then Ret (PyFloat NaN, Validators.slice_from 3 s)
      else if startswith s "Infinity" then Ret (PyFloat (Inf false), Validators.slice_from 8 s)
      else if startswith s "-Infinity" then Ret (PyFloat (Inf true), Validators.slice_from 9 s)
      else expecting_value
  end.

(** [scan_once]; [depth] is the nesting of arrays and objects that the
    recursion limit still allows: entering one takes one level. *)
Fixpoint scan_once (depth : nat) (s : string) : res (pyobj * string) :=
  match s with
  | EmptyString => expecting_value
  | String c r =>
      if Ascii.eqb c DQUOTE then
        '(str, r') ← scanstring r EmptyString; Ret (PyStr str, r')
      else if Ascii.eqb c "{" then
        match depth with
        | O => Raise (RecursionError "maximum recursion depth exceeded")
        | S depth' =>
            match skip_ws r with
            | String "}" r' => Ret (PyDict [], r')
            | r' => parse_members (scan_once depth') (S (String.length r')) r' []
            end
        end
      else if Ascii.eqb c "[" then
        match depth with
        | O => Raise (RecursionError "maximum recursion depth exceeded")
        | S depth' =>
            match skip_ws r with
            | String "]" r' => Ret (PyList [], r')
            | r' => parse_items (scan_once depth') (S (String.length r')) r' []
            end
        end
      else if startswith s "null" then Ret (PyNone, Validators.slice_from 4 s)
      else if startswith s "true" then Ret (PyBool true, Validators.slice_from 4 s)
      else if startswith s "false" then Ret (PyBool false, Validators.slice_from 5 s)
      else scan_number s
  end.

(** A float that [dumps] writes and [loads] reads back: a finite one is
    written as a float token in which [float] reads the same float. *)
Definition float_ok (x : pyfloat) : Prop :=
  match x with
  | Finite q => float_token (float_repr q) = true /\ float_of_str (float_repr q) = Some q
  | _ => True
  end.

(** [json.loads(s)] *)
Definition loads (s : string) : res pyobj :=
  '(obj, rest) ← scan_once Limits.RECURSION_LIMIT (skip_ws s);
  match skip_ws rest with
  | EmptyString => Ret obj
  | _ => Raise (JSONDecodeError "Extra data")
  end.

End Codec.

(** What follows a value inside the text that [dumps] writes: a comma, a
    closing bracket or brace, or the end. *)
Definition closes (rest : string) : bool :=
  match rest with
  | EmptyString => true
  | String c _ => Ascii.eqb c "," || Ascii.eqb c "]" || Ascii.eqb c "}"
  end.

(** [text] is read back as [v] by [scan] in front of whatever closes it, and
    does not start with white space. *)
Definition encodes (scan : string -> res (pyobj * string)) (text : string) (v : pyobj)
    : Prop :=
  forall rest, closes rest = true ->
    scan (text +:+ rest) = Ret (v, rest) /\ skip_ws (text +:+ rest) = text +:+ rest.

(** A result that leaves no more text than it was given, or a failure other
    than [out_of_items]. *)
Definition within {A} (m : res (A * string)) (s : string) : Prop :=
  (forall v r, m = Ret (v, r) -> (String.length r <= String.length s)%nat) /\
  (forall e, m = Raise e -> e <> out_of_items).

(** Text with an apostrophe for every double quote, for the examples. *)
Definition dq (s : string) : string :=
  map_str (fun c => if Ascii.eqb c "'" then DQUOTE else c) s.

(** A number starts with a digit or a minus sign. *)
Definition number_head (c : ascii) : bool := isdigit_char c || Ascii.eqb "-" c.

(** The pair of a scanned token and what follows it, followed by [rest]. *)
Definition extend2 (rest : string) (x : string * string) : string * string :=
  (x.1, x.2 +:+ rest).

End Json.

(** ** The [csv] module with the default dialect

    Comma as delimiter, the double quote as quote character, doubled
    inside a quoted field, minimal quoting, line terminator CR LF, not
    strict.  The reader refuses a field longer than
    [csv.field_size_limit()]. *)

Module Csv.
Import PyStr OS.

Definition DQUOTE : ascii := Json.DQUOTE.
Definition COMMA : ascii := ","%char.

Definition is_special (c : ascii) : bool :=
  Ascii.eqb c COMMA || Ascii.eqb c DQUOTE || Ascii.eqb c LF || Ascii.eqb c CR.

(** *** Writer *)

Fixpoint double_quotes (s : string) : string :=
  match s with
  | EmptyString => EmptyString
  | String c s' =>
      if Ascii.eqb c DQUOTE then String DQUOTE (String DQUOTE (double_quotes s'))
      else String c (double_quotes s')
  end.

(** One field as [join_append] writes it. *)
Definition write_field (f : string) : string :=
  if existsb_str is_special f
  then String DQUOTE (double_quotes f +:+ String DQUOTE EmptyString)
  else f.

Definition line_terminator : string := String CR (String LF EmptyString).

(** [writer.writerow(fields)]: a lone empty field is written quoted. *)
Definition writerow (fields : list string) : string :=
  match fields with
  | [EmptyString] => String DQUOTE (String DQUOTE line_terminator)
  | _ => Json.join "," (map write_field fields) +:+ line_terminator
  end.

(** *** Reader *)

Inductive pstate : Type :=
| START_RECORD
| START_FIELD
| IN_FIELD
| IN_QUOTED_FIELD
| QUOTE_IN_QUOTED_FIELD
| EAT_CRNL.

Record reader : Type := {
  state : pstate;
  field : string;
  fields : list string
}.

Definition parse_reset : reader :=
  {| state := START_RECORD; field := EmptyString; fields := [] |}.

Definition goto (st : pstate) (r : reader) : reader :=
  {| state := st; field := field r; fields := fields r |}.

Definition parse_save_field (r : reader) : reader :=
  {| state := state r; field := EmptyString; fields := fields r ++ [field r] |}.

(** A field that has reached [csv.field_size_limit()] takes no more. *)
Definition field_full (r : reader) : bool :=
  (Limits.FIELD_SIZE_LIMIT <=? Limits.text_length (field r))%Z.

Definition parse_add_char (c : ascii) (r : reader) : res reader :=
  if field_full r then Raise (CsvError "field larger than field limit (131072)")
  else Ret {| state := state r; field := field r +:+ String c EmptyString;
              fields := fields r |}.

Definition is_nl (c : ascii) : bool := Ascii.eqb c LF || Ascii.eqb c CR.

(** The case [START_FIELD] of [parse_process_char]; [None] is the end-of-line
    signal that follows the characters of every line. *)
Definition start_field (c : option ascii) (r : reader) : res reader :=
  match c with
  | None => Ret (goto START_RECORD (parse_save_field r))
  | Some ch =>
      if is_nl ch then Ret (goto EAT_CRNL (parse_save_field r))
      else if Ascii.eqb ch DQUOTE then Ret (goto IN_QUOTED_FIELD r)
      else if Ascii.eqb ch COMMA then Ret (parse_save_field r)
      else r ← parse_add_char ch r; Ret (goto IN_FIELD r)
  end.

Definition parse_process_char (c : option ascii) (r : reader) : res reader :=
  match state r with
  | START_RECORD =>
      match c with
      | None => Ret r
      | Some ch =>
          if is_nl ch then Ret (goto EAT_CRNL r)
          else start_field c (goto START_FIELD r)
      end
  | START_FIELD => start_field c r
  | IN_FIELD =>
      match c with
      | None => Ret (goto START_RECORD (parse_save_field r))
      | Some ch =>
          if is_nl ch then Ret (goto EAT_CRNL (parse_save_field r))
          else if Ascii.eqb ch COMMA then Ret (goto START_FIELD (parse_save_field r))
          else parse_add_char ch r
      end
  | IN_QUOTED_FIELD =>
      match c with
      | None => Ret r
      | Some ch =>
          if Ascii.eqb ch DQUOTE then Ret (goto QUOTE_IN_QUOTED_FIELD r)
          else parse_add_char ch r
      end
  | QUOTE_IN_QUOTED_FIELD =>
      match c with
      | None => Ret (goto START_RECORD (parse_save_field r))
      | Some ch =>
          if Ascii.eqb ch DQUOTE then r ← parse_add_char ch r; Ret (goto IN_QUOTED_FIELD r)
          else if Ascii.eqb ch COMMA then Ret (goto START_FIELD (parse_save_field r))
          else if is_nl ch then Ret (goto EAT_CRNL (parse_save_field r))
          else r ← parse_add_char ch r; Ret (goto IN_FIELD r)
      end
  | EAT_CRNL =>
      match c with
      | None => Ret (goto START_RECORD r)
      | Some ch =>
          if is_nl ch then Ret r
          else Raise (CsvError "new-line character seen in unquoted field")
      end
  end.

Definition is_start_record (st : pstate) : bool :=
  match st with START_RECORD => true | _ => false end.

Definition is_in_quoted_field (st : pstate) : bool :=
  match st with IN_QUOTED_FIELD => true | _ => false end.

(** The end of the input: a record cut short is still returned. *)
Definition end_of_input (r : reader) (records : list (list string)) : list (list string) :=
  if truthy (field r) || is_in_quoted_field (state r)
  then records ++ [fields (parse_save_field r)]
  else records.

(** After the end-of-line signal: a complete record is handed out and the
    reader is reset, otherwise the record goes on with the next line. *)
Definition end_of_line (r : reader) (records : list (list string))
    : reader * list (list string) :=
  if is_start_record (state r) then (parse_reset, records ++ [fields r])
  else (r, records).

(** All the records of a text: the reader takes the text line by line, each
    line up to and including its line feed, and gives the end-of-line
    signal after every line.  [midline] tells that characters have been read
    since the last line feed. *)
Fixpoint read_records (s : string) (midline : bool) (r : reader)
    (records : list (list string)) : res (list (list string)) :=
  match s with
  | EmptyString =>
      if midline then
        r ← parse_process_char None r;
        let '(r, records) := end_of_line r records in
        Ret (end_of_input r records)
      else Ret (end_of_input r records)
  | String c s' =>
      r ← parse_process_char (Some c) r;
      if Ascii.eqb c LF then
        r ← parse_process_char None r;
        let '(r, records) := end_of_line r records in
        read_records s' false r records
      else read_records s' true r records
  end.

(** [list(csv.reader(f))] for the text of [f]. *)
Definition reader_rows (text : string) : res (list (list string)) :=
  read_records text false parse_reset [].

(** *** DictReader *)

(** The dictionaries have text keys and the key [None] of the surplus
    cells; their values are Python objects. *)
Definition zip_row (fieldnames row : list string) : gmap (option string) Json.pyobj :=
  fold_left (fun d kv => <[Some (fst kv) := Json.PyStr (snd kv)]> d)
            (combine fieldnames row) ∅.

Definition dict_row (fieldnames row : list string) : gmap (option string) Json.pyobj :=
  let d := zip_row fieldnames row in
  let lf := length fieldnames in
  let lr := length row in
  if (lf <? lr)%nat then
    <[None := Json.PyList (map Json.PyStr (skipn lf row))]> d
  else
    fold_left (fun d k => <[Some k := Json.PyNone]> d) (skipn lr fieldnames) d.

Definition is_nil {A} (l : list A) : bool :=
  match l with [] => true | _ => false end.

(** [list(csv.DictReader(f))]: the first record names the fields, empty
    records are skipped. *)
Definition dict_reader_rows (text : string)
    : res (list (gmap (option string) Json.pyobj)) :=
  records ← reader_rows text;
  match records with
  | [] => Ret []
  | fieldnames :: rows =>
      Ret (map (dict_row fieldnames) (filter (fun row => is_nil row = false) rows))
  end.

(** The text of the cells of one record, as the reader receives it. *)
Definition record_text (cells : list string) : string :=
  Json.join "," (map write_field cells) +:+ String LF EmptyString.

Definition mk (st : pstate) (fld : string) (flds : list string) : reader :=
  {| state := st; field := fld; fields := flds |}.

(** A cell as the reader receives it: no carriage return is left in it, and
    it is within the field limit. *)
Definition readable_cell (g : string) : Prop :=
  forallb_str not_CR g = true /\ Limits.fits_field g.

(** The states in which the reader can stand behind the text of a field:
    after a closing quote, in an unquoted field, or still at the start of
    the field when nothing was written for it. *)
Definition behind_field (st : pstate) (g : string) : Prop :=
  st = QUOTE_IN_QUOTED_FIELD \/ st = IN_FIELD \/
  ((st = START_FIELD \/ st = START_RECORD) /\ g = EmptyString).

End Csv.

(** ** data/csv_handler.py *)

Module CSVHandler.
Import PyStr PyNum PyFloat OS Json Models.

Definition fieldnames : list string :=
  [ "Client Name"; "Phone"; "Address"; "Delivery Fee"; "Product(s)";
    "Total Price"; "Status"; "Agent"; "Notes"; "OrderLinesJSON" ].

(** [order.to_dict()] *)
Definition to_dict (o : Order) : list (string * pyobj) :=
  [ ("Client Name", PyStr (client_name o));
    ("Phone", PyStr (phone o));
    ("Address", PyStr (address o));
    ("Delivery Fee", match delivery_fee o with Some x => PyFloat x | None => PyNone end);
    ("Product(s)", PyStr (products o));
    ("Total Price", PyFloat (total_price o));
    ("Status", PyStr (status o));
    ("Agent", PyStr (agent o));
    ("Notes", PyStr (notes o)) ].

(** One entry of [order_lines_data]. *)
Definition line_data (line : OrderLine) : pyobj :=
  PyDict [ ("product_code", PyStr (product_code line));
           ("quantity", PyInt (quantity line));
           ("unit_price", PyFloat (unit_price line));
           ("line_total", PyFloat (line_total line)) ].

Fixpoint dict_get (k : string) (d : list (string * pyobj)) : option pyobj :=
  match d with
  | [] => None
  | (k', v) :: d' => if String.eqb k k' then Some v else dict_get k d'
  end.

(** Truth value of an object, as [if] and [and] test it. *)
Definition py_truthy (o : pyobj) : bool :=
  match o with
  | PyNone => false
  | PyBool b => b
  | PyInt n => negb (n =? 0)%Z
  | PyFloat x => nonzero x
  | PyStr s => truthy s
  | PyList l => negb (Csv.is_nil l)
  | PyDict d => negb (Csv.is_nil d)
  end.

Section Handler.
Variable float_repr : Q -> string.
Variable float_of_str : string -> option Q.

(** The text the csv writer puts in a cell: text as it is, nothing for
    [None], [str] of a number. *)
Definition cell_text (o : pyobj) : string :=
  match o with
  | PyStr s => s
  | PyNone => EmptyString
  | PyInt n => str_of_int n
  | PyFloat x => repr float_repr x
  | other => dumps float_repr other
  end.

(** [DictWriter._dict_to_list]: a key outside the field names is refused. *)
Definition dict_to_list (row : list (string * pyobj)) : res (list string) :=
  if forallb (fun kv => existsb (String.eqb (fst kv)) fieldnames) row
  then Ret (map (fun k => cell_text (default (PyStr EmptyString) (dict_get k row)))
                fieldnames)
  else Raise (ValueError "dict contains fields not in fieldnames").

(** The row of one order, with its order lines as JSON. *)
Definition order_row (order : Order) : list (string * pyobj) :=
  let row := to_dict order in
  match order_lines order with
  | _ :: _ =>
      dict_set "OrderLinesJSON"
        (PyStr (dumps float_repr (PyList (map line_data (order_lines order))))) row
  | [] => dict_set "OrderLinesJSON" (PyStr EmptyString) row
  end.

(** The rows written before the first failure, and that failure. *)
Fixpoint export_rows (orders : list Order) : string * option exn :=
  match orders with
  | [] => (EmptyString, None)
  | order :: rest =>
      match dict_to_list (order_row order) with
      | Raise e => (EmptyString, Some e)
      | Ret cells =>
          let '(text, failure) := export_rows rest in
          (Csv.writerow cells +:+ text, failure)
      end
  end.

(** [export_orders(orders, path)]: the result of the call and the world
    after it; the file is opened with [newline=''], so the text is
    written as it is. *)
Definition export_orders (orders : list Order) (path : string) (w : world)
    : res unit * world :=
  let report e w := (Raise e, print ("Error exporting orders: " +:+ exn_str e) w) in
  let '(text, failure) := export_rows orders in
  match write_text path (Csv.writerow fieldnames +:+ text) w with
  | Raise e => report e w
  | Ret w' =>
      match failure with
      | Some e => report e w'
      | None => (Ret tt, w')
      end
  end.

(** [json.loads(o)] for an object taken from a row. *)
Definition loads_obj (o : pyobj) : res pyobj :=
  match o with
  | PyStr s => loads float_of_str s
  | _ => Raise (TypeError "the JSON object must be str, bytes or bytearray")
  end.

(** The body of [for row in reader:]. *)
Definition add_order_lines (row : gmap (option string) pyobj)
    : res (gmap (option string) pyobj) :=
  let set v := <[Some "order_lines" := v]> row in
  match row !! Some "OrderLinesJSON" with
  | Some cell =>
      if py_truthy cell then
        match loads_obj cell with
        | Ret obj => Ret (set obj)
        | Raise (JSONDecodeError _) => Ret (set (PyList []))
        | Raise e => Raise e
        end
      else Ret (set (PyList []))
  | None => Ret (set (PyList []))
  end.

Fixpoint add_all (rows : list (gmap (option string) pyobj))
    : res (list (gmap (option string) pyobj)) :=
  match rows with
  | [] => Ret []
  | row :: rest =>
      row' ← add_order_lines row;
      rest' ← add_all rest;
      Ret (row' :: rest')
  end.

(** [import_orders(path)]: every exception is printed and raised again. *)
Definition import_orders (path : string) (w : world)
    : res (list (gmap (option string) pyobj)) * world :=
  match (text ← read_text path w;
         rows ← Csv.dict_reader_rows text;
         add_all rows) with
  | Ret orders => (Ret orders, w)
  | Raise e => (Raise e, print ("Error importing orders: " +:+ exn_str e) w)
  end.

(** An order line that [dumps] writes and [loads] reads: its quantity is
    within the digit limit of [int] and its floats survive [repr] and
    [float]. *)
Definition line_ok (l : OrderLine) : Prop :=
  Limits.convertible (quantity l) /\
  float_ok float_repr float_of_str (unit_price l) /\
  float_ok float_repr float_of_str (line_total l).

(** The text of the order lines of an order, and the ten cells of its row. *)
Definition lines_cell (o : Order) : string :=
  match order_lines o with
  | _ :: _ => dumps float_repr (PyList (map line_data (order_lines o)))
  | [] => EmptyString
  end.

Definition order_cells (o : Order) : list string :=
  [ client_name o; phone o; address o;
    match delivery_fee o with Some x => repr float_repr x | None => EmptyString end;
    products o; repr float_repr (total_price o); status o; agent o; notes o;
    lines_cell o ].

(** An order whose ten cells are within the field limit of the reader. *)
Definition cells_fit (o : Order) : Prop := Forall Limits.fits_field (order_cells o).

(** What an import finds for an exported order. *)
Definition imported_lines (o : Order) : pyobj := PyList (map line_data (order_lines o)).

(** The text that [export_orders] writes. *)
Definition exported_text (orders : list Order) : string :=
  Csv.writerow fieldnames +:+
  fold_right (fun o acc => Csv.writerow (order_cells o) +:+ acc) EmptyString orders.

(** The row that the reader finds for an exported order. *)
Definition exported_row (o : Order) : gmap (option string) pyobj :=
  Csv.dict_row fieldnames (map universal_newlines (order_cells o)).

(** The world after a successful export. *)
Definition after_export (orders : list Order) (path : string) (w : world) : world :=
  {| files := <[path := exported_text orders]> (files w); read_fault := read_fault w;
     write_fault := write_fault w; console := console w |}.

End Handler.

End CSVHandler.

(** ** data/products_loader.py: the catalog file *)

Module ProductsLoader.
Import PyStr OS.

Definition save_products_example (w : world) : world :=
  let text :=
    Csv.writerow ["Code"; "Name"; "Price"; "Unit"] +:+
    fold_right (fun row acc => Csv.writerow row +:+ acc) EmptyString Config.SAMPLE_PRODUCTS in
  match write_text Config.PRODUCTS_FILE text w with
  | Ret w' => w'
  | Raise e => print ("Error creating sample products file: " +:+ exn_str e) w
  end.

(** The first step of [load_products]: a missing file is created. *)
Definition ensure_products_file (w : world) : world :=
  if negb (path_exists Config.PRODUCTS_FILE w) then save_products_example w else w.

Definition is_header_cell (cell : string) : bool :=
  existsb (String.eqb (lower cell)) ["code"; "product"; "sku"].

Section Loader.
Variable float_of_str : string -> option Q.

(** The body of [for row in data_rows:]. *)
Definition add_product (products : gmap string Q) (row : list string) : gmap string Q :=
  if (length row <? 3)%nat then products
  else
    let code := upper (strip (nth 0 row EmptyString)) in
    match float_of_str (strip (nth 2 row EmptyString)) with
    | Some price => <[code := price]> products
    | None => products
    end.

Definition products_of_rows (rows : list (list string)) : gmap string Q :=
  match rows with
  | [] => ∅
  | first_row :: rest =>
      let has_header :=
        match first_row with
        | cell :: _ => is_header_cell cell
        | [] => false
        end in
      let data_rows := if has_header then rest else rows in
      fold_left add_product data_rows ∅
  end.

Definition is_file_not_found (e : exn) : bool :=
  match e with FileNotFoundError _ => true | _ => false end.

Definition load_products (w : world) : gmap string Q * world :=
  let w := ensure_products_file w in
  match (text ← read_text Config.PRODUCTS_FILE w; Csv.reader_rows text) with
  | Ret rows => (products_of_rows rows, w)
  | Raise e =>
      if is_file_not_found e then (∅, w)
      else (∅, print ("Error loading products: " +:+ exn_str e) w)
  end.

End Loader.

End ProductsLoader.

(** ** A stand-in for [float] and [repr] on plain decimals

    Enough of the two built-ins to run the examples: [repr] of a whole
    number, and [float] of an optional sign, digits and an optional
    fraction. *)

Module Demo.
Import PyStr PyNum.

Definition float_repr (x : Q) : string :=
  str_of_int (Qnum x / Zpos (Qden x)) +:+ ".0".

Definition float_of_str (s : string) : option Q :=
  let t := strip s in
  let '(neg, body) :=
    match t with
    | String "-" b => (true, b)
    | String "+" b => (false, b)
    | _ => (false, t)
    end in
  let '(whole, rest) := Json.span isdigit_char body in
  let value (frac : string) : option Q :=
    if truthy (whole +:+ frac) then
      let v := Qred (digits_value 0 (whole +:+ frac) # Pos.pow 10 (Pos.of_nat (String.length frac)))
      in Some (if neg then Qopp v else v)
    else None in
  match rest with
  | EmptyString => if truthy whole then Some (inject_Z (if neg then - digits_value 0 whole else digits_value 0 whole)) else None
  | String "." frac => if forallb_str isdigit_char frac then value frac else None
  | _ => None
  end.

(** [float] with the special values, on the same texts and on the
    spellings of [nan] and of the infinities. *)
Definition float_of_text (s : string) : option PyFloat.pyfloat :=
  let t := lower (strip s) in
  let unsigned := match t with String "+" r => r | String "-" r => r | _ => t end in
  if String.eqb unsigned "nan" then Some PyFloat.NaN
  else if String.eqb unsigned "inf" || String.eqb unsigned "infinity"
  then Some (PyFloat.Inf (startswith t "-"))
  else option_map PyFloat.Finite (float_of_str s).

(** The product of two floats, on finite ones whose product is a float. *)
Definition float_mul (x y : PyFloat.pyfloat) : PyFloat.pyfloat :=
  match x, y with
  | PyFloat.Finite a, PyFloat.Finite b => PyFloat.Finite (Qred (a * b))
  | _, _ => PyFloat.NaN
  end.

End Demo.

(** A world in which the orders file exists and cannot be read. *)
Definition unreadable_world : OS.world :=
  {| OS.files := <["orders.csv" := "Client Name"]> ∅;
     OS.read_fault := <["orders.csv" := PermissionError "orders.csv"]> ∅;
     OS.write_fault := ∅; OS.console := [] |}.

(** Two orders: one whose client name holds a comma and whose address holds
    a line break, with one order line; one with no fee and no order lines. *)
Definition demo_orders : list Models.Order :=
  [ {| Models.client_name := "Rabe, Jean"; Models.phone := "034 12 345 67";
       Models.address := "Lot 12" +:+ OS.line_terminator_example;
       Models.delivery_fee := Some (PyFloat.Finite 3000); Models.products := "CA x 2";
       Models.total_price := PyFloat.Finite 53000; Models.status := "Pending";
       Models.agent := "Hery"; Models.notes := "";
       Models.order_lines :=
         [ {| Models.product_code := "CA"; Models.quantity := 2;
              Models.unit_price := PyFloat.Finite 25000;
              Models.line_total := PyFloat.Finite 50000 |} ] |};
    {| Models.client_name := "Soa"; Models.phone := ""; Models.address := "";
       Models.delivery_fee := None; Models.products := "";
       Models.total_price := PyFloat.Finite 0; Models.status := "Ok";
       Models.agent := ""; Models.notes := "n"; Models.order_lines := [] |} ].

(** A text of 2^17 + 1 = 131073 letters, one more than the csv reader takes
    in a field, and an order with that client name. *)
Fixpoint doubled (n : nat) (s : string) : string :=
  match n with
  | O => s
  | S n' => doubled n' (s +:+ s)
  end.

Definition long_text : string := String "a" (doubled 17 "a").

Definition long_name_order : Models.Order :=
  {| Models.client_name := long_text; Models.phone := "034 12 345 67";
     Models.address := "Lot 12"; Models.delivery_fee := Some (PyFloat.Finite 3000);
     Models.products := ""; Models.total_price := PyFloat.Finite 3000;
     Models.status := "Pending"; Models.agent := "Hery"; Models.notes := "";
     Models.order_lines := [] |}.

(** The order that [_convert_rows_to_orders] builds for a row whose fee
    cell reads nan. *)
Definition nan_fee_order : Models.Order :=
  {| Models.client_name := "Soa"; Models.phone := "034 12 345 67";
     Models.address := "Lot 12"; Models.delivery_fee := Some PyFloat.NaN;
     Models.products := ""; Models.total_price := PyFloat.Finite 0;
     Models.status := "Pending"; Models.agent := "Hery"; Models.notes := "";
     Models.order_lines := [] |}.

(** ** utils/parsers.py: the tokens on which [int] is reached with a text
    it refuses *)

Module ParserTokens.
Import PyStr Parsers.

(** A token that the pattern does not match (it starts with neither a
    letter nor a digit), made of two words, the second being two or more
    dashes followed by digits. *)
Definition raising_token (item : string) : Prop :=
  starts_alnum item = false /\
  exists a b, words (strip item) = [a; b] /\
    isdigit (lstrip_by (Ascii.eqb "-") b) = true /\ startswith b "--" = true.

Definition upper_case (s : string) : Prop := upper s = s.

End ParserTokens.

(** ** utils/formatters.py: [capitalize_name] *)

Module Capitalize.
Import PyStr.

(** [word.capitalize()]: the first character in upper case, the others in
    lower case. *)
Definition capitalize (s : string) : string :=
  match s with
  | EmptyString => EmptyString
  | String c r => String (upper_char c) (lower r)
  end.

(** [" ".join(word.capitalize() for word in name.split())] *)
Definition capitalize_name (name : string) : string :=
  Json.join " " (map capitalize (words name)).

(** A word as [split()] gives it: not empty, without white space. *)
Definition is_word (w : string) : Prop :=
  w <> EmptyString /\ forallb_str not_space w = true.

End Capitalize.

(** ** validators/validators.py: the delivery fee *)

Module DeliveryFee.
Import PyStr PyFloat Formatters.

(** The test [fee is None or fee == ""]. *)
Definition is_none_or_empty (fee : pyval) : bool :=
  match fee with
  | VNone => true
  | VStr s => is_empty s
  | VInt _ | VFloat _ => false
  end.

Section WithFloat.
Variable float_of_text : string -> option pyfloat.

(** The [except] names [ValueError] and [TypeError]: the [OverflowError] of
    an [int] beyond the floats leaves the function. *)
Definition validate_delivery_fee (fee : pyval) : res (bool * string) :=
  if is_none_or_empty fee then Ret (false, "Delivery fee is required")
  else
    catch
      (fee_value ← float_of_value float_of_text fee;
       if lt_zero fee_value then Ret (false, "Delivery fee cannot be negative")
       else Ret (true, "OK"))
      is_value_or_type_error
      (fun _ => Ret (false, "Delivery fee must be a valid number")).

End WithFloat.

(** A float that is not below zero: a finite one from zero on, the positive
    infinity, and also [nan], which is below nothing. *)
Definition not_below_zero (x : pyfloat) : Prop :=
  match x with
  | Finite q => (0 <= q)%Q
  | NaN => True
  | Inf negative => negative = false
  end.

End DeliveryFee.

(** ** data/addresses_manager.py: clearing the history, and a series of
    saves *)

Module AddressHistory.
Import PyStr OS AddressManager.

(** [os.remove(path)]: the file must exist.  Whether a file can be removed
    is a matter of its directory, not of the file: [refused] holds, for
    each path whose removal the system refuses, the exception it raises. *)
Definition remove_file (refused : gmap string exn) (path : string) (w : world)
    : res world :=
  match files w !! path with
  | None => Raise (FileNotFoundError path)
  | Some _ =>
      match refused !! path with
      | Some e => Raise e
      | None =>
          Ret {| files := delete path (files w); read_fault := read_fault w;
                 write_fault := write_fault w; console := console w |}
      end
  end.

Section Manager.
(** The removals that the system refuses. *)
Variable refused : gmap string exn.
(** [self.addresses_file] *)
Variable addresses_file : string.

Definition clear_history (w : world) : world :=
  if path_exists addresses_file w then
    match remove_file refused addresses_file w with
    | Ret w' => w'
    | Raise e => print ("Error clearing address history: " +:+ exn_str e) w
    end
  else w.

(** One call of [save_address] after the other, as the edits of the
    address column make them. *)
Definition save_addresses (addresses : list string) (w : world) : world :=
  fold_left (fun w a => save_address addresses_file a w) addresses w.

End Manager.

End AddressHistory.

(** ** data/agents_manager.py: what [save_agents] keeps *)

Module AgentNames.
Import PyStr.

(** The names that [save_agents] writes: the non-blank ones, trimmed. *)
Definition kept_names (names : list string) : list string :=
  map strip (filter (fun a => truthy (strip a) = true) names).

End AgentNames.

(** ** data/products_loader.py: the rows that count *)

Module CatalogRows.
Import PyStr ProductsLoader.

(** The rows after the header, when the first row is one. *)
Definition data_rows (rows : list (list string)) : list (list string) :=
  match rows with
  | (cell :: cells) :: rest => if is_header_cell cell then rest else rows
  | _ => rows
  end.

Section Loader.
Variable float_of_str : string -> option Q.

(** The code and the price of a row that has at least three cells and a
    price that [float] reads. *)
Definition row_product (row : list string) : option (string * Q) :=
  if (length row <? 3)%nat then None
  else
    match float_of_str (strip (nth 2 row EmptyString)) with
    | Some price => Some (upper (strip (nth 0 row EmptyString)), price)
    | None => None
    end.

(** The price of the last row of a list for a code. *)
Fixpoint last_price (code : string) (rows : list (list string)) : option Q :=
  match rows with
  | [] => None
  | row :: rest =>
      match last_price code rest with
      | Some price => Some price
      | None =>
          match row_product row with
          | Some (c, price) => if String.eqb c code then Some price else None
          | None => None
          end
      end
  end.

End Loader.

(** The text of the sample file, and its catalog. *)
Definition sample_text : string :=
  Csv.writerow ["Code"; "Name"; "Price"; "Unit"] +:+
  fold_right (fun row acc => Csv.writerow row +:+ acc) EmptyString Config.SAMPLE_PRODUCTS.


Definition sample_catalog : gmap string Q :=
  <["G" := 10000%Q]> (<["BS" := 50%Q]> (<["SG" := 15000%Q]> (<["CG" := 25000%Q]>
    (<["TA" := 25000%Q]> (<["CA" := 25000%Q]> ∅))))).

End CatalogRows.

(** ** utils/parsers.py: the formats of the docstring *)

Module Spellings.
Import PyStr PyNum Parsers.

(** The ways the docstring of [parse_product_field] writes a product:
    the code alone, code x quantity, code:quantity, code and quantity. *)
Inductive spelling : Type := Bare | Times | Colon | Spaced.

Record item : Type := { how : spelling; item_code : string; item_qty : Z }.

Definition spell (i : item) : string :=
  match how i with
  | Bare => item_code i
  | Times => item_code i +:+ " x " +:+ str_of_int (item_qty i)
  | Colon => item_code i +:+ ":" +:+ str_of_int (item_qty i)
  | Spaced => item_code i +:+ " " +:+ str_of_int (item_qty i)
  end.

(** The entry a spelled product stands for: without quantity it is one. *)
Definition spelled_entry (i : item) : entry :=
  {| code := upper (item_code i);
     qty := match how i with Bare => 1 | _ => item_qty i end |}.

(** A code: letters and digits, at least one. *)
Definition code_ok (i : item) : Prop :=
  item_code i <> EmptyString /\ forallb_str isalnum_char (item_code i) = true.

(** What follows a run: nothing, or a character outside the class. *)
Definition stops (p : ascii -> bool) (s : string) : Prop :=
  match s with
  | EmptyString => True
  | String c _ => p c = false
  end.

End Spellings.

(** ** ui/table.py: the colour of a row *)

Module OrderTable.
Import PyStr PyFloat Validators Formatters DeliveryFee.

(** The keys of [Config.STATUS_COLORS] and [Config.COLUMNS]. *)
Definition STATUS_COLORS_keys : list string :=
  ["Pending"; "Ok"; "Ok with retour"; "Cancelled"; "Reported"].

Definition COLUMNS : list string :=
  [ "Client Name"; "Phone"; "Address"; "Delivery Fee"; "Product(s)";
    "Total Price"; "Status"; "Agent"; "Notes" ].

(** [dict(zip(columns, values))]: a later column of the same name wins. *)
Definition zip_dict (columns values : list string) : gmap string string :=
  fold_left (fun d kv => <[fst kv := snd kv]> d) (combine columns values) ∅.

Section Table.
Variable float_of_text : string -> option pyfloat.
(** [self.columns] *)
Variable columns : list string.

(** [_update_row_color(item, values)]: the tags it gives to the item. *)
Definition _update_row_color (values : list string) : res (list string) :=
  let row_data := zip_dict columns values in
  let is_valid := true in
  let is_valid :=
    match row_data !! "Phone" with
    | Some phone => is_valid && fst (validate_phone phone)
    | None => is_valid
    end in
  let is_valid :=
    match row_data !! "Address" with
    | Some address => is_valid && fst (validate_address address)
    | None => is_valid
    end in
  is_valid ←
    match row_data !! "Delivery Fee" with
    | Some fee =>
        r ← validate_delivery_fee float_of_text (VStr fee);
        Ret (is_valid && fst r)
    | None => Ret is_valid
    end;
  Ret (if negb is_valid then ["invalid"]
       else
         match row_data !! "Status" with
         | Some status =>
             if existsb (String.eqb status) STATUS_COLORS_keys
             then ["status_" +:+ status]
             else []
         | None => []
         end).

End Table.

End OrderTable.

(** ** ui/main_window.py: from the rows of the table to orders *)

Module MainWindow.
Import PyStr PyFloat Formatters Parsers Models.

Definition is_value_error (e : exn) : bool :=
  match e with
  | ValueError _ => true
  | _ => false
  end.

(** [row.get(key, default)] on a row of text cells. *)
Definition row_get (row : gmap string string) (key default : string) : string :=
  match row !! key with
  | Some s => s
  | None => default
  end.

Section App.
(** The built-in [float] on text, with the special values it reads. *)
Variable float_of_text : string -> option pyfloat.
(** The product of two floats. *)
Variable float_mul : pyfloat -> pyfloat -> pyfloat.
(** [self.products] *)
Variable products : gmap string Q.

(** [float(row.get(key, 0) or 0)] *)
Definition cell_float (row : gmap string string) (key : string) : res pyfloat :=
  match row !! key with
  | Some s => if truthy s then float_of_string float_of_text s else Ret zero
  | None => Ret zero
  end.

(** [OrderLine(product_code=code, quantity=qty, unit_price=price)], with
    the product [self.quantity * self.unit_price] of [__post_init__]: the
    [int] is converted to a float first, which fails beyond the range of
    the floats. *)
Definition new_order_line (code : string) (qty : Z) (price : pyfloat) : res OrderLine :=
  quantity_as_float ← of_int qty;
  Ret {| product_code := code; quantity := qty; unit_price := price;
         line_total := float_mul quantity_as_float price |}.

(** [self.products.get(code, 0.0)] *)
Definition price_of (code : string) : pyfloat := Finite (default 0%Q (products !! code)).

(** The loop [for product in parsed_products:]. *)
Fixpoint new_order_lines (parsed_products : list entry) : res (list OrderLine) :=
  match parsed_products with
  | [] => Ret []
  | product :: rest =>
      order_line ← new_order_line (code product) (qty product) (price_of (code product));
      order_lines ← new_order_lines rest;
      Ret (order_line :: order_lines)
  end.

(** The body of [for row in rows:]. *)
Definition convert_row (row : gmap string string) : res Order :=
  numbers ←
    catch (delivery_fee ← cell_float row "Delivery Fee";
           total_price ← cell_float row "Total Price";
           Ret (delivery_fee, total_price))
          is_value_error
          (fun _ => Ret (zero, zero));
  let product_text := row_get row "Product(s)" "" in
  parsed_products ← parse_product_field product_text;
  order_lines ← new_order_lines parsed_products;
  Ret {| client_name := row_get row "Client Name" "";
         phone := row_get row "Phone" "";
         address := row_get row "Address" "";
         delivery_fee := Some (fst numbers);
         Models.products := product_text;
         total_price := snd numbers;
         status := row_get row "Status" Config.DEFAULT_STATUS;
         agent := row_get row "Agent" "";
         notes := row_get row "Notes" "";
         order_lines := order_lines |}.

Fixpoint _convert_rows_to_orders (rows : list (gmap string string)) : res (list Order) :=
  match rows with
  | [] => Ret []
  | row :: rest =>
      order ← convert_row row;
      orders ← _convert_rows_to_orders rest;
      Ret (order :: orders)
  end.

End App.

End MainWindow.

(** * Properties *)

Example strip_ex : PyStr.strip "  a b " = "a b".
Proof. reflexivity. Qed.

Example split_ex : PyStr.split_on (Ascii.eqb "/") "a//b/" = ["a"; ""; "b"; ""].
Proof. reflexivity. Qed.

Example words_ex : PyStr.words " ab  c " = ["ab"; "c"].
Proof. reflexivity. Qed.

Example replace_ex : PyStr.replace "Ar" "" "25ArAAr0" = "25A0".
Proof. reflexivity. Qed.

Example int_ex : PyStr.int_of_str " -1_000 " = Ret (-1000)%Z.
Proof. reflexivity. Qed.

Example int_ex_bad : PyStr.int_of_str "--5" =
  Raise (ValueError "invalid literal for int() with base 10: --5").
Proof. reflexivity. Qed.

(** ** Facts about the string methods *)

Module PyStrFacts.
Import PyStr.

Lemma truthy_length s : truthy s = true <-> (0 < String.length s)%nat.
Proof. destruct s; simpl; split; intros; try lia; try discriminate; auto. Qed.

Lemma startswith_one c s :
  startswith s (String c EmptyString) =
  match s with String d _ => Ascii.eqb c d | EmptyString => false end.
Proof. destruct s as [|d s]; simpl; [reflexivity|]. destruct (Ascii.eqb c d); reflexivity. Qed.

(** Replacing a single character by nothing keeps the other characters. *)
Lemma replace_char_filter c s :
  replace (String c EmptyString) "" s = filter_str (fun d => negb (Ascii.eqb c d)) s.
Proof.
  unfold replace. induction s as [|d s IH]; simpl; [reflexivity|].
  destruct (Ascii.eqb c d); simpl; rewrite IH; reflexivity.
Qed.

Lemma filter_str_filter p q s :
  filter_str p (filter_str q s) = filter_str (fun c => q c && p c) s.
Proof.
  induction s as [|c s IH]; simpl; [reflexivity|].
  destruct (q c); simpl; [destruct (p c); simpl|]; rewrite IH; reflexivity.
Qed.

Lemma filter_str_ext p q s :
  (forall c, p c = q c) -> filter_str p s = filter_str q s.
Proof.
  intros E. induction s as [|c s IH]; simpl; [reflexivity|].
  rewrite E, IH. reflexivity.
Qed.

Lemma forallb_str_filter_keep p s :
  forallb_str p s = true -> filter_str p s = s.
Proof.
  induction s as [|c s IH]; simpl; [reflexivity|].
  intros H. apply andb_true_iff in H as [Hc Hs]. rewrite Hc, IH; auto.
Qed.

(** The comprehension [[p.strip() for p in pieces if p.strip()]] keeps the
    non-empty trimmed pieces. *)
Lemma parts_as_rule (pieces : list string) :
  map strip (filter (fun p => truthy (strip p) = true) pieces) =
  filter (fun p => p <> EmptyString) (map strip pieces).
Proof.
  induction pieces as [|p ps IH]; [reflexivity|].
  rewrite filter_cons. cbn [map]. rewrite filter_cons.
  destruct (strip p) eqn:E; simpl;
    repeat case_decide; try congruence; try discriminate; try (exfalso; auto; fail).
  all: cbn [map]; rewrite ?E, ?IH; try reflexivity.
Qed.

End PyStrFacts.

Example validate_phone_two_numbers :
  Validators.validate_phone "034 12 345 67 / +261321234567" = (true, "OK").
Proof. reflexivity. Qed.

Example validate_phone_letters :
  Validators.validate_phone "abc" = (false, "Phone 'abc' contains invalid characters").
Proof. reflexivity. Qed.

Example validate_phone_short :
  fst (Validators.validate_phone "1234567") = false.
Proof. reflexivity. Qed.

Module ValidatorsFacts.
Import PyStr PyStrFacts Validators.

Lemma cleaned_as_rule (part : string) :
  replace ")" "" (replace "(" "" (replace "-" "" (replace " " "" part))) =
  without_punctuation part.
Proof.
  rewrite !replace_char_filter, !filter_str_filter.
  apply filter_str_ext. intros c. unfold punctuation.
  rewrite (Ascii.eqb_sym c " "), (Ascii.eqb_sym c "-"),
    (Ascii.eqb_sym c "("), (Ascii.eqb_sym c ")").
  destruct (Ascii.eqb " " c), (Ascii.eqb "-" c), (Ascii.eqb "(" c), (Ascii.eqb ")" c);
    reflexivity.
Qed.

Lemma digits_as_rule (cleaned : string) :
  (if startswith cleaned "+" then slice_from 1 cleaned else cleaned) =
  without_plus cleaned.
Proof.
  rewrite startswith_one. destruct cleaned as [|c r]; [reflexivity|].
  destruct (Ascii.eqb "+" c) eqn:E.
  - apply Ascii.eqb_eq in E. subst c. reflexivity.
  - simpl. destruct c as [[] [] [] [] [] [] [] []]; try reflexivity. discriminate.
Qed.

Lemma check_parts_true (parts : list string) :
  fst (check_parts parts) = true <-> Forall number_ok parts.
Proof.
  induction parts as [|p ps IH]; [simpl; split; auto|].
  - cbn [check_parts]. cbv zeta. rewrite cleaned_as_rule, digits_as_rule.
    set (d := without_plus (without_punctuation p)).
    assert (Hd : number_ok p <->
                 forallb_str isdigit_char d = true /\ (8 <= String.length d <= 15)%nat)
      by reflexivity.
    unfold isdigit.
    destruct (truthy d) eqn:Ht, (forallb_str isdigit_char d) eqn:Hf; simpl.
    + destruct (String.length d <? 8)%nat eqn:H8; simpl.
      * apply Nat.ltb_lt in H8. split; [discriminate|].
        intros H. inversion H as [|? ? Hp _]. apply Hd in Hp. lia.
      * apply Nat.ltb_ge in H8.
        destruct (15 <? String.length d)%nat eqn:H15; simpl.
        -- apply Nat.ltb_lt in H15. split; [discriminate|].
           intros H. inversion H as [|? ? Hp _]. apply Hd in Hp. lia.
        -- apply Nat.ltb_ge in H15. rewrite IH. split.
           ++ intros H. constructor; [apply Hd; auto|exact H].
           ++ intros H. inversion H; auto.
    + split; [discriminate|]. intros H. inversion H as [|? ? Hp _].
      apply Hd in Hp. destruct Hp; discriminate.
    + split; [discriminate|]. intros H. inversion H as [|? ? Hp _].
      apply Hd in Hp. destruct d; [simpl in Hp; lia|discriminate].
    + split; [discriminate|]. intros H. inversion H as [|? ? Hp _].
      apply Hd in Hp. destruct Hp; discriminate.
Qed.

Lemma check_parts_ok (parts : list string) :
  fst (check_parts parts) = true -> check_parts parts = (true, "OK").
Proof.
  induction parts as [|p ps IH]; [reflexivity|].
  cbn [check_parts]. cbv zeta.
  destruct (negb _); [discriminate|].
  destruct (_ || _); [discriminate|]. exact IH.
Qed.

Lemma phone_parts_empty : phone_parts "" = [].
Proof. reflexivity. Qed.

Lemma validate_phone_iff (phone : string) :
  fst (validate_phone phone) = true <-> phone_rule phone.
Proof.
  unfold validate_phone, phone_rule.
  destruct phone as [|c s]; simpl negb; cbv iota.
  - rewrite phone_parts_empty. split; [discriminate|]. intros [H _]. congruence.
  - rewrite parts_as_rule. fold (phone_parts (String c s)).
    destruct (phone_parts (String c s)) as [|p ps] eqn:E.
    + split; [discriminate|]. intros [H _]. congruence.
    + rewrite check_parts_true. split; [intros H; split; [discriminate|exact H]|tauto].
Qed.

(** C4.  [validate_phone] never raises (it is a total function to a pair);
    its flag is true exactly when the phone field has at least one non-blank
    part between slashes and every such part, without spaces, dashes,
    parentheses and one leading plus sign, is made of 8 to 15 digits;
    otherwise the flag is false; a success carries the message OK; the two
    phone fields of the specification are valid and invalid respectively. *)
Theorem validate_phone_spec :
  (forall phone : string,
     (fst (validate_phone phone) = true <-> phone_rule phone) /\
     (fst (validate_phone phone) = false <-> ~ phone_rule phone) /\
     (phone_rule phone <-> validate_phone phone = (true, "OK"))) /\
  fst (validate_phone "034 12 345 67 / +261321234567") = true /\
  fst (validate_phone "abc") = false.
Proof.
  split; [|split; reflexivity].
  intros phone. pose proof (validate_phone_iff phone) as H.
  split; [exact H|]. split.
  - rewrite <- H. destruct (fst (validate_phone phone)); split; congruence.
  - rewrite <- H. split.
    + unfold validate_phone. destruct (negb (truthy phone)); [discriminate|].
      destruct (map _ _) eqn:E; [discriminate|]. apply check_parts_ok.
    + intros ->. reflexivity.
Qed.

End ValidatorsFacts.

Example pattern_code_only : Parsers.PRODUCT_PATTERN_match "CG" = Some ("CG", None).
Proof. reflexivity. Qed.

Example pattern_x : Parsers.PRODUCT_PATTERN_match "CA x 2" = Some ("CA", Some "2").
Proof. reflexivity. Qed.

Example pattern_glued_x : Parsers.PRODUCT_PATTERN_match "CAx2" = Some ("CAx2", None).
Proof. reflexivity. Qed.

Example pattern_dangling_x : Parsers.PRODUCT_PATTERN_match "CA x" = Some ("CA", None).
Proof. reflexivity. Qed.

Example pattern_negative : Parsers.PRODUCT_PATTERN_match "ca:-3 boxes" = Some ("ca", Some "-3").
Proof. reflexivity. Qed.

Example pattern_no_match : Parsers.PRODUCT_PATTERN_match "# --5" = None.
Proof. reflexivity. Qed.

Example parse_two_products :
  Parsers.parse_product_field "CA x 2, TA:1" =
  Ret [ {| Parsers.code := "CA"; Parsers.qty := 2 |};
        {| Parsers.code := "TA"; Parsers.qty := 1 |} ].
Proof. reflexivity. Qed.

Example parse_bs_100 :
  Parsers.parse_product_field "BS 100" = Ret [ {| Parsers.code := "BS"; Parsers.qty := 100 |} ].
Proof. reflexivity. Qed.

Example parse_duplicates_and_returns :
  Parsers.parse_product_field "ca -2; ca; ;CA:4" =
  Ret [ {| Parsers.code := "CA"; Parsers.qty := -2 |};
        {| Parsers.code := "CA"; Parsers.qty := 1 |};
        {| Parsers.code := "CA"; Parsers.qty := 4 |} ].
Proof. reflexivity. Qed.

Example parse_fallback_code : 
  Parsers.parse_product_field "#a 7" = Ret [ {| Parsers.code := "#A"; Parsers.qty := 7 |} ].
Proof. reflexivity. Qed.

Example round_ties :
  map PyNum.round_half_even [1 # 2; 3 # 2; 5 # 2; 7 # 4; 5 # 4; 0]%Q = [0; 2; 2; 2; 1; 0]%Z.
Proof. reflexivity. Qed.

Example grouped_ex : PyNum.format_int_grouped 1234567 = "1,234,567".
Proof. reflexivity. Qed.

Example fixed2_ex : PyNum.format_fixed2_grouped (1000001 # 8) = "125,000.12".
Proof. reflexivity. Qed.

Example float_of_int_rounds :
  PyFloat.of_int (PyFloat.EXACT_INT_MAX + 1) = Ret (PyFloat.Finite (inject_Z PyFloat.EXACT_INT_MAX)) /\
  PyFloat.of_int (PyFloat.EXACT_INT_MAX + 3) =
    Ret (PyFloat.Finite (inject_Z (PyFloat.EXACT_INT_MAX + 4))) /\
  PyFloat.of_int (- (10 ^ 400)) = Raise (OverflowError "int too large to convert to float") /\
  PyFloat.of_int (2 ^ 1024 - 2 ^ 970 - 1) =
    Ret (PyFloat.Finite (inject_Z (2 ^ 1024 - 2 ^ 971))).
Proof. repeat split; vm_compute; reflexivity. Qed.

Example format_currency_25000 f r :
  Formatters.format_currency f r (Formatters.VInt 25000) = Ret "25 000 Ar".
Proof. reflexivity. Qed.

Example format_currency_negative f r :
  Formatters.format_currency f r (Formatters.VFloat (PyFloat.Finite (- (2001 # 2)))) =
  Ret "-1 000.50 Ar".
Proof. reflexivity. Qed.

Example format_currency_nearly_whole f r :
  Formatters.format_currency f r (Formatters.VFloat (PyFloat.Finite (16385 # 16384))) =
  Ret "1 Ar".
Proof. reflexivity. Qed.

Example format_currency_infinity f r :
  Formatters.format_currency f r (Formatters.VFloat (PyFloat.Inf true)) =
  Raise (OverflowError "cannot convert float infinity to integer").
Proof. reflexivity. Qed.

Example format_currency_beyond_2_53 f r :
  Formatters.format_currency f r (Formatters.VInt (PyFloat.EXACT_INT_MAX + 1)) =
  Ret "9 007 199 254 740 992 Ar".
Proof. vm_compute. reflexivity. Qed.

Example parse_numeric_plain f : Formatters.parse_numeric f "25000" true = Ret (Some (Formatters.PInt 25000)).
Proof. reflexivity. Qed.

Example parse_numeric_upper f : Formatters.parse_numeric f "25000 AR" true = Ret None.
Proof. reflexivity. Qed.

Module PyNumFacts.
Import PyStr PyStrFacts PyNum.

Lemma map_str_app f a b : map_str f (a +:+ b) = map_str f a +:+ map_str f b.
Proof. induction a as [|c a IH]; simpl; [reflexivity|]. rewrite IH. reflexivity. Qed.

Lemma map_str_length f s : String.length (map_str f s) = String.length s.
Proof. induction s as [|c s IH]; simpl; [reflexivity|]. rewrite IH. reflexivity. Qed.

Lemma map_str_id_on (p : ascii -> bool) f s :
  (forall c, p c = true -> f c = c) -> forallb_str p s = true -> map_str f s = s.
Proof.
  intros Hf. induction s as [|c s IH]; simpl; [reflexivity|].
  intros H. apply andb_true_iff in H as [Hc Hs]. rewrite (Hf _ Hc), IH; auto.
Qed.

(** Replacing one character by another is a character-wise map. *)
Lemma replace_char_map c d s :
  replace (String c EmptyString) (String d EmptyString) s =
  map_str (fun x => if Ascii.eqb c x then d else x) s.
Proof.
  unfold replace. induction s as [|x s IH]; simpl; [reflexivity|].
  destruct (Ascii.eqb c x); simpl; rewrite IH; reflexivity.
Qed.

Lemma group_thousands_map f sep ds :
  map_str f (group_thousands sep ds) = group_thousands (map_str f sep) (map_str f ds).
Proof.
  induction ds as [|c r IH]; [reflexivity|].
  cbn [group_thousands map_str]. rewrite map_str_length.
  destruct ((0 <? String.length r)%nat && (String.length r mod 3 =? 0)%nat);
    rewrite ?map_str_app, IH; reflexivity.
Qed.

Lemma uint_digits d : forallb_str isdigit_char (NilEmpty.string_of_uint d) = true.
Proof. induction d; simpl; auto. Qed.

Lemma str_of_int_digits n : (0 <= n)%Z -> forallb_str isdigit_char (str_of_int n) = true.
Proof.
  intros Hn. unfold str_of_int. destruct n as [|p|p]; try lia; simpl.
  - reflexivity.
  - destruct (Pos.to_uint p) eqn:E; try apply uint_digits. reflexivity.
Qed.

Lemma comma_to_space_digit c : isdigit_char c = true -> comma_to_space c = c.
Proof. destruct c as [[] [] [] [] [] [] [] []]; try discriminate; reflexivity. Qed.

Lemma spaces_for_commas_int n :
  (0 <= n)%Z ->
  replace "," " " (format_int_grouped n) = group_thousands " " (str_of_int n).
Proof.
  intros Hn. unfold format_int_grouped.
  destruct (n <? 0)%Z eqn:E; [apply Z.ltb_lt in E; lia|].
  rewrite replace_char_map. fold comma_to_space. rewrite group_thousands_map.
  rewrite (map_str_id_on isdigit_char comma_to_space (str_of_int n));
    [reflexivity | apply comma_to_space_digit | apply str_of_int_digits; exact Hn].
Qed.

Lemma two_digits_digits n : (0 <= n)%Z -> forallb_str isdigit_char (two_digits n) = true.
Proof.
  intros Hn. unfold two_digits. pose proof (str_of_int_digits n Hn) as H.
  destruct (n <? 10)%Z; [|exact H].
  change ("0" +:+ str_of_int n) with (String "0" (str_of_int n)).
  cbn [forallb_str]. rewrite H. reflexivity.
Qed.

Lemma two_digits_length n : (0 <= n < 100)%Z -> String.length (two_digits n) = 2%nat.
Proof.
  intros Hn.
  assert (H : forall k, (k < 100)%nat -> String.length (two_digits (Z.of_nat k)) = 2%nat).
  { intros k Hk. do 100 (destruct k as [|k]; [reflexivity|]). lia. }
  rewrite <- (Z2Nat.id n) by lia. apply H. lia.
Qed.

Lemma Qabs_not_negative x : (if Qlt_le_dec (Qabs x) 0 then "-" else "") = "".
Proof.
  destruct (Qlt_le_dec (Qabs x) 0) as [H|H]; [|reflexivity].
  exfalso. apply (Qlt_not_le _ _ H), Qabs_nonneg.
Qed.

Lemma round_half_even_Z n : round_half_even (inject_Z n) = n.
Proof.
  unfold round_half_even. rewrite Qfloor_Z.
  replace ((inject_Z n - inject_Z n ?= 1 # 2)%Q) with Lt; [reflexivity|].
  symmetry. apply (proj1 (Qlt_alt _ _)).
  assert (E : (inject_Z n - inject_Z n == 0)%Q) by ring.
  rewrite E. reflexivity.
Qed.

End PyNumFacts.

Module FormattersFacts.
Import PyStr PyStrFacts PyNum PyNumFacts PyFloat Formatters.

Lemma round_half_even_nonneg a : (0 <= a)%Q -> (0 <= round_half_even a)%Z.
Proof.
  intros Ha. unfold round_half_even.
  assert (Hf : (0 <= Qfloor a)%Z).
  { change 0%Z with (Qfloor 0). apply Qfloor_resp_le, Ha. }
  destruct (_ ?= _)%Q; [destruct (Z.even _)|..]; lia.
Qed.

Lemma hundredths_nonneg x : (0 <= hundredths (Qabs x))%Z.
Proof.
  apply round_half_even_nonneg.
  apply Qmult_le_0_compat; [apply Qabs_nonneg|discriminate].
Qed.

Lemma Qabs_idem x : Qabs (Qabs x) = Qabs x.
Proof. destruct x as [[|n|n] d]; reflexivity. Qed.

Lemma spaces_for_commas_fixed x :
  replace "," " " (format_fixed2_grouped (Qabs x)) =
  thousands_with_spaces (hundredths (Qabs x) / 100) +:+ "." +:+
  two_digits (hundredths (Qabs x) mod 100).
Proof.
  unfold format_fixed2_grouped, thousands_with_spaces.
  rewrite Qabs_not_negative, Qabs_idem.
  fold (hundredths (Qabs x)). pose proof (hundredths_nonneg x) as Hh.
  set (h := hundredths (Qabs x)) in *.
  change ("" +:+ ?s) with s.
  rewrite replace_char_map. fold comma_to_space.
  rewrite !map_str_app, group_thousands_map.
  rewrite (map_str_id_on isdigit_char comma_to_space (str_of_int (h / 100)));
    [| apply comma_to_space_digit | apply str_of_int_digits, Z.div_pos; lia].
  rewrite (map_str_id_on isdigit_char comma_to_space (two_digits (h mod 100)));
    [| apply comma_to_space_digit | apply two_digits_digits, Z.mod_pos_bound; lia].
  reflexivity.
Qed.

Lemma format_float_text x : format_float x = currency_text x.
Proof.
  unfold format_float, currency_text, amount_text, nearly_whole.
  destruct (Qlt_le_dec (Qabs (Qabs x - inject_Z (round_half_even (Qabs x)))) tolerance).
  - rewrite spaces_for_commas_int
      by (apply round_half_even_nonneg, Qabs_nonneg).
    destruct (Qlt_le_dec x 0); reflexivity.
  - rewrite spaces_for_commas_fixed. destruct (Qlt_le_dec x 0); reflexivity.
Qed.

Lemma nearly_whole_Z n : nearly_whole (inject_Z n) = true.
Proof.
  unfold nearly_whole. rewrite round_half_even_Z.
  destruct (Qlt_le_dec _ _) as [H|H]; [reflexivity|].
  exfalso. revert H. apply Qlt_not_le.
  assert (E : (inject_Z n - inject_Z n == 0)%Q) by ring.
  rewrite E. reflexivity.
Qed.

Lemma currency_text_Z n :
  currency_text (inject_Z n) =
  (if (n <? 0)%Z then "-" else "") +:+ thousands_with_spaces (Z.abs n) +:+ " Ar".
Proof.
  unfold currency_text, amount_text.
  change (Qabs (inject_Z n)) with (inject_Z (Z.abs n)).
  rewrite nearly_whole_Z, round_half_even_Z.
  destruct (Qlt_le_dec (inject_Z n) 0) as [H|H], (n <? 0)%Z eqn:E; try reflexivity.
  - apply Z.ltb_ge in E. exfalso. apply (Qlt_not_le _ _ H).
    change 0%Q with (inject_Z 0). rewrite <- Zle_Qle. exact E.
  - apply Z.ltb_lt in E. exfalso. change 0%Q with (inject_Z 0) in H.
    rewrite <- Zle_Qle in H. lia.
Qed.

(** Up to [2^53] the conversion of an [int] is exact. *)
Lemma of_int_exact (n : Z) :
  (Z.abs n <= EXACT_INT_MAX)%Z -> of_int n = Ret (Finite (inject_Z n)).
Proof.
  intros Hn. unfold of_int.
  destruct (Z.eq_dec (Z.abs n) EXACT_INT_MAX) as [E|E].
  - destruct n as [|p|p]; [discriminate E|..];
      change (Z.pos p = EXACT_INT_MAX) in E; injection E as ->; vm_compute; reflexivity.
  - assert (Hs : Z.max 0%Z (Z.log2 (Z.abs n) - 52) = 0%Z).
    { destruct (Z.eq_dec (Z.abs n) 0%Z) as [Hz|Hz]; [rewrite Hz; reflexivity|].
      assert (Hl : (Z.log2 (Z.abs n) < 53)%Z).
      { apply Z.log2_lt_pow2; [lia|]. change (2 ^ 53)%Z with EXACT_INT_MAX. lia. }
      lia. }
    rewrite Hs. change (2 ^ 0)%Z with 1%Z.
    rewrite Z.mod_1_r, Z.div_1_r. change (2 * 0 ?= 1)%Z with Lt. cbv iota.
    rewrite Z.mul_1_r.
    replace (2 ^ 1024 <=? Z.abs n)%Z with false.
    + replace (Z.sgn n * Z.abs n)%Z with n by (destruct n; reflexivity). reflexivity.
    + symmetry. apply Z.leb_gt.
      apply Z.le_lt_trans with EXACT_INT_MAX; [exact Hn|reflexivity].
Qed.

Section Currency.
Variable float_of_text : string -> option pyfloat.
Variable float_repr : Q -> string.

Abbreviation format_currency :=
  (Formatters.format_currency float_of_text float_repr).

(** On a finite float the rendering is the one of the specification. *)
Lemma format_currency_finite (x : Q) :
  format_currency (VFloat (Finite x)) = Ret (currency_text x).
Proof. cbn [Formatters.format_currency float_of_value]. rewrite format_float_text. reflexivity. Qed.

(** An [int] that the floats hold is rendered without decimals. *)
Lemma format_currency_int (n : Z) :
  (Z.abs n <= EXACT_INT_MAX)%Z ->
  format_currency (VInt n) =
  Ret ((if (n <? 0)%Z then "-" else "") +:+ thousands_with_spaces (Z.abs n) +:+ " Ar").
Proof.
  intros Hn. cbn [Formatters.format_currency float_of_value].
  rewrite (of_int_exact n Hn). rewrite format_float_text, currency_text_Z. reflexivity.
Qed.

(** C5.  [format_currency] leaves its [try] before it calls [round], so a
    float that is no number makes it raise where its docstring promises the
    original value: [nan] raises the [ValueError] of [round], an infinity
    its [OverflowError], and so does text that [float] reads as one of
    them.  Text that [float] does not read comes back unchanged, [None]
    gives the empty text, 25000 and -1000.5 render as the specification
    says, and the decimals are rounded to the nearest hundredth, a tie to
    the even one. *)
Theorem format_currency_not_a_number :
  format_currency (VFloat NaN) = Raise (ValueError "cannot convert float NaN to integer") /\
  (forall negative,
     format_currency (VFloat (Inf negative)) =
     Raise (OverflowError "cannot convert float infinity to integer")) /\
  (forall s, float_of_text s = Some NaN ->
     format_currency (VStr s) = Raise (ValueError "cannot convert float NaN to integer")) /\
  (forall s negative, float_of_text s = Some (Inf negative) ->
     format_currency (VStr s) =
     Raise (OverflowError "cannot convert float infinity to integer")) /\
  (forall s, float_of_text s = None -> format_currency (VStr s) = Ret s) /\
  format_currency VNone = Ret "" /\
  format_currency (VInt 25000) = Ret "25 000 Ar" /\
  format_currency (VFloat (Finite (- (2001 # 2)))) = Ret "-1 000.50 Ar" /\
  format_currency (VInt (-1234567)) = Ret "-1 234 567 Ar" /\
  format_currency (VFloat (Finite (1 # 8))) = Ret "0.12 Ar" /\
  format_currency (VFloat (Finite (3 # 8))) = Ret "0.38 Ar" /\
  format_currency (VFloat (Finite (9876543 # 2))) = Ret "4 938 271.50 Ar".
Proof.
  split; [reflexivity|]. split; [intros negative; reflexivity|].
  split; [|split; [|split]].
  - intros s Hs. cbn [Formatters.format_currency float_of_value]. unfold float_of_string.
    rewrite Hs. reflexivity.
  - intros s negative Hs. cbn [Formatters.format_currency float_of_value].
    unfold float_of_string. rewrite Hs. reflexivity.
  - intros s Hs. cbn [Formatters.format_currency float_of_value]. unfold float_of_string.
    rewrite Hs. reflexivity.
  - repeat split; reflexivity.
Qed.

End Currency.

End FormattersFacts.

Module ParseNumericFacts.
Import PyStr Formatters.

Lemma catch_returns {A} (m : res A) (h : exn -> res A) :
  (forall e, returns (h e)) ->
  (forall e, m = Raise e -> is_value_or_type_error e = true) ->
  returns (catch m is_value_or_type_error h).
Proof.
  intros Hh Hm. destruct m as [a|e]; simpl.
  - exists a. reflexivity.
  - rewrite (Hm e eq_refl). apply Hh.
Qed.

Lemma int_of_str_raises s e : int_of_str s = Raise e -> is_value_or_type_error e = true.
Proof.
  unfold int_of_str. destruct (strip s) as [|c r]; simpl.
  - intros [= <-]. reflexivity.
  - destruct (let '(neg, body) := _ in _) eqn:E; [discriminate|].
    revert E. destruct c as [[] [] [] [] [] [] [] []];
      match goal with |- context [int_body_ok false ?b] => destruct (int_body_ok false b) end;
      intros [= <-] [= <-]; reflexivity.
Qed.

Lemma float_str_raises f s e : float_str f s = Raise e -> is_value_or_type_error e = true.
Proof. unfold float_str. destruct (f s); [discriminate|]. intros [= <-]. reflexivity. Qed.

(** [parse_numeric] absorbs every failure of [int] and [float]. *)
Lemma parse_numeric_returns f s b : returns (parse_numeric f s b).
Proof.
  unfold parse_numeric.
  set (cleaned := replace "," "" _).
  destruct (negb (truthy cleaned)); [exists None; reflexivity|].
  apply catch_returns; [intros e; exists None; reflexivity|].
  intros e. destruct (contains_char "." cleaned).
  - destruct (float_str f cleaned) as [x|e'] eqn:E; simpl.
    + destruct (negb b && _); discriminate.
    + intros [= <-]. eapply float_str_raises, E.
  - destruct (int_of_str cleaned) as [n|e'] eqn:E; simpl.
    + destruct (negb b && _); discriminate.
    + intros [= <-]. eapply int_of_str_raises, E.
Qed.

(** C6.  The documented spellings "25000", "25 000", "25,000", "25000 Ar"
    and the lower-case suffix parse to the integer 25000, but the
    upper-case suffix "AR" (and "aR") is not stripped: [int] then fails and
    [parse_numeric] returns [None]. *)
Theorem parse_numeric_suffix_case (float_of_str : string -> option Q) :
  parse_numeric float_of_str "25000 AR" true = Ret None /\
  parse_numeric float_of_str "25000 aR" true = Ret None /\
  parse_numeric float_of_str "25000 Ar" true = Ret (Some (PInt 25000)) /\
  parse_numeric float_of_str "25000 ar" true = Ret (Some (PInt 25000)) /\
  parse_numeric float_of_str "25000" true = Ret (Some (PInt 25000)) /\
  parse_numeric float_of_str "25 000" true = Ret (Some (PInt 25000)) /\
  parse_numeric float_of_str "25,000" true = Ret (Some (PInt 25000)).
Proof. repeat split; reflexivity. Qed.

End ParseNumericFacts.

Module ModelsFacts.
Import PyStr PyFloat Models.

Lemma blank_iff s : blank s = false <-> non_empty_after_trimming s.
Proof.
  unfold blank, non_empty_after_trimming. destruct s as [|c s]; simpl.
  - split; [discriminate|]. intros H. exfalso. apply H. reflexivity.
  - fold (strip (String c s)). destruct (strip (String c s)); simpl; split;
      congruence.
Qed.

Lemma is_valid_tested (o : Order) : fst (is_valid o) = true <-> tested_rule o.
Proof.
  unfold is_valid, tested_rule. rewrite <- !blank_iff.
  destruct (blank (client_name o)); [simpl; intuition discriminate|].
  destruct (blank (phone o)); [simpl; intuition discriminate|].
  destruct (blank (address o)); [simpl; intuition discriminate|].
  destruct (delivery_fee o) as [fee|].
  - destruct (lt_zero fee) eqn:Hfee; simpl.
    + split; [discriminate|]. intros (_ & _ & _ & f & [= <-] & Hf). congruence.
    + split; [|reflexivity]. intros _. repeat split. exists fee. auto.
  - simpl. split; [discriminate|]. intros (_ & _ & _ & f & Hf & _). discriminate.
Qed.

Lemma non_negative_tested (fee : pyfloat) :
  fee <> NaN -> (non_negative fee <-> lt_zero fee = false).
Proof.
  intros Hfee. destruct fee as [q| |[]]; cbn [non_negative lt_zero].
  - destruct (Qlt_le_dec q 0) as [Hn|Hp]; split; try congruence; try tauto.
    intros Hq. exfalso. apply (Qlt_not_le _ _ Hn Hq).
  - contradiction.
  - split; congruence.
  - split; congruence.
Qed.

(** C8.  [is_valid] tests [delivery_fee < 0], which is false for [nan]: the
    order with trimmed name, phone and address and the fee [nan] is valid
    for the method, though its fee is not a non-negative number.  On every
    order whose fee is not [nan] the method answers true exactly when name,
    phone and address are non-empty after trimming and the fee is present
    and non-negative; in general it answers true exactly when the three
    texts are non-empty after trimming and the fee is present and not below
    zero; the order after the call is the order before it. *)
Theorem is_valid_nan_fee :
  fst (is_valid nan_fee_order) = true /\
  ~ valid_rule nan_fee_order /\
  (forall o : Order, delivery_fee o <> Some NaN ->
     (fst (is_valid o) = true <-> valid_rule o) /\
     (fst (is_valid o) = false <-> ~ valid_rule o)) /\
  (forall o : Order, fst (is_valid o) = true <-> tested_rule o) /\
  (forall o : Order, snd (is_valid o) = o).
Proof.
  split; [reflexivity|]. split; [|split; [|split]].
  - intros (_ & _ & _ & fee & [= <-] & Hfee). exact Hfee.
  - intros o Hnan.
    assert (H : fst (is_valid o) = true <-> valid_rule o).
    { rewrite is_valid_tested. unfold tested_rule, valid_rule.
      split; intros (H1 & H2 & H3 & fee & Hfee & Hsign);
        (split; [exact H1|split; [exact H2|split; [exact H3|]]]);
        exists fee; (split; [exact Hfee|]);
        apply (non_negative_tested fee); congruence. }
    split; [exact H|]. rewrite <- H. destruct (fst (is_valid o)); split; congruence.
  - apply is_valid_tested.
  - intros o. unfold is_valid.
    repeat match goal with
           | |- context [if ?b then _ else _] => destruct b
           | |- context [match ?x with Some _ => _ | None => _ end] => destruct x
           end; reflexivity.
Qed.

End ModelsFacts.

Module ProductPriceFacts.
Import PyStr ProductPrice.

Lemma upper_char_idem c : upper_char (upper_char c) = upper_char c.
Proof. destruct c as [[] [] [] [] [] [] [] []]; reflexivity. Qed.

Lemma upper_idem s : upper (upper s) = upper s.
Proof. induction s as [|c s IH]; simpl; [reflexivity|]. rewrite upper_char_idem, IH. reflexivity. Qed.

Lemma upper_lower s : upper (lower s) = upper s.
Proof.
  induction s as [|c s IH]; simpl; [reflexivity|]. rewrite IH. f_equal.
  destruct c as [[] [] [] [] [] [] [] []]; reflexivity.
Qed.

(** C10.  The requested code is upper-cased before the lookup: codes that
    differ only in case get the same price, the price is the catalog's
    entry for the upper-cased code, and it is 0 when that entry is missing;
    over a catalog with upper-case keys this means a price of 0 whenever no
    key equals the code up to case. *)
Theorem get_product_price_spec (products : gmap string Q) (code : string) :
  get_product_price (lower code) products = get_product_price code products /\
  get_product_price (upper code) products = get_product_price code products /\
  (forall other, same_ignoring_case other code ->
     get_product_price other products = get_product_price code products) /\
  (forall price, products !! upper code = Some price ->
     get_product_price code products = price) /\
  (products !! upper code = None -> get_product_price code products = 0%Q) /\
  (upper_keys products ->
   (forall k, is_Some (products !! k) -> ~ same_ignoring_case k code) ->
   get_product_price code products = 0%Q) /\
  (upper_keys products ->
   forall k price, products !! k = Some price -> same_ignoring_case k code ->
   get_product_price code products = price).
Proof.
  unfold get_product_price, same_ignoring_case. repeat split.
  - rewrite upper_lower. reflexivity.
  - rewrite upper_idem. reflexivity.
  - intros other ->. reflexivity.
  - intros price ->. reflexivity.
  - intros ->. reflexivity.
  - intros Hk Hno. destruct (products !! upper code) as [p|] eqn:E; [|reflexivity].
    exfalso. apply (Hno (upper code)); [rewrite E; eauto|]. apply upper_idem.
  - intros Hk k price Hp Hc.
    rewrite <- Hc, (Hk k) by (rewrite Hp; eauto). rewrite Hp. reflexivity.
Qed.

End ProductPriceFacts.

Example price_known :
  ProductPrice.get_product_price "ca" (<["CA" := 25000%Q]> (<["TA" := 15000%Q]> ∅)) = 25000%Q.
Proof. reflexivity. Qed.

Example price_unknown :
  ProductPrice.get_product_price "zz" (<["CA" := 25000%Q]> ∅) = 0%Q.
Proof. reflexivity. Qed.

Module ParsersFacts.
Import PyStr Parsers.

(** C2.  The two fields of the specification parse as stated, but a token
    that the pattern does not match and whose second word is digits behind
    more than one dash passes the [lstrip("-").isdigit()] test of the
    fallback and makes [int] raise: no list is returned. *)
Theorem parse_product_field_double_dash :
  parse_product_field "# --5" =
    Raise (ValueError "invalid literal for int() with base 10: --5") /\
  parse_product_field "CA x 2, # --5" =
    Raise (ValueError "invalid literal for int() with base 10: --5") /\
  parse_product_field "CA x 2, TA:1" =
    Ret [ {| code := "CA"; qty := 2 |}; {| code := "TA"; qty := 1 |} ] /\
  parse_product_field "CG" = Ret [ {| code := "CG"; qty := 1 |} ].
Proof. repeat split; reflexivity. Qed.

End ParsersFacts.

Example text_lines_ex :
  OS.text_lines (OS.universal_newlines
    ("a" +:+ String OS.CR (String OS.LF ("b" +:+ String OS.CR ("c" +:+ String OS.LF (String OS.LF "d")))))) =
  ["a" +:+ OS.newline; "b" +:+ OS.newline; "c" +:+ OS.newline; OS.newline; "d"].
Proof. reflexivity. Qed.

Example save_two_addresses :
  fst (AddressManager.load_addresses "a.txt"
         (AddressManager.save_address "a.txt" " Lot 12 "
            (AddressManager.save_address "a.txt" "Villa 3"
               (AddressManager.save_address "a.txt" "Lot 12" empty_world)))) =
  ["Lot 12"; "Villa 3"].
Proof. vm_compute. reflexivity. Qed.

Module StripFacts.
Import PyStr PyStrFacts.

Lemma app_empty_r s : s +:+ "" = s.
Proof. induction s as [|c s IH]; simpl; [reflexivity|]. rewrite IH. reflexivity. Qed.

Lemma app_assoc_str a b c : (a +:+ b) +:+ c = a +:+ (b +:+ c).
Proof. induction a as [|x a IH]; simpl; [reflexivity|]. rewrite IH. reflexivity. Qed.

Lemma forallb_str_app q a b :
  forallb_str q (a +:+ b) = forallb_str q a && forallb_str q b.
Proof. induction a as [|x a IH]; simpl; [reflexivity|]. rewrite IH, andb_assoc. reflexivity. Qed.

Lemma rstrip_by_keep p c s : p c = false -> rstrip_by p (String c s) = String c (rstrip_by p s).
Proof. intros H. simpl. rewrite H. destruct (rstrip_by p s); reflexivity. Qed.

Lemma rstrip_by_idem p s : rstrip_by p (rstrip_by p s) = rstrip_by p s.
Proof.
  induction s as [|c s IH]; [reflexivity|]. cbn [rstrip_by].
  destruct (rstrip_by p s) as [|d r] eqn:E.
  - destruct (p c) eqn:Hc; [reflexivity|]. simpl. rewrite Hc. reflexivity.
  - cbn [rstrip_by]. cbn [rstrip_by] in IH. rewrite IH. reflexivity.
Qed.

Lemma lstrip_by_head p s :
  lstrip_by p s = EmptyString \/
  exists c r, lstrip_by p s = String c r /\ p c = false.
Proof.
  induction s as [|c s IH]; simpl; [left; reflexivity|].
  destruct (p c) eqn:Hc; [exact IH|]. right. eauto.
Qed.

Lemma lstrip_by_all p s : forallb_str p s = true -> lstrip_by p s = EmptyString.
Proof.
  induction s as [|c s IH]; simpl; [reflexivity|].
  intros H. apply andb_true_iff in H as [Hc Hs]. rewrite Hc. auto.
Qed.

Lemma lstrip_by_app p s t :
  lstrip_by p (s +:+ t) =
  if forallb_str p s then lstrip_by p t else lstrip_by p s +:+ t.
Proof.
  induction s as [|c s IH]; simpl; [reflexivity|].
  destruct (p c); simpl; [exact IH|reflexivity].
Qed.

Lemma rstrip_by_snoc p s c :
  p c = true -> rstrip_by p (s +:+ String c EmptyString) = rstrip_by p s.
Proof.
  intros Hc. induction s as [|d s IH]; simpl; [rewrite Hc; reflexivity|].
  rewrite IH. reflexivity.
Qed.

Lemma strip_idem s : strip (strip s) = strip s.
Proof.
  unfold strip. destruct (lstrip_by_head isspace s) as [E|(c & r & E & Hc)]; rewrite E.
  - reflexivity.
  - rewrite (rstrip_by_keep _ _ _ Hc). cbn [lstrip_by]. rewrite Hc.
    rewrite (rstrip_by_keep _ _ _ Hc), rstrip_by_idem. reflexivity.
Qed.

Lemma strip_snoc_space s c : isspace c = true -> strip (s +:+ String c EmptyString) = strip s.
Proof.
  intros Hc. unfold strip. rewrite lstrip_by_app.
  destruct (forallb_str isspace s) eqn:E.
  - rewrite (lstrip_by_all _ _ E). simpl. rewrite Hc. reflexivity.
  - apply rstrip_by_snoc, Hc.
Qed.

Lemma forallb_lstrip q p s :
  forallb_str q s = true -> forallb_str q (lstrip_by p s) = true.
Proof.
  induction s as [|c s IH]; simpl; [reflexivity|]. intros H.
  destruct (p c); [apply andb_true_iff in H as [_ H]; auto|exact H].
Qed.

Lemma forallb_rstrip q p s :
  forallb_str q s = true -> forallb_str q (rstrip_by p s) = true.
Proof.
  induction s as [|c s IH]; simpl; [reflexivity|]. intros H.
  apply andb_true_iff in H as [Hc Hs]. specialize (IH Hs).
  destruct (rstrip_by p s) as [|d r].
  - destruct (p c); simpl; rewrite ?Hc; reflexivity.
  - cbn [forallb_str]. rewrite Hc. exact IH.
Qed.

Lemma forallb_strip q s : forallb_str q s = true -> forallb_str q (strip s) = true.
Proof. intros H. apply forallb_rstrip, forallb_lstrip, H. Qed.

Lemma blank_false_strip s : blank s = false -> truthy (strip s) = true.
Proof.
  unfold blank. intros H. apply orb_false_iff in H as [_ H].
  apply negb_false_iff in H. exact H.
Qed.

(** *** Splitting *)

Lemma split_on_not_nil sep s : split_on sep s <> [].
Proof. induction s as [|c s IH]; simpl; [discriminate|]. destruct (sep c), (split_on sep s); congruence. Qed.

Lemma split_on_no_sep sep s :
  forallb_str (fun c => negb (sep c)) s = true -> split_on sep s = [s].
Proof.
  induction s as [|c s IH]; simpl; [reflexivity|]. intros H.
  apply andb_true_iff in H as [Hc Hs]. apply negb_true_iff in Hc.
  rewrite Hc, (IH Hs). reflexivity.
Qed.

Lemma split_on_app_sep sep cur c s :
  forallb_str (fun c => negb (sep c)) cur = true -> sep c = true ->
  split_on sep (cur +:+ String c s) = cur :: split_on sep s.
Proof.
  intros Hcur Hc. induction cur as [|d cur IH]; simpl.
  - rewrite Hc. reflexivity.
  - cbn [forallb_str] in Hcur. apply andb_true_iff in Hcur as [Hd Hcur].
    apply negb_true_iff in Hd. rewrite Hd, (IH Hcur). reflexivity.
Qed.

Lemma split_on_pieces q sep s :
  forallb_str q s = true -> Forall (fun p => forallb_str q p = true) (split_on sep s).
Proof.
  induction s as [|c s IH]; simpl; [repeat constructor|]. intros H.
  apply andb_true_iff in H as [Hc Hs]. specialize (IH Hs).
  destruct (sep c); [constructor; [reflexivity|exact IH]|].
  destruct (split_on sep s) as [|p ps]; [repeat constructor; simpl; rewrite Hc; reflexivity|].
  inversion IH; subst. constructor; [simpl; rewrite Hc; assumption|assumption].
Qed.

Lemma split_on_pieces_no_sep sep s :
  Forall (fun p => forallb_str (fun c => negb (sep c)) p = true) (split_on sep s).
Proof.
  induction s as [|c s IH]; simpl; [repeat constructor|].
  destruct (sep c) eqn:Hc; [constructor; [reflexivity|exact IH]|].
  destruct (split_on sep s) as [|p ps]; [repeat constructor; simpl; rewrite Hc; reflexivity|].
  inversion IH; subst. constructor; [simpl; rewrite Hc; assumption|assumption].
Qed.

End StripFacts.

Module OSFacts.
Import PyStr PyStrFacts StripFacts OS.

Lemma forallb_str_impl (p q : ascii -> bool) s :
  (forall c, p c = true -> q c = true) -> forallb_str p s = true -> forallb_str q s = true.
Proof.
  intros Hpq. induction s as [|c s IH]; simpl; [reflexivity|].
  intros H. apply andb_true_iff in H as [Hc Hs]. rewrite (Hpq _ Hc), IH; auto.
Qed.

Lemma forallb_str_both (p q : ascii -> bool) s :
  forallb_str p s = true -> forallb_str q s = true ->
  forallb_str (fun c => p c && q c) s = true.
Proof.
  induction s as [|c s IH]; simpl; [reflexivity|]. intros H1 H2.
  apply andb_true_iff in H1 as [-> H1]. apply andb_true_iff in H2 as [-> H2].
  simpl. auto.
Qed.

(** The lines read from a text are its pieces between line feeds: the line
    feed kept at the end of a line disappears in [strip]. *)
Lemma stripped_text_lines_aux s : forall cur,
  forallb_str not_LF cur = true ->
  filter (fun p => p <> EmptyString) (map strip (text_lines_aux cur s)) =
  filter (fun p => p <> EmptyString) (map strip (split_on is_LF (cur +:+ s))).
Proof.
  induction s as [|c s IH]; intros cur Hcur.
  - rewrite app_empty_r, (split_on_no_sep is_LF cur Hcur). simpl.
    destruct cur; reflexivity.
  - cbn [text_lines_aux]. fold (is_LF c). destruct (is_LF c) eqn:Hc.
    + rewrite (split_on_app_sep is_LF cur c s Hcur Hc). cbn [map].
      unfold newline. rewrite strip_snoc_space by reflexivity.
      rewrite !filter_cons. rewrite (IH EmptyString eq_refl). reflexivity.
    + rewrite IH.
      * rewrite app_assoc_str. reflexivity.
      * rewrite forallb_str_app, Hcur. simpl. unfold not_LF. rewrite Hc. reflexivity.
Qed.

Lemma stripped_lines_split text :
  stripped_lines text =
  filter (fun p => p <> EmptyString) (map strip (split_on is_LF text)).
Proof.
  unfold stripped_lines, text_lines. rewrite parts_as_rule.
  apply (stripped_text_lines_aux text EmptyString eq_refl).
Qed.

Lemma universal_newlines_no_CR_bounded n : forall s,
  (String.length s <= n)%nat -> forallb_str not_CR (universal_newlines s) = true.
Proof.
  induction n as [|n IH]; intros [|c s] Hlen; simpl in *; try reflexivity; try lia.
  destruct (Ascii.eqb c CR) eqn:Hc.
  - cbn [forallb_str]. change (not_CR LF) with true. cbn [andb].
    destruct s as [|d s]; [reflexivity|].
    destruct (Ascii.eqb d LF); apply IH; simpl in *; lia.
  - cbn [forallb_str]. unfold not_CR at 1. rewrite Hc. apply IH. lia.
Qed.

Lemma universal_newlines_no_CR s : forallb_str not_CR (universal_newlines s) = true.
Proof. apply (universal_newlines_no_CR_bounded (String.length s)). lia. Qed.

Lemma universal_newlines_id s : forallb_str not_CR s = true -> universal_newlines s = s.
Proof.
  induction s as [|c s IH]; simpl; [reflexivity|]. intros H.
  apply andb_true_iff in H as [Hc Hs]. apply negb_true_iff in Hc.
  rewrite Hc, (IH Hs). reflexivity.
Qed.

End OSFacts.

Module AddressManagerFacts.
Import PyStr PyStrFacts StripFacts OS OSFacts AddressManager.

Lemma single_line_split a :
  single_line a = true -> forallb_str not_LF a = true /\ forallb_str not_CR a = true.
Proof.
  intros H. split; revert H; apply forallb_str_impl; intros c Hc;
    apply negb_true_iff, orb_false_iff in Hc as [H1 H2];
    unfold not_LF, is_LF, not_CR; rewrite ?H1, ?H2; reflexivity.
Qed.

Lemma single_line_join a :
  forallb_str not_LF a = true -> forallb_str not_CR a = true -> single_line a = true.
Proof.
  intros H1 H2. pose proof (forallb_str_both _ _ _ H1 H2) as H. revert H.
  apply forallb_str_impl. intros c Hc. apply andb_true_iff in Hc as [Ha Hb].
  unfold not_LF, is_LF in Ha. unfold not_CR in Hb.
  apply negb_true_iff in Ha, Hb. rewrite Ha, Hb. reflexivity.
Qed.

Lemma lines_text_split l :
  Forall entry_ok l -> split_on is_LF (lines_text l) = l ++ [EmptyString].
Proof.
  induction 1 as [|a l (_ & _ & Ha) Hl IH]; [reflexivity|].
  cbn [lines_text fold_right]. fold (lines_text l). unfold newline. cbn [String.append].
  rewrite split_on_app_sep; [|apply single_line_split, Ha|reflexivity].
  rewrite IH. reflexivity.
Qed.

Lemma lines_text_no_CR l : Forall entry_ok l -> forallb_str not_CR (lines_text l) = true.
Proof.
  induction 1 as [|a l (_ & _ & Ha) Hl IH]; [reflexivity|].
  cbn [lines_text fold_right]. fold (lines_text l).
  rewrite !forallb_str_app, IH. rewrite (proj2 (single_line_split a Ha)). reflexivity.
Qed.

Lemma keep_entries l :
  Forall entry_ok l ->
  filter (fun p => p <> EmptyString) (map strip (l ++ [EmptyString])) = l.
Proof.
  induction 1 as [|a l (Hs & Hne & _) Hl IH]; [reflexivity|].
  cbn [app map]. rewrite filter_cons, Hs, IH.
  case_decide; [reflexivity|contradiction].
Qed.

(** What [save_address] writes is read back entry by entry. *)
Lemma read_back l :
  Forall entry_ok l -> stripped_lines (universal_newlines (lines_text l)) = l.
Proof.
  intros Hl. rewrite universal_newlines_id by apply lines_text_no_CR, Hl.
  rewrite stripped_lines_split, lines_text_split by exact Hl.
  apply keep_entries, Hl.
Qed.

(** Whatever the file holds, the entries loaded from it are well formed. *)
Lemma loaded_entries_ok data : Forall entry_ok (stripped_lines (universal_newlines data)).
Proof.
  rewrite stripped_lines_split.
  pose proof (split_on_pieces_no_sep is_LF (universal_newlines data)) as H1.
  pose proof (split_on_pieces not_CR is_LF _ (universal_newlines_no_CR data)) as H2.
  induction (split_on is_LF (universal_newlines data)) as [|p ps IH]; [constructor|].
  inversion H1; subst. inversion H2; subst. cbn [map]. rewrite filter_cons.
  case_decide; [|auto]. constructor; [|auto].
  split; [apply strip_idem|]. split; [assumption|].
  apply forallb_strip, single_line_join; assumption.
Qed.

Lemma list_in_false_remove a l : list_in a l = false -> list_remove a l = l.
Proof.
  induction l as [|y l IH]; simpl; [reflexivity|]. intros H.
  apply orb_false_iff in H as [Hy Hl]. rewrite Hy, (IH Hl). reflexivity.
Qed.

Lemma list_remove_ok a l : Forall entry_ok l -> Forall entry_ok (list_remove a l).
Proof.
  induction 1 as [|y l Hy Hl IH]; simpl; [constructor|].
  destruct (String.eqb a y); [assumption|constructor; assumption].
Qed.

Lemma filter_absent (a : string) (l : list string) :
  a ∉ l -> filter (fun y => y <> a) l = l.
Proof.
  induction l as [|y l IH]; [reflexivity|]. intros H.
  apply not_elem_of_cons in H as [Hy Hl]. rewrite filter_cons.
  case_decide; [rewrite (IH Hl); reflexivity|congruence].
Qed.

Lemma list_remove_NoDup a l :
  NoDup l -> list_remove a l = filter (fun y => y <> a) l.
Proof.
  induction 1 as [|y l Hy Hl IH]; simpl; [reflexivity|].
  rewrite filter_cons. destruct (String.eqb a y) eqn:E.
  - apply String.eqb_eq in E. subst y. case_decide; [contradiction|].
    symmetry. apply filter_absent, Hy.
  - apply String.eqb_neq in E. case_decide; [|congruence]. rewrite IH. reflexivity.
Qed.

Lemma load_addresses_accessible path w :
  read_fault w !! path = None ->
  load_addresses path w =
  (match files w !! path with
   | Some data => stripped_lines (universal_newlines data)
   | None => []
   end, w).
Proof.
  intros Hr. unfold load_addresses, path_exists, read_text.
  destruct (files w !! path); simpl; [rewrite Hr|]; reflexivity.
Qed.

Lemma load_addresses_ok path w :
  read_fault w !! path = None -> Forall entry_ok (fst (load_addresses path w)).
Proof.
  intros Hr. rewrite (load_addresses_accessible _ _ Hr). simpl.
  destruct (files w !! path); [apply loaded_entries_ok|constructor].
Qed.

(** C7 (amended).  When the history file can be read and written and the
    trimmed address holds no line break, saving a non-blank address and
    loading again gives the trimmed address first, then the previous
    history without its first occurrence of that address, cut to 200
    entries; on a history without repetition this removes every occurrence.
    Saving a blank address changes nothing. *)
Theorem save_address_then_load (path : string) (w : world) (a : string)
    (Hacc : accessible path w)
    (Hnb : blank a = false)
    (Hline : single_line (strip a) = true) :
  let history := fst (load_addresses path w) in
  let reloaded := fst (load_addresses path (save_address path a w)) in
  reloaded = moved_to_front (strip a) history /\
  (NoDup history ->
   reloaded = firstn 200 (strip a :: filter (fun y => y <> strip a) history)) /\
  (length reloaded <= 200)%nat /\
  (forall b, blank b = true -> save_address path b w = w).
Proof.
  intros history reloaded. destruct Hacc as [Hr Hw].
  assert (Hhist : Forall entry_ok history) by apply load_addresses_ok, Hr.
  assert (Ha : entry_ok (strip a)).
  { split; [apply strip_idem|]. split; [|exact Hline].
    pose proof (blank_false_strip a Hnb) as H. destruct (strip a); [discriminate|congruence]. }
  assert (Hmoved : Forall entry_ok (moved_to_front (strip a) history)).
  { apply Forall_take. constructor; [exact Ha|]. apply list_remove_ok, Hhist. }
  assert (E : reloaded = moved_to_front (strip a) history).
  { subst reloaded. unfold save_address. rewrite Hnb.
    destruct (load_addresses path w) as [prior w0] eqn:Hload.
    rewrite (load_addresses_accessible path w Hr) in Hload.
    injection Hload as Hprior <-. subst history. cbn [fst] in *.
    replace (if list_in (strip a) prior then list_remove (strip a) prior else prior)
      with (list_remove (strip a) prior)
      by (destruct (list_in (strip a) prior) eqn:Hin;
          [reflexivity|apply list_in_false_remove, Hin]).
    fold (moved_to_front (strip a) prior). unfold write_text. rewrite Hw.
    rewrite load_addresses_accessible by exact Hr. cbn [fst files].
    rewrite lookup_insert_eq. apply read_back, Hmoved. }
  split; [exact E|]. split; [|split].
  - intros Hnd. rewrite E. unfold moved_to_front.
    rewrite (list_remove_NoDup _ _ Hnd). reflexivity.
  - rewrite E. unfold moved_to_front. rewrite length_take.
    unfold Config.MAX_ADDRESS_HISTORY. lia.
  - intros b Hb. unfold save_address. rewrite Hb. reflexivity.
Qed.

Lemma save_address_then_load_witness :
  accessible "addresses.txt" empty_world /\
  blank " Lot 12 " = false /\
  single_line (strip " Lot 12 ") = true /\
  fst (load_addresses "addresses.txt" (save_address "addresses.txt" " Lot 12 " empty_world)) =
  moved_to_front (strip " Lot 12 ") (fst (load_addresses "addresses.txt" empty_world)).
Proof.
  assert (Hacc : accessible "addresses.txt" empty_world) by (split; reflexivity).
  split; [exact Hacc|]. split; [reflexivity|]. split; [reflexivity|].
  exact (proj1 (save_address_then_load "addresses.txt" empty_world " Lot 12 "
                  Hacc eq_refl eq_refl)).
Defined.

(** C7 as stated fails on an address with a line break inside: the history
    file has one entry per line and no escaping, so the address is read
    back as two entries. *)
Lemma save_address_line_break :
  let a := "x" +:+ newline +:+ "y" in
  let w := save_address "addresses.txt" a empty_world in
  blank a = false /\
  accessible "addresses.txt" empty_world /\
  fst (load_addresses "addresses.txt" w) = ["x"; "y"] /\
  fst (load_addresses "addresses.txt" w) <>
  firstn 200 (strip a :: filter (fun y => y <> strip a)
                           (fst (load_addresses "addresses.txt" empty_world))).
Proof.
  split; [reflexivity|]. split; [split; reflexivity|].
  split; [vm_compute; reflexivity|]. vm_compute. discriminate.
Qed.

End AddressManagerFacts.

Example save_address_repeated_entry :
  let w :=
    {| OS.files := <["addresses.txt" := OS.lines_text ["a"; "b"; "a"]]> ∅;
       OS.read_fault := ∅; OS.write_fault := ∅; OS.console := [] |} in
  fst (AddressManager.load_addresses "addresses.txt"
         (AddressManager.save_address "addresses.txt" "a" w)) = ["a"; "b"; "a"].
Proof. vm_compute. reflexivity. Qed.

Example save_address_unwritable :
  let w :=
    {| OS.files := ∅; OS.read_fault := ∅;
       OS.write_fault := <["addresses.txt" := PermissionError "addresses.txt"]> ∅;
       OS.console := [] |} in
  OS.console (AddressManager.save_address "addresses.txt" "a" w) =
  ["Error saving address: [Errno 13] Permission denied: 'addresses.txt'"].
Proof. vm_compute. reflexivity. Qed.

Module AgentManagerFacts.
Import PyStr OS AgentManager.

Lemma alloc_fresh l h : (alloc l h).1 ∉ dom h.
Proof. apply is_fresh. Qed.

Lemma alloc_lookup l h : (alloc l h).2 !! (alloc l h).1 = Some l.
Proof. apply lookup_insert_eq. Qed.

Lemma alloc_keeps l h r x : h !! r = Some x -> (alloc l h).2 !! r = Some x.
Proof.
  intros Hr. unfold alloc. cbn [snd]. rewrite lookup_insert_ne; [exact Hr|].
  intros E. pose proof (is_fresh (dom h)) as Hf. rewrite E in Hf.
  apply Hf, elem_of_dom. eauto.
Qed.

Lemma get_default_agents_spec st :
  heap st !! DEFAULT_AGENTS_ref = Some Config.DEFAULT_AGENTS ->
  forall r st', get_default_agents st = (r, st') ->
  heap st' !! r = Some Config.DEFAULT_AGENTS /\
  (r ∉ dom (heap st)) /\ r <> DEFAULT_AGENTS_ref /\
  heap st' !! DEFAULT_AGENTS_ref = Some Config.DEFAULT_AGENTS /\
  os st' = os st.
Proof.
  intros Hd r0 st0. unfold get_default_agents, list_copy. rewrite Hd.
  cbn [default from_option id].
  destruct (alloc Config.DEFAULT_AGENTS (heap st)) as [r h] eqn:E.
  pose proof (alloc_fresh Config.DEFAULT_AGENTS (heap st)) as Hf.
  pose proof (alloc_lookup Config.DEFAULT_AGENTS (heap st)) as Hl.
  pose proof (alloc_keeps Config.DEFAULT_AGENTS (heap st) _ _ Hd) as Hk.
  rewrite E in Hf, Hl, Hk. cbn [fst snd] in *. intros [= <- <-]. cbn [heap os].
  repeat split; try assumption; try reflexivity.
  intros ->. apply Hf, elem_of_dom. eauto.
Qed.

Lemma load_agents_read_fails path st e :
  heap st !! DEFAULT_AGENTS_ref = Some Config.DEFAULT_AGENTS ->
  read_text path (os st) = Raise e ->
  heap (load_agents path st).2 !! (load_agents path st).1 = Some Config.DEFAULT_AGENTS.
Proof.
  intros Hd Hfail. unfold load_agents. rewrite Hfail.
  destruct (negb (path_exists path (os st))).
  - destruct (get_default_agents st) as [r st'] eqn:G.
    apply (get_default_agents_spec st Hd) in G as (H1 & _). exact H1.
  - destruct (get_default_agents _) as [r st'] eqn:G.
    apply (get_default_agents_spec
             {| os := print ("Error loading agents: " +:+ exn_str e) (os st);
                heap := heap st |} Hd) in G as (H1 & _).
    exact H1.
Qed.

(** C9.  As long as nobody has changed [Config.DEFAULT_AGENTS], the list
    that [load_agents] returns is a new object and is never empty; when the
    file is missing, cannot be read or holds only blank lines it is a copy
    of the five default names, and the default list itself stays as it was. *)
Theorem load_agents_never_empty (path : string) (st : state)
    (Hdefault : heap st !! DEFAULT_AGENTS_ref = Some Config.DEFAULT_AGENTS) :
  let r := (load_agents path st).1 in
  let st' := (load_agents path st).2 in
  exists agents,
    heap st' !! r = Some agents /\ agents <> [] /\
    (r ∉ dom (heap st)) /\ r <> DEFAULT_AGENTS_ref /\
    heap st' !! DEFAULT_AGENTS_ref = Some Config.DEFAULT_AGENTS /\
    (nothing_to_load path (os st) -> agents = Config.DEFAULT_AGENTS) /\
    length Config.DEFAULT_AGENTS = 5%nat.
Proof.
  cbv zeta. unfold load_agents, path_exists, nothing_to_load.
  destruct (files (os st) !! path) as [data|] eqn:Hfile; cbn [negb].
  - destruct (read_text path (os st)) as [text|e] eqn:Hread.
    + destruct (alloc (stripped_lines text) (heap st)) as [r h] eqn:E.
      pose proof (alloc_fresh (stripped_lines text) (heap st)) as Hf.
      pose proof (alloc_lookup (stripped_lines text) (heap st)) as Hl.
      pose proof (alloc_keeps (stripped_lines text) (heap st) _ _ Hdefault) as Hk.
      rewrite E in Hf, Hl, Hk. cbn [fst snd] in *.
      destruct (stripped_lines text) as [|a l] eqn:Hlines.
      * destruct (get_default_agents _) as [r' st'] eqn:G.
        apply (get_default_agents_spec {| os := os st; heap := h |} Hk) in G
          as (H1 & H2 & H3 & H4 & _).
        cbn [fst snd heap os] in *.
        exists Config.DEFAULT_AGENTS. repeat split; try assumption; try discriminate.
        intros Hin. apply H2. apply elem_of_dom. apply elem_of_dom in Hin as [x Hx].
        exists x. pose proof (alloc_keeps [] (heap st) _ _ Hx) as Hx'.
        rewrite E in Hx'. exact Hx'.
      * exists (a :: l). cbn [fst snd heap]. repeat split; try assumption; try discriminate.
        -- intros ->. apply Hf, elem_of_dom. eauto.
        -- intros [H|[[e H]|(t & [= <-] & H)]]; congruence.
    + destruct (get_default_agents _) as [r' st'] eqn:G.
      apply (get_default_agents_spec
               {| os := print ("Error loading agents: " +:+ exn_str e) (os st);
                  heap := heap st |} Hdefault) in G as (H1 & H2 & H3 & H4 & _).
      cbn [fst snd heap os] in *.
      exists Config.DEFAULT_AGENTS. repeat split; try assumption; discriminate.
  - destruct (get_default_agents st) as [r' st'] eqn:G.
    apply (get_default_agents_spec st Hdefault) in G as (H1 & H2 & H3 & H4 & _).
    cbn [fst snd] in *.
    exists Config.DEFAULT_AGENTS. repeat split; try assumption; discriminate.
Qed.

End AgentManagerFacts.

Lemma load_agents_never_empty_witness :
  AgentManager.heap initial_state !! AgentManager.DEFAULT_AGENTS_ref
    = Some Config.DEFAULT_AGENTS /\
  exists agents,
    AgentManager.heap (AgentManager.load_agents "agents.txt" initial_state).2
      !! (AgentManager.load_agents "agents.txt" initial_state).1 = Some agents /\
    agents <> [].
Proof.
  split; [reflexivity|].
  destruct (AgentManagerFacts.load_agents_never_empty "agents.txt" initial_state eq_refl)
    as (agents & H1 & H2 & _).
  exists agents. split; assumption.
Defined.

Example load_agents_blank_file :
  let st :=
    {| AgentManager.os :=
         {| OS.files := <["agents.txt" := OS.lines_text [" "; ""]]> ∅;
            OS.read_fault := ∅; OS.write_fault := ∅; OS.console := [] |};
       AgentManager.heap := AgentManager.initial_heap |} in
  AgentManager.heap (AgentManager.load_agents "agents.txt" st).2
    !! (AgentManager.load_agents "agents.txt" st).1 = Some Config.DEFAULT_AGENTS.
Proof. vm_compute. reflexivity. Qed.

Example demo_float_ex :
  map Demo.float_of_str ["25000.0"; "-1000.50"; "abc"; "50"] =
  [Some 25000%Q; Some (- (2001 # 2))%Q; None; Some 50%Q].
Proof. reflexivity. Qed.

Example demo_repr_ex : Demo.float_repr 25000 = "25000.0".
Proof. reflexivity. Qed.

Module ReadFailureFacts.
Import PyStr OS.

Lemma read_fails_exists_or_missing path w e :
  read_text path w = Raise e ->
  (files w !! path = None /\ e = FileNotFoundError path) \/
  (exists data, files w !! path = Some data /\ read_fault w !! path = Some e).
Proof.
  unfold read_text. destruct (files w !! path) as [data|].
  - destruct (read_fault w !! path) as [e'|] eqn:E; [|discriminate].
    intros [= <-]. right. eauto.
  - intros [= <-]. left. auto.
Qed.

Lemma load_addresses_read_fails path w e :
  read_text path w = Raise e -> fst (AddressManager.load_addresses path w) = [].
Proof.
  intros H. unfold AddressManager.load_addresses. rewrite H.
  destruct (negb (path_exists path w)); reflexivity.
Qed.

Lemma load_products_read_fails f w e :
  read_text Config.PRODUCTS_FILE (ProductsLoader.ensure_products_file w) = Raise e ->
  fst (ProductsLoader.load_products f w) = ∅.
Proof.
  intros H. unfold ProductsLoader.load_products. rewrite H. simpl.
  destruct (ProductsLoader.is_file_not_found e); reflexivity.
Qed.

Lemma import_orders_read_fails f path w e :
  read_text path w = Raise e ->
  CSVHandler.import_orders f path w =
  (Raise e, print ("Error importing orders: " +:+ exn_str e) w).
Proof. intros H. unfold CSVHandler.import_orders. rewrite H. reflexivity. Qed.

(** C3 (amended).  When reading a file fails, the address load returns the
    empty list, the agent load returns a copy of the default agents, and
    the product load (whose read comes after the creation of a missing
    catalog) returns the empty catalog: none of the three can raise, since
    each returns a plain value.  The order import prints the exception and
    raises it again to its caller. *)
Theorem failed_reads (path : string) (w : world) (e : exn)
    (Hfail : read_text path w = Raise e) :
  fst (AddressManager.load_addresses path w) = [] /\
  (forall h, h !! AgentManager.DEFAULT_AGENTS_ref = Some Config.DEFAULT_AGENTS ->
     let st := {| AgentManager.os := w; AgentManager.heap := h |} in
     AgentManager.heap (AgentManager.load_agents path st).2
       !! (AgentManager.load_agents path st).1 = Some Config.DEFAULT_AGENTS) /\
  (forall f e',
     read_text Config.PRODUCTS_FILE (ProductsLoader.ensure_products_file w) = Raise e' ->
     fst (ProductsLoader.load_products f w) = ∅) /\
  (forall f, fst (CSVHandler.import_orders f path w) = Raise e) /\
  (forall f, console (snd (CSVHandler.import_orders f path w)) =
             console w ++ ["Error importing orders: " +:+ exn_str e]).
Proof.
  split; [eapply load_addresses_read_fails, Hfail|].
  split.
  { intros h Hh st.
    apply (AgentManagerFacts.load_agents_read_fails path st e Hh Hfail). }
  split; [intros f e'; apply load_products_read_fails|].
  split; intros f; rewrite (import_orders_read_fails f path w e Hfail); reflexivity.
Qed.

Lemma failed_reads_witness :
  read_text "orders.csv" unreadable_world = Raise (PermissionError "orders.csv") /\
  fst (AddressManager.load_addresses "orders.csv" unreadable_world) = [] /\
  fst (CSVHandler.import_orders Demo.float_of_str "orders.csv" unreadable_world) =
    Raise (PermissionError "orders.csv").
Proof.
  split; [reflexivity|].
  pose proof (failed_reads "orders.csv" unreadable_world (PermissionError "orders.csv") eq_refl)
    as (H1 & _ & _ & H4 & _).
  split; [exact H1|apply H4].
Defined.

(** C3 as stated fails for the order import: on a file that cannot be read
    it returns no collection at all and raises to its caller. *)
Lemma import_orders_raises :
  read_text "orders.csv" unreadable_world = Raise (PermissionError "orders.csv") /\
  fst (CSVHandler.import_orders Demo.float_of_str "orders.csv" unreadable_world) =
    Raise (PermissionError "orders.csv") /\
  ~ returns (fst (CSVHandler.import_orders Demo.float_of_str "orders.csv" unreadable_world)) /\
  fst (CSVHandler.import_orders Demo.float_of_str "missing.csv" empty_world) =
    Raise (FileNotFoundError "missing.csv").
Proof.
  split; [reflexivity|]. split; [reflexivity|]. split; [|reflexivity].
  intros [rows H]. discriminate.
Qed.

End ReadFailureFacts.

Module JsonFacts.
Import PyStr PyStrFacts StripFacts PyNum PyNumFacts Json.

(** *** Strings *)

Lemma scanstring_escape_char c tail acc :
  scanstring (escape_char c +:+ tail) acc = scanstring tail (acc +:+ String c EmptyString).
Proof. destruct c as [[] [] [] [] [] [] [] []]; reflexivity. Qed.

Lemma scanstring_escape s : forall acc rest,
  scanstring (escape_chars s +:+ String DQUOTE rest) acc = Ret (acc +:+ s, rest).
Proof.
  induction s as [|c s IH]; intros acc rest.
  - simpl. rewrite app_empty_r. reflexivity.
  - cbn [escape_chars]. rewrite app_assoc_str, scanstring_escape_char, IH.
    rewrite app_assoc_str. reflexivity.
Qed.

Lemma encode_basestring_scan s rest :
  scanstring (escape_chars s +:+ String DQUOTE rest) EmptyString = Ret (s, rest).
Proof. apply scanstring_escape. Qed.

Lemma escape_char_printable c : forallb_str printable (escape_char c) = true.
Proof. destruct c as [[] [] [] [] [] [] [] []]; reflexivity. Qed.

Lemma escape_chars_printable s : forallb_str printable (escape_chars s) = true.
Proof.
  induction s as [|c s IH]; [reflexivity|]. cbn [escape_chars].
  rewrite forallb_str_app, escape_char_printable, IH. reflexivity.
Qed.

(** *** Spans *)

Lemma span_app p a rest :
  match rest with String c _ => p c = false | EmptyString => True end ->
  span p (a +:+ rest) = ((span p a).1, (span p a).2 +:+ rest).
Proof.
  intros Hrest. induction a as [|c a IH]; simpl.
  - destruct rest as [|d r]; [reflexivity|]. simpl. rewrite Hrest. reflexivity.
  - destruct (p c); [|reflexivity]. rewrite IH. destruct (span p a). reflexivity.
Qed.

Lemma span_all p a : forallb_str p a = true -> span p a = (a, EmptyString).
Proof.
  induction a as [|c a IH]; simpl; [reflexivity|]. intros H.
  apply andb_true_iff in H as [Hc Ha]. rewrite Hc, (IH Ha). reflexivity.
Qed.

Lemma span_whole p s : (span p s).1 +:+ (span p s).2 = s.
Proof.
  induction s as [|c s IH]; simpl; [reflexivity|].
  destruct (p c); [|reflexivity]. destruct (span p s). simpl in *. rewrite IH. reflexivity.
Qed.

Lemma span_fst p s : forallb_str p (span p s).1 = true.
Proof.
  induction s as [|c s IH]; simpl; [reflexivity|].
  destruct (p c) eqn:Hc; [|reflexivity]. destruct (span p s). simpl in *.
  rewrite Hc, IH. reflexivity.
Qed.

(** *** Numbers *)

Lemma closes_head rest :
  closes rest = true ->
  match rest with
  | String c _ => c = ","%char \/ c = "]"%char \/ c = "}"%char
  | EmptyString => True
  end.
Proof.
  destruct rest as [|c r]; [auto|]. simpl. intros H.
  apply orb_true_iff in H as [H|H]; [apply orb_true_iff in H as [H|H]|];
    apply Ascii.eqb_eq in H; auto.
Qed.

Lemma closes_not p rest :
  p ","%char = false -> p "]"%char = false -> p "}"%char = false ->
  closes rest = true ->
  match rest with String c _ => p c = false | EmptyString => True end.
Proof.
  intros H1 H2 H3 H. apply closes_head in H. destruct rest as [|c r]; [exact I|].
  destruct H as [->|[->| ->]]; assumption.
Qed.

Lemma take_sign_app signs t rest :
  match rest with String c _ => signs c = false | EmptyString => True end ->
  take_sign signs (t +:+ rest) = ((take_sign signs t).1, (take_sign signs t).2 +:+ rest).
Proof.
  intros Hrest. destruct t as [|c t]; simpl.
  - destruct rest as [|d r]; [reflexivity|]. simpl. rewrite Hrest. reflexivity.
  - destruct (signs c); reflexivity.
Qed.

Lemma scan_integer_app t rest :
  closes rest = true ->
  scan_integer (t +:+ rest) = option_map (extend2 rest) (scan_integer t).
Proof.
  intros Hc. unfold scan_integer.
  rewrite (take_sign_app (Ascii.eqb "-") t rest)
    by (apply closes_not; auto).
  destruct (take_sign (Ascii.eqb "-") t) as [sign s1]. cbn [fst snd].
  destruct s1 as [|c r]; simpl.
  - pose proof (closes_not isdigit_char rest eq_refl eq_refl eq_refl Hc) as Hd.
    destruct rest as [|d r]; [reflexivity|]. rewrite Hd. reflexivity.
  - destruct (isdigit_char c) eqn:Hd; [|reflexivity].
    destruct (Ascii.eqb c "0"); [reflexivity|].
    pose proof (span_app isdigit_char r rest
                  (closes_not isdigit_char rest eq_refl eq_refl eq_refl Hc)) as Hs.
    rewrite Hs. destruct (span isdigit_char r). reflexivity.
Qed.

Lemma scan_fraction_app t rest :
  closes rest = true ->
  scan_fraction (t +:+ rest) = extend2 rest (scan_fraction t).
Proof.
  intros Hc. unfold scan_fraction. destruct t as [|c r]; simpl.
  - pose proof (closes_not (fun c => Ascii.eqb c ".") rest eq_refl eq_refl eq_refl Hc) as Hd.
    destruct rest as [|d r]; [reflexivity|]. simpl in Hd. rewrite Hd. reflexivity.
  - destruct (Ascii.eqb c "."); [|reflexivity].
    rewrite (span_app isdigit_char r rest
               (closes_not isdigit_char rest eq_refl eq_refl eq_refl Hc)).
    destruct (span isdigit_char r) as [ds r']. cbn [fst snd].
    destruct (is_empty ds); reflexivity.
Qed.

Lemma scan_exponent_app t rest :
  closes rest = true ->
  scan_exponent (t +:+ rest) = extend2 rest (scan_exponent t).
Proof.
  intros Hc. unfold scan_exponent. destruct t as [|c r]; simpl.
  - pose proof (closes_not (fun c => Ascii.eqb c "e" || Ascii.eqb c "E") rest
                  eq_refl eq_refl eq_refl Hc) as Hd.
    destruct rest as [|d r]; [reflexivity|]. simpl in Hd. rewrite Hd. reflexivity.
  - destruct (Ascii.eqb c "e" || Ascii.eqb c "E"); [|reflexivity].
    rewrite (take_sign_app _ r rest)
      by (apply (closes_not (fun c => Ascii.eqb c "-" || Ascii.eqb c "+")); auto).
    destruct (take_sign _ r) as [sign r1]. cbn [fst snd].
    rewrite (span_app isdigit_char r1 rest
               (closes_not isdigit_char rest eq_refl eq_refl eq_refl Hc)).
    destruct (span isdigit_char r1) as [ds r2]. cbn [fst snd].
    destruct (is_empty ds); reflexivity.
Qed.

(** A number is matched the same way in front of whatever closes it. *)
Lemma match_number_app t rest :
  closes rest = true ->
  match_number (t +:+ rest) =
  match match_number t with
  | Some (i, f, e, r) => Some (i, f, e, r +:+ rest)
  | None => None
  end.
Proof.
  intros Hc. unfold match_number. rewrite (scan_integer_app t rest Hc).
  destruct (scan_integer t) as [[i s2]|]; [|reflexivity]. cbn [option_map extend2 fst snd].
  rewrite (scan_fraction_app s2 rest Hc).
  destruct (scan_fraction s2) as [f s3]. cbn [extend2 fst snd].
  rewrite (scan_exponent_app s3 rest Hc).
  destruct (scan_exponent s3) as [e s4]. reflexivity.
Qed.

Lemma scan_integer_parts t i r : scan_integer t = Some (i, r) -> i +:+ r = t.
Proof.
  unfold scan_integer, take_sign. destruct t as [|c t]; [discriminate|].
  destruct (Ascii.eqb "-" c) eqn:Hm.
  - destruct t as [|d t']; [discriminate|]. destruct (isdigit_char d); [|discriminate].
    destruct (Ascii.eqb d "0") eqn:H0.
    + apply Ascii.eqb_eq in H0. subst d. intros [= <- <-]. reflexivity.
    + pose proof (span_whole isdigit_char (String d t')) as Hw.
      destruct (span isdigit_char (String d t')) as [ds r']. intros [= <- <-].
      cbn [fst snd] in Hw. simpl. rewrite Hw. reflexivity.
  - destruct (isdigit_char c); [|discriminate].
    destruct (Ascii.eqb c "0") eqn:H0.
    + apply Ascii.eqb_eq in H0. subst c. intros [= <- <-]. reflexivity.
    + pose proof (span_whole isdigit_char (String c t)) as Hw.
      destruct (span isdigit_char (String c t)) as [ds r']. intros [= <- <-].
      exact Hw.
Qed.

Lemma scan_fraction_parts s : (scan_fraction s).1 +:+ (scan_fraction s).2 = s.
Proof.
  unfold scan_fraction. destruct s as [|c r]; [reflexivity|].
  destruct (Ascii.eqb c "."); [|reflexivity].
  pose proof (span_whole isdigit_char r) as Hw.
  destruct (span isdigit_char r) as [ds r']. cbn [fst snd] in Hw.
  destruct (is_empty ds); [reflexivity|]. simpl. rewrite Hw. reflexivity.
Qed.

Lemma scan_exponent_parts s : (scan_exponent s).1 +:+ (scan_exponent s).2 = s.
Proof.
  unfold scan_exponent. destruct s as [|c r]; [reflexivity|].
  destruct (Ascii.eqb c "e" || Ascii.eqb c "E"); [|reflexivity].
  assert (Hs : (take_sign (fun c => Ascii.eqb c "-" || Ascii.eqb c "+") r).1 +:+
               (take_sign (fun c => Ascii.eqb c "-" || Ascii.eqb c "+") r).2 = r).
  { unfold take_sign. destruct r as [|d r']; [reflexivity|].
    destruct (Ascii.eqb d "-" || Ascii.eqb d "+"); reflexivity. }
  destruct (take_sign _ r) as [sign r1]. cbn [fst snd] in Hs.
  pose proof (span_whole isdigit_char r1) as Hw.
  destruct (span isdigit_char r1) as [ds r2]. cbn [fst snd] in Hw.
  destruct (is_empty ds); [reflexivity|]. simpl.
  rewrite app_assoc_str, Hw, Hs. reflexivity.
Qed.

(** The groups of a match and the rest make up the text. *)
Lemma match_number_parts t i f e r :
  match_number t = Some (i, f, e, r) -> i +:+ f +:+ e +:+ r = t.
Proof.
  unfold match_number. destruct (scan_integer t) as [[i' s2]|] eqn:Hi; [|discriminate].
  pose proof (scan_fraction_parts s2) as Hf. destruct (scan_fraction s2) as [f' s3].
  pose proof (scan_exponent_parts s3) as He. destruct (scan_exponent s3) as [e' s4].
  intros [= <- <- <- <-]. cbn [fst snd] in *.
  rewrite He, Hf. apply scan_integer_parts, Hi.
Qed.

Lemma match_number_head t x :
  match_number t = Some x -> exists c r, t = String c r /\ number_head c = true.
Proof.
  unfold match_number, scan_integer, take_sign, number_head.
  destruct t as [|c t]; [discriminate|]. intros H. exists c, t. split; [reflexivity|].
  destruct (Ascii.eqb "-" c); [apply orb_true_r|].
  destruct (isdigit_char c); [reflexivity|discriminate].
Qed.

Lemma scan_once_number float_of_str depth c r :
  number_head c = true ->
  scan_once float_of_str depth (String c r) = scan_number float_of_str (String c r).
Proof.
  destruct depth; destruct c as [[] [] [] [] [] [] [] []]; try discriminate; reflexivity.
Qed.

Lemma number_head_not_ws c r : number_head c = true -> skip_ws (String c r) = String c r.
Proof. destruct c as [[] [] [] [] [] [] [] []]; try discriminate; reflexivity. Qed.

(** *** Integers *)

Lemma uint_value_acc d : forall acc,
  digits_value (Z.pos acc) (NilEmpty.string_of_uint d) = Z.pos (Pos.of_uint_acc d acc).
Proof.
  induction d; intros acc; cbn [NilEmpty.string_of_uint digits_value Pos.of_uint_acc];
    [reflexivity|..];
    match goal with
    | |- digits_value ?v _ = Z.pos (Pos.of_uint_acc _ ?a) =>
        replace v with (Z.pos a) by (vm_compute ord; lia)
    end; apply IHd.
Qed.

Lemma uint_value d : digits_value 0 (NilEmpty.string_of_uint d) = Z.of_N (Pos.of_uint d).
Proof.
  induction d; cbn [NilEmpty.string_of_uint digits_value Pos.of_uint];
    [reflexivity|exact IHd|..];
    match goal with
    | |- digits_value ?v _ = Z.of_N (N.pos (Pos.of_uint_acc _ ?a)) =>
        change v with (Z.pos a)
    end; apply uint_value_acc.
Qed.

Lemma pos_uint_head p :
  exists c r, NilEmpty.string_of_uint (Pos.to_uint p) = String c r /\
              isdigit_char c = true /\ Ascii.eqb c "0" = false.
Proof.
  pose proof (DecimalPos.Unsigned.to_of (Pos.to_uint p)) as Hn.
  rewrite DecimalPos.Unsigned.of_to in Hn. cbn [N.to_uint] in Hn.
  pose proof (DecimalPos.Unsigned.to_uint_nonzero p) as Hz.
  destruct (Pos.to_uint p) as [|d|d|d|d|d|d|d|d|d|d] eqn:E;
    try (eexists _, _; split; [reflexivity|split; reflexivity]).
  - exfalso. apply (DecimalPos.Unsigned.to_uint_nonnil p). exact E.
  - exfalso. rewrite DecimalFacts.unorm_D0 in Hn.
    destruct (Decimal.nzhead d) eqn:Hh;
      try (rewrite DecimalFacts.unorm_nzhead in Hn by congruence;
           rewrite Hh in Hn; discriminate).
    + apply Hz. assert (Hu : Decimal.unorm d = Decimal.zero)
        by (apply DecimalFacts.unorm_0; exact Hh).
      rewrite Hu in Hn. exact Hn.
    + exact (DecimalFacts.nzhead_nonzero d _ Hh).
Qed.

Lemma rstrip_by_none p s :
  forallb_str (fun c => negb (p c)) s = true -> rstrip_by p s = s.
Proof.
  induction s as [|c s IH]; simpl; [reflexivity|]. intros H.
  apply andb_true_iff in H as [Hc Hs]. apply negb_true_iff in Hc.
  rewrite (IH Hs), Hc. destruct s; reflexivity.
Qed.

Lemma strip_none s : forallb_str not_space s = true -> strip s = s.
Proof.
  intros H. unfold strip.
  assert (E : lstrip_by isspace s = s).
  { destruct s as [|c r]; [reflexivity|]. simpl in *.
    apply andb_true_iff in H as [Hc _]. apply negb_true_iff in Hc. rewrite Hc. reflexivity. }
  rewrite E. apply rstrip_by_none, H.
Qed.

Lemma int_body_ok_digits ds : forall prev,
  forallb_str isdigit_char ds = true -> (ds <> EmptyString \/ prev = true) ->
  int_body_ok prev ds = true.
Proof.
  induction ds as [|c r IH]; intros prev Hd Hne; simpl.
  - destruct Hne as [Hne|Hne]; [contradiction|exact Hne].
  - simpl in Hd. apply andb_true_iff in Hd as [Hc Hr]. rewrite Hc.
    apply IH; [exact Hr|right; reflexivity].
Qed.

Lemma drop_underscores_digits ds :
  forallb_str isdigit_char ds = true -> drop_underscores ds = ds.
Proof.
  intros H. unfold drop_underscores. rewrite replace_char_filter.
  apply forallb_str_filter_keep. revert H. apply OSFacts.forallb_str_impl.
  intros c Hc. destruct c as [[] [] [] [] [] [] [] []]; try discriminate; reflexivity.
Qed.

Lemma digits_not_space ds :
  forallb_str isdigit_char ds = true -> forallb_str not_space ds = true.
Proof.
  apply OSFacts.forallb_str_impl. intros c Hc.
  destruct c as [[] [] [] [] [] [] [] []]; try discriminate; reflexivity.
Qed.

Lemma int_of_str_digits ds :
  forallb_str isdigit_char ds = true -> ds <> EmptyString ->
  int_of_str ds = Ret (digits_value 0 ds).
Proof.
  intros Hd Hne. unfold int_of_str. rewrite (strip_none ds (digits_not_space ds Hd)).
  pose proof (int_body_ok_digits ds false Hd (or_introl Hne)) as Hb.
  pose proof (drop_underscores_digits ds Hd) as Hu.
  destruct ds as [|c r]; [contradiction|].
  assert (Hc : isdigit_char c = true) by (simpl in Hd; apply andb_true_iff in Hd as [H _]; exact H).
  destruct c as [[] [] [] [] [] [] [] []]; try discriminate Hc;
    cbv iota beta; rewrite Hb, Hu; reflexivity.
Qed.

Lemma int_of_str_minus ds :
  forallb_str isdigit_char ds = true -> ds <> EmptyString ->
  int_of_str (String "-" ds) = Ret (- digits_value 0 ds)%Z.
Proof.
  intros Hd Hne. unfold int_of_str.
  rewrite (strip_none (String "-" ds))
    by (cbn [forallb_str]; rewrite (digits_not_space ds Hd); reflexivity).
  cbv iota beta.
  rewrite (int_body_ok_digits ds false Hd (or_introl Hne)), (drop_underscores_digits ds Hd).
  reflexivity.
Qed.

Lemma str_of_int_pos p :
  str_of_int (Z.pos p) = NilEmpty.string_of_uint (Pos.to_uint p).
Proof.
  unfold str_of_int. cbn [Z.to_int NilZero.string_of_int NilZero.string_of_uint].
  destruct (Pos.to_uint p) eqn:E; try reflexivity.
  exfalso. apply (DecimalPos.Unsigned.to_uint_nonnil p E).
Qed.

Lemma str_of_int_neg p :
  str_of_int (Z.neg p) = String "-" (NilEmpty.string_of_uint (Pos.to_uint p)).
Proof.
  unfold str_of_int. cbn [Z.to_int NilZero.string_of_int NilZero.string_of_uint].
  destruct (Pos.to_uint p) eqn:E; try reflexivity.
  exfalso. apply (DecimalPos.Unsigned.to_uint_nonnil p E).
Qed.

Lemma pos_uint_value p :
  digits_value 0 (NilEmpty.string_of_uint (Pos.to_uint p)) = Z.pos p.
Proof. rewrite uint_value, DecimalPos.Unsigned.of_to. reflexivity. Qed.

Lemma pos_uint_not_empty p : NilEmpty.string_of_uint (Pos.to_uint p) <> EmptyString.
Proof. destruct (pos_uint_head p) as (c & r & E & _). rewrite E. discriminate. Qed.

(** [int] reads back what [str] writes. *)
Lemma int_of_str_of_int n : int_of_str (str_of_int n) = Ret n.
Proof.
  destruct n as [|p|p].
  - reflexivity.
  - rewrite str_of_int_pos, int_of_str_digits, pos_uint_value;
      [reflexivity|apply uint_digits|apply pos_uint_not_empty].
  - rewrite str_of_int_neg, int_of_str_minus, pos_uint_value;
      [reflexivity|apply uint_digits|apply pos_uint_not_empty].
Qed.

Lemma match_number_digits ds c r :
  ds = String c r -> forallb_str isdigit_char ds = true -> Ascii.eqb c "0" = false ->
  match_number ds = Some (ds, EmptyString, EmptyString, EmptyString) /\
  match_number (String "-" ds) = Some (String "-" ds, EmptyString, EmptyString, EmptyString).
Proof.
  intros -> Hd H0.
  assert (Hc : isdigit_char c = true) by (simpl in Hd; apply andb_true_iff in Hd as [H _]; exact H).
  assert (Hm : Ascii.eqb "-" c = false)
    by (destruct c as [[] [] [] [] [] [] [] []]; try discriminate Hc; reflexivity).
  split.
  - unfold match_number, scan_integer, take_sign.
    rewrite Hm, Hc, H0, (span_all _ _ Hd). reflexivity.
  - unfold match_number, scan_integer.
    change (take_sign (Ascii.eqb "-") (String "-" (String c r)))
      with (String "-" EmptyString, String c r).
    cbv iota beta. rewrite Hc, H0, (span_all _ _ Hd). reflexivity.
Qed.

Lemma match_number_str_of_int n :
  match_number (str_of_int n) = Some (str_of_int n, EmptyString, EmptyString, EmptyString).
Proof.
  destruct n as [|p|p]; [reflexivity|..];
    destruct (pos_uint_head p) as (c & r & E & Hc & H0);
    destruct (match_number_digits _ c r E (uint_digits _) H0) as [H1 H2].
  - rewrite str_of_int_pos. exact H1.
  - rewrite str_of_int_neg. exact H2.
Qed.

(** The digits of the text of an [int] are the text of its magnitude. *)
Lemma unsigned_str_of_int n : unsigned (str_of_int n) = str_of_int (Z.abs n).
Proof.
  assert (Hd : forall p, unsigned (NilEmpty.string_of_uint (Pos.to_uint p)) =
                         NilEmpty.string_of_uint (Pos.to_uint p)).
  { intros p. destruct (pos_uint_head p) as (c & r & -> & Hc & _).
    unfold unsigned. cbn [lstrip_by].
    replace (Ascii.eqb "-" c) with false
      by (destruct c as [[] [] [] [] [] [] [] []]; try discriminate Hc; reflexivity).
    reflexivity. }
  destruct n as [|p|p]; [reflexivity|..].
  - change (Z.abs (Z.pos p)) with (Z.pos p). rewrite str_of_int_pos. apply Hd.
  - change (Z.abs (Z.neg p)) with (Z.pos p). rewrite str_of_int_neg, str_of_int_pos.
    unfold unsigned. cbn [lstrip_by].
    change (Ascii.eqb "-" "-") with true. cbv iota. apply Hd.
Qed.

(** [int] reads the text of an [int] within the digit limit. *)
Lemma int_of_token_of_int n :
  Limits.convertible n -> int_of_token (str_of_int n) = Ret n.
Proof.
  unfold Limits.convertible, Limits.int_digits, int_of_token. intros Hn.
  rewrite unsigned_str_of_int.
  replace (Limits.INT_MAX_STR_DIGITS <? String.length (str_of_int (Z.abs n)))%nat
    with false by (symmetry; apply Nat.ltb_ge, Hn).
  apply int_of_str_of_int.
Qed.

(** *** Values *)

Section Roundtrip.
Variable float_repr : Q -> string.
Variable float_of_str : string -> option Q.

Abbreviation scan := (scan_once float_of_str).
Abbreviation dumps := (Json.dumps float_repr).
Abbreviation member_text := (Json.member_text float_repr).

Lemma encodes_str depth s : encodes (scan depth) (encode_basestring_ascii s) (PyStr s).
Proof.
  intros rest _. unfold encode_basestring_ascii. split; [|reflexivity].
  cbn [String.append]. rewrite app_assoc_str. cbn [String.append].
  destruct depth; cbn [scan_once];
    change (Ascii.eqb DQUOTE DQUOTE) with true; cbv iota;
    rewrite encode_basestring_scan; reflexivity.
Qed.

Lemma encodes_int depth n :
  Limits.convertible n -> encodes (scan depth) (str_of_int n) (PyInt n).
Proof.
  intros Hn rest Hc. pose proof (match_number_str_of_int n) as Hm.
  destruct (match_number_head _ _ Hm) as (c & r & E & Hh).
  split.
  - rewrite E. cbn [String.append]. rewrite scan_once_number by exact Hh.
    change (String c (r +:+ rest)) with (String c r +:+ rest). rewrite <- E.
    unfold scan_number. rewrite (match_number_app _ _ Hc), Hm. cbn [truthy is_empty negb orb].
    rewrite int_of_token_of_int by exact Hn. reflexivity.
  - rewrite E. cbn [String.append]. apply number_head_not_ws, Hh.
Qed.

Lemma encodes_float depth x :
  float_ok float_repr float_of_str x -> encodes (scan depth) (floatstr float_repr x) (PyFloat x).
Proof.
  destruct x as [q| |[]]; cbn [float_ok floatstr].
  - intros [Ht Hf] rest Hc. unfold float_token in Ht.
    destruct (match_number (float_repr q)) as [[[[i f] e] r]|] eqn:Hm; [|discriminate].
    destruct r; [|discriminate].
    pose proof (match_number_parts _ _ _ _ _ Hm) as Hp. rewrite app_empty_r in Hp.
    destruct (match_number_head _ _ Hm) as (c & r & E & Hh).
    split.
    + rewrite E. cbn [String.append]. rewrite scan_once_number by exact Hh.
      change (String c (r +:+ rest)) with (String c r +:+ rest). rewrite <- E.
      unfold scan_number, float_of_token.
      rewrite (match_number_app _ _ Hc), Hm, Ht, Hp, Hf. reflexivity.
    + rewrite E. cbn [String.append]. apply number_head_not_ws, Hh.
  - intros _ rest _. split; [destruct depth|]; reflexivity.
  - intros _ rest _. split; [destruct depth|]; reflexivity.
  - intros _ rest _. split; [destruct depth|]; reflexivity.
Qed.

Lemma members_not_ws kv d tail :
  skip_ws (join ", " (map member_text (kv :: d)) +:+ tail) =
  join ", " (map member_text (kv :: d)) +:+ tail.
Proof. destruct d; reflexivity. Qed.

Lemma parse_members_encoded sc (d : list (string * pyobj)) : forall n pairs rest,
  d <> [] -> (length d <= n)%nat ->
  Forall (fun kv => encodes sc (dumps kv.2) kv.2) d ->
  parse_members sc n (join ", " (map member_text d) +:+ String "}" rest) pairs =
  Ret (PyDict (dict_of_pairs (pairs ++ d)), rest).
Proof.
  induction d as [|[k v] d IH]; intros n pairs rest Hne Hn Hd; [contradiction|].
  inversion Hd as [|? ? Hv Hd']; subst. cbn [fst snd] in Hv.
  destruct n as [|n]; [simpl in Hn; lia|].
  assert (Hstep : forall tail, closes tail = true ->
            parse_members sc (S n) (member_text (k, v) +:+ tail) pairs =
            match skip_ws tail with
            | String "}" r3 => Ret (PyDict (dict_of_pairs (pairs ++ [(k, v)])), r3)
            | String "," r3 => parse_members sc n (skip_ws r3) (pairs ++ [(k, v)])
            | _ => Raise (JSONDecodeError "Expecting ',' delimiter")
            end).
  { intros tail Ht. unfold Json.member_text, encode_basestring_ascii. cbn [fst snd].
    rewrite !app_assoc_str. cbn [String.append parse_members].
    change (Ascii.eqb DQUOTE DQUOTE) with true. cbv iota.
    rewrite app_assoc_str. cbn [String.append].
    rewrite encode_basestring_scan. cbn [mbind res_bind].
    change (skip_ws (String ":" ?x)) with (String ":" x). cbv iota beta.
    change (skip_ws (String " " ?x)) with (skip_ws x).
    destruct (Hv tail Ht) as [Hs Hw]. rewrite Hw, Hs. reflexivity. }
  destruct d as [|kv' d'].
  - cbn [map join]. rewrite Hstep by reflexivity. reflexivity.
  - change (join ", " (map member_text ((k, v) :: kv' :: d')))
      with (member_text (k, v) +:+ ", " +:+ join ", " (map member_text (kv' :: d'))).
    rewrite !app_assoc_str. rewrite Hstep by reflexivity.
    cbn [String.append]. change (skip_ws (String "," ?x)) with (String "," x). cbv iota beta.
    change (skip_ws (String " " ?x)) with (skip_ws x).
    rewrite members_not_ws.
    rewrite IH; [|discriminate|simpl in *; lia|exact Hd'].
    rewrite <- app_assoc. reflexivity.
Qed.

Lemma items_not_ws sc (v : pyobj) l tail :
  encodes sc (dumps v) v ->
  closes tail = true ->
  skip_ws (join ", " (map dumps (v :: l)) +:+ tail) =
  join ", " (map dumps (v :: l)) +:+ tail.
Proof.
  intros Hv Ht. destruct l as [|v' l].
  - cbn [map join]. apply (Hv tail Ht).
  - change (join ", " (map dumps (v :: v' :: l)))
      with (dumps v +:+ ", " +:+ join ", " (map dumps (v' :: l))).
    rewrite !app_assoc_str.
    exact (proj2 (Hv (", " +:+ join ", " (map dumps (v' :: l)) +:+ tail) eq_refl)).
Qed.

Lemma parse_items_encoded sc (l : list pyobj) : forall n acc rest,
  l <> [] -> (length l <= n)%nat ->
  Forall (fun v => encodes sc (dumps v) v) l ->
  parse_items sc n (join ", " (map dumps l) +:+ String "]" rest) acc =
  Ret (PyList (acc ++ l), rest).
Proof.
  induction l as [|v l IH]; intros n acc rest Hne Hn Hl; [contradiction|].
  inversion Hl as [|? ? Hv Hl']; subst.
  destruct n as [|n]; [simpl in Hn; lia|].
  destruct l as [|v' l'].
  - cbn [map join parse_items]. destruct (Hv (String "]" rest) eq_refl) as [Hs _].
    rewrite Hs. reflexivity.
  - change (join ", " (map dumps (v :: v' :: l')))
      with (dumps v +:+ ", " +:+ join ", " (map dumps (v' :: l'))).
    rewrite !app_assoc_str. cbn [parse_items].
    destruct (Hv (", " +:+ join ", " (map dumps (v' :: l')) +:+ String "]" rest) eq_refl)
      as [Hs _].
    rewrite Hs. cbn [mbind res_bind String.append].
    change (skip_ws (String "," ?x)) with (String "," x). cbv iota beta.
    change (skip_ws (String " " ?x)) with (skip_ws x).
    inversion Hl' as [|? ? Hv' _]; subst.
    rewrite (items_not_ws sc v' l' (String "]" rest) Hv' eq_refl).
    rewrite IH; [|discriminate|simpl in *; lia|exact Hl'].
    rewrite <- app_assoc. reflexivity.
Qed.

Lemma str_length_app a b : String.length (a +:+ b) = (String.length a + String.length b)%nat.
Proof. induction a as [|c a IH]; simpl; [reflexivity|]. rewrite IH. reflexivity. Qed.

(** A text has at least as many characters as the non-empty items it
    joins. *)
Lemma join_items_length sep (l : list string) :
  Forall (fun x => x <> EmptyString) l -> (length l <= String.length (join sep l))%nat.
Proof.
  induction 1 as [|x l Hx Hl IH]; [simpl; lia|].
  assert (1 <= String.length x)%nat by (destruct x; [contradiction|simpl; lia]).
  destruct l as [|y l']; [simpl in *; lia|].
  change (join sep (x :: y :: l')) with (x +:+ sep +:+ join sep (y :: l')).
  rewrite !str_length_app. simpl length in *. lia.
Qed.

(** A non-empty object is read back, with its keys in dictionary form. *)
Lemma encodes_dict depth (d : list (string * pyobj)) :
  d <> [] ->
  Forall (fun kv => encodes (scan depth) (dumps kv.2) kv.2) d ->
  encodes (scan (S depth)) (dumps (PyDict d)) (PyDict (dict_of_pairs d)).
Proof.
  intros Hne Hd rest Hc. split; [|reflexivity].
  destruct d as [|kv d]; [contradiction|].
  change (dumps (PyDict (kv :: d)))
    with ("{" +:+ join ", " (map (member_text) (kv :: d)) +:+ "}").
  rewrite !app_assoc_str. cbn [String.append scan_once].
  change (Ascii.eqb "{" DQUOTE) with false. change (Ascii.eqb "{" "{") with true. cbv iota.
  rewrite members_not_ws.
  assert (Hhead : exists t, join ", " (map member_text (kv :: d)) +:+ String "}" rest
                            = String DQUOTE t)
    by (destruct d; eexists; reflexivity).
  destruct Hhead as [t Hhead]. rewrite Hhead.
  change (parse_members (scan depth) (S (String.length (String DQUOTE t))) (String DQUOTE t) []
          = Ret (PyDict (dict_of_pairs (kv :: d)), rest)).
  rewrite <- Hhead.
  apply (parse_members_encoded (scan depth) (kv :: d) _ [] rest Hne); [|exact Hd].
  rewrite str_length_app.
  assert (Hm : Forall (fun x => x <> EmptyString) (map member_text (kv :: d))).
  { apply Forall_map, Forall_forall. intros x _. discriminate. }
  pose proof (join_items_length ", " _ Hm) as Hl. rewrite length_map in Hl. lia.
Qed.

(** A non-empty array of objects is read back. *)
Lemma encodes_list depth (l : list pyobj) :
  l <> [] ->
  Forall (fun v => encodes (scan depth) (dumps v) v) l ->
  (forall v, In v l -> exists t, dumps v = String "{" t) ->
  encodes (scan (S depth)) (dumps (PyList l)) (PyList l).
Proof.
  intros Hne Hl Hobj rest Hc. split; [|reflexivity].
  destruct l as [|v l]; [contradiction|].
  change (dumps (PyList (v :: l))) with ("[" +:+ join ", " (map dumps (v :: l)) +:+ "]").
  rewrite !app_assoc_str. cbn [String.append scan_once].
  change (Ascii.eqb "[" DQUOTE) with false. change (Ascii.eqb "[" "{") with false.
  change (Ascii.eqb "[" "[") with true. cbv iota.
  inversion Hl as [|? ? Hv _]; subst.
  rewrite (items_not_ws (scan depth) v l (String "]" rest) Hv eq_refl).
  destruct (Hobj v (or_introl eq_refl)) as [t Ht].
  assert (Hhead : exists t', join ", " (map dumps (v :: l)) +:+ String "]" rest
                             = String "{" t').
  { destruct l; cbn [map join]; rewrite Ht; eexists; reflexivity. }
  destruct Hhead as [t' Hhead]. rewrite Hhead.
  change (parse_items (scan depth) (S (String.length (String "{" t'))) (String "{" t') []
          = Ret (PyList (v :: l), rest)).
  rewrite <- Hhead.
  apply (parse_items_encoded (scan depth) (v :: l) _ [] rest Hne); [|exact Hl].
  rewrite str_length_app.
  assert (Hm : Forall (fun x => x <> EmptyString) (map dumps (v :: l))).
  { apply Forall_map, Forall_forall. intros x Hx. apply list_elem_of_In in Hx.
    destruct (Hobj x Hx) as [tx ->]. discriminate. }
  pose proof (join_items_length ", " _ Hm) as Hlen. rewrite length_map in Hlen. lia.
Qed.

(** *** Order lines *)

Abbreviation line_ok := (CSVHandler.line_ok float_repr float_of_str).

Lemma encodes_line depth (l : Models.OrderLine) :
  line_ok l ->
  encodes (scan (S depth)) (dumps (CSVHandler.line_data l)) (CSVHandler.line_data l).
Proof.
  intros (Hq & Hu & Ht). unfold CSVHandler.line_data.
  match goal with
  | |- encodes _ (dumps (PyDict ?d)) _ =>
      change (encodes (scan (S depth)) (dumps (PyDict d)) (PyDict (dict_of_pairs d)))
  end.
  apply encodes_dict; [discriminate|].
  constructor; [apply encodes_str|].
  constructor; [apply encodes_int, Hq|].
  constructor; [apply encodes_float, Hu|].
  constructor; [apply encodes_float, Ht|].
  constructor.
Qed.

Lemma line_text_head (l : Models.OrderLine) :
  exists t, dumps (CSVHandler.line_data l) = String "{" (String DQUOTE (String "p" t)).
Proof. eexists. reflexivity. Qed.

(** [loads] reads back the order lines that [dumps] wrote. *)
Lemma loads_lines (lines : list Models.OrderLine) :
  lines <> [] -> Forall line_ok lines ->
  loads float_of_str (dumps (PyList (map CSVHandler.line_data lines))) =
  Ret (PyList (map CSVHandler.line_data lines)).
Proof.
  intros Hne Hok. unfold loads.
  set (objs := map CSVHandler.line_data lines).
  assert (Henc : encodes (scan Limits.RECURSION_LIMIT) (dumps (PyList objs)) (PyList objs)).
  { change Limits.RECURSION_LIMIT with (S (S 998)). apply encodes_list.
    - subst objs. destruct lines; [contradiction|discriminate].
    - subst objs. apply Forall_map, Forall_forall. intros l Hl.
      apply encodes_line. rewrite Forall_forall in Hok. apply Hok, Hl.
    - subst objs. intros v Hv. apply in_map_iff in Hv as (l & <- & _).
      destruct (line_text_head l) as [t ->]. eexists. reflexivity. }
  destruct (Henc EmptyString eq_refl) as [Hs Hw]. rewrite app_empty_r in Hs, Hw.
  rewrite Hw, Hs. reflexivity.
Qed.

(** *** The characters of the written text *)

Lemma digits_printable ds :
  forallb_str isdigit_char ds = true -> forallb_str printable ds = true.
Proof.
  apply OSFacts.forallb_str_impl. intros c Hc.
  destruct c as [[] [] [] [] [] [] [] []]; try discriminate; reflexivity.
Qed.

Lemma take_sign_printable signs s :
  (forall c, signs c = true -> printable c = true) ->
  forallb_str printable (take_sign signs s).1 = true.
Proof.
  intros H. unfold take_sign. destruct s as [|c r]; [reflexivity|].
  destruct (signs c) eqn:Hc; [|reflexivity]. simpl. rewrite (H c Hc). reflexivity.
Qed.

Lemma scan_integer_printable t i r :
  scan_integer t = Some (i, r) -> forallb_str printable i = true.
Proof.
  unfold scan_integer.
  pose proof (take_sign_printable (Ascii.eqb "-") t) as Hs.
  destruct (take_sign (Ascii.eqb "-") t) as [sign s1]. cbn [fst] in Hs.
  destruct s1 as [|c s]; [discriminate|]. destruct (isdigit_char c) eqn:Hc; [|discriminate].
  assert (Hsign : forallb_str printable sign = true).
  { apply Hs. intros x Hx. apply Ascii.eqb_eq in Hx. subst x. reflexivity. }
  destruct (Ascii.eqb c "0").
  - intros [= <- <-]. rewrite forallb_str_app, Hsign. reflexivity.
  - pose proof (span_fst isdigit_char (String c s)) as Hd.
    destruct (span isdigit_char (String c s)) as [ds r']. intros [= <- <-].
    rewrite forallb_str_app, Hsign. apply digits_printable, Hd.
Qed.

Lemma scan_fraction_printable s : forallb_str printable (scan_fraction s).1 = true.
Proof.
  unfold scan_fraction. destruct s as [|c r]; [reflexivity|].
  destruct (Ascii.eqb c ".") eqn:Hc; [|reflexivity].
  pose proof (span_fst isdigit_char r) as Hd.
  destruct (span isdigit_char r) as [ds r']. destruct (is_empty ds); [reflexivity|].
  apply Ascii.eqb_eq in Hc. subst c. cbn [fst forallb_str] in *.
  rewrite (digits_printable _ Hd). reflexivity.
Qed.

Lemma scan_exponent_printable s : forallb_str printable (scan_exponent s).1 = true.
Proof.
  unfold scan_exponent. destruct s as [|c r]; [reflexivity|].
  destruct (Ascii.eqb c "e" || Ascii.eqb c "E") eqn:Hc; [|reflexivity].
  pose proof (take_sign_printable (fun c => Ascii.eqb c "-" || Ascii.eqb c "+") r) as Hs.
  destruct (take_sign _ r) as [sign r1]. cbn [fst] in Hs.
  pose proof (span_fst isdigit_char r1) as Hd.
  destruct (span isdigit_char r1) as [ds r2]. destruct (is_empty ds); [reflexivity|].
  cbn [fst String.append forallb_str] in *.
  rewrite forallb_str_app, (digits_printable _ Hd), Hs.
  - apply orb_true_iff in Hc as [Hc|Hc]; apply Ascii.eqb_eq in Hc; subst c; reflexivity.
  - intros x Hx. apply orb_true_iff in Hx as [Hx|Hx]; apply Ascii.eqb_eq in Hx; subst x;
      reflexivity.
Qed.

Lemma float_token_printable t : float_token t = true -> forallb_str printable t = true.
Proof.
  unfold float_token. destruct (match_number t) as [[[[i f] e] r]|] eqn:Hm; [|discriminate].
  destruct r; [|discriminate]. intros _.
  pose proof (match_number_parts _ _ _ _ _ Hm) as Hp. rewrite app_empty_r in Hp.
  unfold match_number in Hm.
  destruct (scan_integer t) as [[i' s2]|] eqn:Hi; [|discriminate].
  pose proof (scan_fraction_printable s2) as Hf. destruct (scan_fraction s2) as [f' s3].
  pose proof (scan_exponent_printable s3) as He. destruct (scan_exponent s3) as [e' s4].
  injection Hm as <- <- <- _. cbn [fst] in *.
  rewrite <- Hp, !forallb_str_app, (scan_integer_printable _ _ _ Hi), Hf, He. reflexivity.
Qed.

Lemma str_of_int_printable n : forallb_str printable (str_of_int n) = true.
Proof.
  destruct n as [|p|p]; [reflexivity|..].
  - rewrite str_of_int_pos. apply digits_printable, uint_digits.
  - rewrite str_of_int_neg. cbn [forallb_str].
    rewrite (digits_printable _ (uint_digits _)). reflexivity.
Qed.

Lemma encode_printable s : forallb_str printable (encode_basestring_ascii s) = true.
Proof.
  unfold encode_basestring_ascii. cbn [forallb_str].
  rewrite forallb_str_app, escape_chars_printable. reflexivity.
Qed.

Lemma join_printable sep (l : list string) :
  forallb_str printable sep = true ->
  Forall (fun x => forallb_str printable x = true) l ->
  forallb_str printable (join sep l) = true.
Proof.
  intros Hsep. induction 1 as [|x l Hx Hl IH]; [reflexivity|].
  destruct l as [|y l']; [exact Hx|].
  change (join sep (x :: y :: l')) with (x +:+ sep +:+ join sep (y :: l')).
  rewrite !forallb_str_app, Hx, Hsep, IH. reflexivity.
Qed.

Lemma floatstr_printable x :
  float_ok float_repr float_of_str x -> forallb_str printable (floatstr float_repr x) = true.
Proof.
  destruct x as [q| |[]]; cbn [float_ok floatstr]; [|reflexivity..].
  intros [Hq _]. apply float_token_printable, Hq.
Qed.

Lemma line_printable (l : Models.OrderLine) :
  line_ok l -> forallb_str printable (dumps (CSVHandler.line_data l)) = true.
Proof.
  intros (_ & Hu & Ht).
  change (dumps (CSVHandler.line_data l))
    with ("{" +:+ join ", " (map member_text
            [ ("product_code", PyStr (Models.product_code l));
              ("quantity", PyInt (Models.quantity l));
              ("unit_price", PyFloat (Models.unit_price l));
              ("line_total", PyFloat (Models.line_total l)) ]) +:+ "}").
  rewrite !forallb_str_app. rewrite join_printable; [reflexivity|reflexivity|].
  repeat (apply List.Forall_cons || apply List.Forall_nil);
    unfold Json.member_text; cbn [fst snd dumps];
    rewrite !forallb_str_app, encode_printable; cbn [andb forallb_str];
    rewrite ?andb_true_r.
  - apply encode_printable.
  - apply str_of_int_printable.
  - apply floatstr_printable, Hu.
  - apply floatstr_printable, Ht.
Qed.

Lemma lines_printable (lines : list Models.OrderLine) :
  Forall line_ok lines ->
  forallb_str printable (dumps (PyList (map CSVHandler.line_data lines))) = true.
Proof.
  intros Hok.
  change (dumps (PyList (map CSVHandler.line_data lines)))
    with ("[" +:+ join ", " (map dumps (map CSVHandler.line_data lines)) +:+ "]").
  rewrite !forallb_str_app. rewrite join_printable; [reflexivity|reflexivity|].
  rewrite map_map. apply Forall_map, Forall_forall. intros l Hl.
  apply line_printable. rewrite Forall_forall in Hok. apply Hok, Hl.
Qed.

Lemma printable_no_CR s : forallb_str printable s = true -> forallb_str OS.not_CR s = true.
Proof.
  apply OSFacts.forallb_str_impl. intros c Hc.
  destruct c as [[] [] [] [] [] [] [] []]; try discriminate; reflexivity.
Qed.

End Roundtrip.

End JsonFacts.

(** ** The pattern on tokens that start with a letter or a digit *)

Module PatternFacts.
Import PyStr PyStrFacts StripFacts Parsers JsonFacts.

Section Combinators.
Context {R : Type}.

(** Under a continuation that always succeeds nothing is tried twice: the
    greedy repetition takes the longest run. *)
Lemma rep_total cls : forall s min (k : string -> string -> option R),
  (forall m r, is_Some (k m r)) ->
  (min <= String.length (take_while cls s))%nat ->
  rep cls min s k = k (take_while cls s) (lstrip_by cls s).
Proof.
  induction s as [|c s IH]; intros min k Hk Hmin; cbn [rep take_while lstrip_by] in *.
  - destruct min; [reflexivity|simpl in Hmin; lia].
  - destruct (cls c).
    + rewrite (IH (Nat.pred min) (fun m r => k (String c m) r))
        by (auto; simpl in Hmin; lia).
      destruct (Hk (String c (take_while cls s)) (lstrip_by cls s)) as [x ->]. reflexivity.
    + destruct min; [reflexivity|simpl in Hmin; lia].
Qed.

(** Whatever a repetition or an option hands to its continuation is made of
    characters of its class. *)
Lemma rep_some cls : forall s min (k : string -> string -> option R) x,
  rep cls min s k = Some x ->
  exists m r, k m r = Some x /\ forallb_str cls m = true /\ (min <= String.length m)%nat.
Proof.
  induction s as [|c s IH]; intros min k x; cbn [rep].
  - destruct min; [|discriminate]. intros H. exists EmptyString, EmptyString. auto.
  - assert (Hstop : match min with O => k EmptyString (String c s) | S _ => None end = Some x ->
                    exists m r, k m r = Some x /\ forallb_str cls m = true /\
                                (min <= String.length m)%nat).
    { destruct min; [|discriminate]. intros H. exists EmptyString, (String c s). auto. }
    destruct (cls c) eqn:Hc; [|exact Hstop].
    destruct (rep cls (Nat.pred min) s (fun m r => k (String c m) r)) as [y|] eqn:E;
      [|exact Hstop].
    intros [= <-]. apply IH in E as (m & r & Hk & Hm & Hl).
    exists (String c m), r. cbn [forallb_str String.length]. rewrite Hc, Hm.
    repeat split; [exact Hk|lia].
Qed.

Lemma opt_some cls s (k : string -> string -> option R) x :
  opt cls s k = Some x ->
  exists m r, k m r = Some x /\
    (m = EmptyString \/ exists c, m = String c EmptyString /\ cls c = true).
Proof.
  unfold opt. destruct s as [|c s]; [eauto|].
  destruct (cls c) eqn:Hc; [|eauto].
  destruct (k (String c EmptyString) s) as [y|] eqn:E; [|eauto].
  intros [= <-]. exists (String c EmptyString), s. eauto.
Qed.

End Combinators.

(** The second group, when it takes part, is an integer literal. *)
Lemma group2_is_integer r2 g2 :
  opt is_sep r2 (fun _ r3 =>
  rep isspace 0 r3 (fun _ r4 =>
  opt (Ascii.eqb "-") r4 (fun sign r5 =>
  rep isdigit_char 1 r5 (fun ds _ => Some (sign +:+ ds))))) = Some g2 ->
  truthy g2 = true /\ exists n, int_of_str g2 = Ret n.
Proof.
  intros H.
  apply opt_some in H as (_ & r3 & H & _).
  apply rep_some in H as (_ & r4 & H & _).
  apply opt_some in H as (sign & r5 & H & Hsign).
  apply rep_some in H as (ds & _ & [= <-] & Hds & Hlen).
  assert (Hne : ds <> EmptyString) by (destruct ds; [simpl in Hlen; lia|discriminate]).
  destruct Hsign as [-> | (c & -> & Hc)].
  - cbn [String.append]. split; [destruct ds; [contradiction|reflexivity]|].
    rewrite (int_of_str_digits ds Hds Hne). eauto.
  - apply Ascii.eqb_eq in Hc as <-. cbn [String.append].
    split; [reflexivity|]. rewrite (int_of_str_minus ds Hds Hne). eauto.
Qed.

(** A token that starts with a letter or a digit is matched; the first
    group is its leading run of letters and digits. *)
Lemma PRODUCT_PATTERN_match_alnum c r :
  isalnum_char c = true ->
  exists g2,
    PRODUCT_PATTERN_match (String c r) = Some (take_while isalnum_char (String c r), g2) /\
    match g2 with
    | Some raw => truthy raw = true /\ exists n, int_of_str raw = Ret n
    | None => True
    end.
Proof.
  intros Hc. unfold PRODUCT_PATTERN_match.
  assert (Hin : forall (g1 r2 : string),
            is_Some (match
                       opt is_sep r2 (fun _ r3 =>
                       rep isspace 0 r3 (fun _ r4 =>
                       opt (Ascii.eqb "-") r4 (fun sign r5 =>
                       rep isdigit_char 1 r5 (fun ds _ => Some (sign +:+ ds)))))
                     with
                     | Some g2 => Some (g1, Some g2)
                     | None => Some (g1, None)
                     end)).
  { intros g1 r2. destruct (opt _ _ _); eauto. }
  rewrite rep_total.
  - rewrite rep_total; [|intros _ r2; apply Hin|lia].
    destruct (opt _ _ _) as [g2|] eqn:E.
    + exists (Some g2). split; [reflexivity|]. apply (group2_is_integer _ _ E).
    + exists None. split; [reflexivity|exact I].
  - intros g1 r1. rewrite rep_total; [apply Hin|intros _ r2; apply Hin|lia].
  - cbn [take_while]. rewrite Hc. simpl. lia.
Qed.

Lemma parse_items_pattern (items : list string) : forall parsed,
  Forall (fun t => starts_alnum t = true)
         (filter (fun p => truthy (strip p) = true) items) ->
  exists entries,
    parse_items items parsed = Ret (parsed ++ entries) /\
    Forall2 (fun e t => code e = upper (take_while isalnum_char (strip t)))
            entries (filter (fun p => truthy (strip p) = true) items).
Proof.
  induction items as [|item rest IH]; intros parsed Hall.
  - exists []. rewrite app_nil_r. split; [reflexivity|constructor].
  - rewrite filter_cons in *. cbn [parse_items]. cbv zeta.
    destruct (strip item) as [|c r] eqn:Es.
    + cbn [truthy is_empty negb] in *.
      case_decide; [discriminate|]. apply IH, Hall.
    + cbn [truthy is_empty negb] in *.
      case_decide; [|congruence].
      inversion Hall as [|? ? Hitem Hrest]; subst.
      unfold starts_alnum in Hitem. rewrite Es in Hitem.
      destruct (PRODUCT_PATTERN_match_alnum c r Hitem) as (g2 & Hm & Hg).
      rewrite Hm.
      assert (Hq : exists q,
                 match g2 with
                 | Some raw => if truthy raw then int_of_str raw else Ret 1%Z
                 | None => Ret 1%Z
                 end = Ret q).
      { destruct g2 as [raw|]; [|eauto]. destruct Hg as [-> [n ->]]. eauto. }
      destruct Hq as [q ->].
      change (exists entries,
        parse_items rest
          (parsed ++ [{| code := upper (take_while isalnum_char (String c r)); qty := q |}])
          = Ret (parsed ++ entries) /\
        Forall2 (fun e t => code e = upper (take_while isalnum_char (strip t)))
          entries (item :: filter (fun p => truthy (strip p) = true) rest)).
      destruct (IH (parsed ++ [{| code := upper (take_while isalnum_char (String c r));
                                  qty := q |}]) Hrest) as (entries & Hp & Hf).
      eexists (_ :: entries). rewrite Hp, <- app_assoc. split; [reflexivity|].
      constructor; [rewrite Es; reflexivity|exact Hf].
Qed.

Lemma strip_empty_spaces s : strip s = EmptyString -> forallb_str isspace s = true.
Proof.
  unfold strip. induction s as [|c s IH]; [reflexivity|].
  cbn [lstrip_by forallb_str]. destruct (isspace c) eqn:Hc; [exact IH|].
  rewrite (rstrip_by_keep isspace c s Hc). discriminate.
Qed.

Lemma tokens_blank text : blank text = true -> tokens text = [].
Proof.
  unfold blank, tokens. intros H.
  assert (Hs : strip text = EmptyString).
  { destruct text as [|c r]; [reflexivity|]. cbn [truthy is_empty negb orb] in H.
    destruct (strip (String c r)); [reflexivity|discriminate]. }
  assert (Hsp : forallb_str (fun c => negb (is_item_sep c)) text = true).
  { generalize (strip_empty_spaces text Hs). apply OSFacts.forallb_str_impl.
    intros c Hc. destruct c as [[] [] [] [] [] [] [] []]; try discriminate; reflexivity. }
  rewrite (split_on_no_sep is_item_sep text Hsp).
  rewrite filter_cons, Hs. cbn [truthy is_empty negb]. case_decide; [discriminate|reflexivity].
Qed.

(** When every non-blank token of a field starts with a letter or a digit,
    [parse_product_field] returns one entry per non-blank token, in order,
    whose code is the upper-cased leading run of letters and digits. *)
Lemma parse_product_field_pattern (text : string) :
  Forall (fun t => starts_alnum t = true) (tokens text) ->
  exists entries,
    parse_product_field text = Ret entries /\
    Forall2 (fun e t => code e = upper (take_while isalnum_char (strip t)))
            entries (tokens text).
Proof.
  intros Hall. unfold parse_product_field. destruct (blank text) eqn:Hb.
  - exists []. rewrite (tokens_blank text Hb). split; [reflexivity|constructor].
  - apply (parse_items_pattern _ [] Hall).
Qed.

End PatternFacts.

Module CsvFacts.
Import PyStr PyStrFacts StripFacts OS OSFacts Csv.

(** *** Universal newlines and the written text *)

Lemma universal_newlines_app_bounded n : forall a b,
  (String.length a <= n)%nat ->
  ends_with_CR a = false ->
  universal_newlines (a +:+ b) = universal_newlines a +:+ universal_newlines b.
Proof.
  induction n as [|n IH]; intros [|c a] b Hlen Hend; simpl in Hlen; try lia; try reflexivity.
  cbn [String.append universal_newlines].
  destruct (Ascii.eqb c CR) eqn:Hc.
  - destruct a as [|d a']; [simpl in Hend; congruence|].
    cbn [String.append]. destruct (Ascii.eqb d LF) eqn:Hd; cbn [String.append]; f_equal.
    + destruct a' as [|e a'']; [reflexivity|].
      apply IH; [simpl in *; lia|exact Hend].
    + apply (IH (String d a') b); [simpl in *; lia|exact Hend].
  - cbn [String.append]. f_equal. destruct a as [|d a']; [reflexivity|].
    apply IH; [simpl in *; lia|exact Hend].
Qed.

Lemma universal_newlines_app a b :
  ends_with_CR a = false ->
  universal_newlines (a +:+ b) = universal_newlines a +:+ universal_newlines b.
Proof. apply (universal_newlines_app_bounded (String.length a)). lia. Qed.

Lemma double_quotes_head c f :
  double_quotes (String c f) =
  if Ascii.eqb c DQUOTE then String DQUOTE (String DQUOTE (double_quotes f))
  else String c (double_quotes f).
Proof. reflexivity. Qed.

Lemma universal_double_quotes_bounded n : forall f,
  (String.length f <= n)%nat ->
  universal_newlines (double_quotes f) = double_quotes (universal_newlines f).
Proof.
  induction n as [|n IH]; intros [|c f] Hlen; simpl in Hlen; try lia; try reflexivity.
  rewrite double_quotes_head. destruct (Ascii.eqb c DQUOTE) eqn:Hq.
  - apply Ascii.eqb_eq in Hq. subst c.
    change (universal_newlines (String DQUOTE (String DQUOTE (double_quotes f))))
      with (String DQUOTE (String DQUOTE (universal_newlines (double_quotes f)))).
    change (universal_newlines (String DQUOTE f))
      with (String DQUOTE (universal_newlines f)).
    rewrite double_quotes_head. change (Ascii.eqb DQUOTE DQUOTE) with true. cbv iota.
    rewrite IH by lia. reflexivity.
  - cbn [universal_newlines]. destruct (Ascii.eqb c CR) eqn:Hc.
    + rewrite double_quotes_head. change (Ascii.eqb LF DQUOTE) with false. cbv iota.
      f_equal. destruct f as [|d f']; [reflexivity|].
      rewrite double_quotes_head. destruct (Ascii.eqb d LF) eqn:Hd.
      * apply Ascii.eqb_eq in Hd. subst d. change (Ascii.eqb LF DQUOTE) with false.
        cbv iota. change (Ascii.eqb LF LF) with true. cbv iota.
        apply IH. simpl in *. lia.
      * destruct (Ascii.eqb d DQUOTE) eqn:Hdq.
        -- apply Ascii.eqb_eq in Hdq. subst d.
           change (Ascii.eqb DQUOTE LF) with false. cbv iota.
           rewrite <- (IH (String DQUOTE f')) by (simpl in *; lia). reflexivity.
        -- rewrite Hd. rewrite <- (IH (String d f')) by (simpl in *; lia).
           rewrite double_quotes_head, Hdq. reflexivity.
    + rewrite double_quotes_head, Hq. rewrite IH by lia. reflexivity.
Qed.

Lemma universal_double_quotes f :
  universal_newlines (double_quotes f) = double_quotes (universal_newlines f).
Proof. apply (universal_double_quotes_bounded (String.length f)). lia. Qed.

Lemma ends_with_CR_snoc a c : Ascii.eqb c CR = false ->
  ends_with_CR (a +:+ String c EmptyString) = false.
Proof.
  intros Hc. induction a as [|d a IH]; [simpl; exact Hc|].
  cbn [String.append ends_with_CR].
  destruct (a +:+ String c EmptyString) eqn:E; [destruct a; discriminate|exact IH].
Qed.

Lemma ends_with_CR_none f : forallb_str not_CR f = true -> ends_with_CR f = false.
Proof.
  induction f as [|c f IH]; [reflexivity|]. intros H. cbn [forallb_str] in H.
  apply andb_true_iff in H as [Hc Hf]. cbn [ends_with_CR].
  destruct f; [apply negb_true_iff, Hc|apply IH, Hf].
Qed.

Lemma special_none_no_CR f : existsb_str is_special f = false -> forallb_str not_CR f = true.
Proof.
  induction f as [|c f IH]; [reflexivity|]. cbn [existsb_str forallb_str]. intros H.
  apply orb_false_iff in H as [Hc Hf]. rewrite (IH Hf), andb_true_r.
  unfold is_special in Hc. apply orb_false_iff in Hc as [_ Hc].
  unfold not_CR. rewrite Hc. reflexivity.
Qed.

Lemma special_universal_bounded n : forall f,
  (String.length f <= n)%nat ->
  existsb_str is_special (universal_newlines f) = existsb_str is_special f.
Proof.
  induction n as [|n IH]; intros [|c f] Hlen; simpl in Hlen; try lia; try reflexivity.
  cbn [universal_newlines]. destruct (Ascii.eqb c CR) eqn:Hc.
  - apply Ascii.eqb_eq in Hc. subst c. reflexivity.
  - cbn [existsb_str]. rewrite IH by lia. reflexivity.
Qed.

Lemma special_universal f :
  existsb_str is_special (universal_newlines f) = existsb_str is_special f.
Proof. apply (special_universal_bounded (String.length f)). lia. Qed.

Lemma universal_app_char_bounded n : forall a c b,
  (String.length a <= n)%nat ->
  Ascii.eqb c LF = false -> Ascii.eqb c CR = false ->
  universal_newlines (a +:+ String c b) =
  universal_newlines a +:+ String c (universal_newlines b).
Proof.
  induction n as [|n IH]; intros [|x a] c b Hlen Hl Hr; simpl in Hlen; try lia.
  - cbn [String.append universal_newlines]. rewrite Hr. reflexivity.
  - cbn [String.append universal_newlines]. rewrite Hr. reflexivity.
  - cbn [String.append universal_newlines]. destruct (Ascii.eqb x CR) eqn:Hx.
    + cbn [String.append]. f_equal. destruct a as [|d a'].
      * cbn [String.append]. rewrite Hl. cbn [universal_newlines]. rewrite Hr. reflexivity.
      * cbn [String.append]. destruct (Ascii.eqb d LF).
        -- apply IH; [simpl in *; lia|assumption..].
        -- apply (IH (String d a')); [simpl in *; lia|assumption..].
    + cbn [String.append]. f_equal. apply IH; [lia|assumption..].
Qed.

Lemma universal_app_char a c b :
  Ascii.eqb c LF = false -> Ascii.eqb c CR = false ->
  universal_newlines (a +:+ String c b) =
  universal_newlines a +:+ String c (universal_newlines b).
Proof. apply (universal_app_char_bounded (String.length a)). lia. Qed.

(** A written field is read, after the translation of its line ends, as
    the written form of the translated field. *)
Lemma universal_written f :
  universal_newlines (write_field f) = write_field (universal_newlines f).
Proof.
  unfold write_field. rewrite special_universal.
  destruct (existsb_str is_special f) eqn:Hs.
  - change (universal_newlines (String DQUOTE (double_quotes f +:+ String DQUOTE EmptyString)))
      with (String DQUOTE (universal_newlines (double_quotes f +:+ String DQUOTE EmptyString))).
    rewrite universal_app_char by reflexivity.
    rewrite universal_double_quotes. reflexivity.
  - reflexivity.
Qed.

Lemma ends_with_CR_written f : ends_with_CR (write_field f) = false.
Proof.
  unfold write_field. destruct (existsb_str is_special f) eqn:Hs.
  - change (String DQUOTE (double_quotes f +:+ String DQUOTE EmptyString))
      with (String DQUOTE (double_quotes f) +:+ String DQUOTE EmptyString).
    apply ends_with_CR_snoc. reflexivity.
  - apply ends_with_CR_none, special_none_no_CR, Hs.
Qed.

Lemma universal_join (cells : list string) : forall tail,
  cells <> [] ->
  universal_newlines (Json.join "," (map write_field cells) +:+ line_terminator +:+ tail) =
  record_text (map universal_newlines cells) +:+ universal_newlines tail.
Proof.
  unfold record_text.
  induction cells as [|c cells IH]; intros tail Hne; [contradiction|].
  destruct cells as [|c' cells'].
  - cbn [map Json.join]. rewrite universal_newlines_app by apply ends_with_CR_written.
    rewrite universal_written, app_assoc_str. reflexivity.
  - change (Json.join "," (map write_field (c :: c' :: cells')))
      with (write_field c +:+ "," +:+ Json.join "," (map write_field (c' :: cells'))).
    change (Json.join "," (map write_field (map universal_newlines (c :: c' :: cells'))))
      with (write_field (universal_newlines c) +:+ "," +:+
            Json.join "," (map write_field (map universal_newlines (c' :: cells')))).
    rewrite !app_assoc_str. cbn [String.append].
    rewrite universal_app_char by reflexivity.
    rewrite universal_written. f_equal. f_equal.
    rewrite <- !app_assoc_str. rewrite (app_assoc_str _ line_terminator tail).
    rewrite IH by discriminate. rewrite !app_assoc_str. reflexivity.
Qed.

Lemma writerow_cells c c' cells :
  writerow (c :: c' :: cells) =
  Json.join "," (map write_field (c :: c' :: cells)) +:+ line_terminator.
Proof. destruct c; reflexivity. Qed.

(** *** The reader on written records *)

Lemma read_records_cons c s ml r recs :
  read_records (String c s) ml r recs =
  (r ← parse_process_char (Some c) r;
   if Ascii.eqb c LF then
     r ← parse_process_char None r;
     let '(r, recs) := end_of_line r recs in
     read_records s false r recs
   else read_records s true r recs).
Proof. reflexivity. Qed.

(** *** The field limit *)

Lemma text_length_snoc fld c :
  Limits.text_length (fld +:+ String c EmptyString) = (Limits.text_length fld + 1)%Z.
Proof. unfold Limits.text_length. rewrite JsonFacts.str_length_app. simpl. lia. Qed.

Lemma text_length_app a b :
  Limits.text_length (a +:+ b) = (Limits.text_length a + Limits.text_length b)%Z.
Proof. unfold Limits.text_length. rewrite JsonFacts.str_length_app. lia. Qed.

Lemma text_length_cons c s :
  Limits.text_length (String c s) = (1 + Limits.text_length s)%Z.
Proof. unfold Limits.text_length. simpl String.length. lia. Qed.

Lemma text_length_nonneg s : (0 <= Limits.text_length s)%Z.
Proof. unfold Limits.text_length. lia. Qed.

Lemma add_char_ok c st fld flds :
  (Limits.text_length fld < Limits.FIELD_SIZE_LIMIT)%Z ->
  parse_add_char c (mk st fld flds) = Ret (mk st (fld +:+ String c EmptyString) flds).
Proof.
  intros H. unfold parse_add_char, field_full, mk. cbn [field state fields].
  apply Z.leb_gt in H. rewrite H. reflexivity.
Qed.

Lemma add_char_full c st fld flds :
  (Limits.FIELD_SIZE_LIMIT <= Limits.text_length fld)%Z ->
  parse_add_char c (mk st fld flds) =
  Raise (CsvError "field larger than field limit (131072)").
Proof.
  intros H. unfold parse_add_char, field_full, mk. cbn [field state fields].
  apply Z.leb_le in H. rewrite H. reflexivity.
Qed.

(** A character that is not special, in an unquoted field. *)
Lemma process_plain c fld flds :
  is_special c = false ->
  parse_process_char (Some c) (mk IN_FIELD fld flds) = parse_add_char c (mk IN_FIELD fld flds).
Proof.
  unfold is_special. intros Hc.
  apply orb_false_iff in Hc as [Hc Hcr]. apply orb_false_iff in Hc as [Hc Hlf].
  apply orb_false_iff in Hc as [Hco Hdq].
  unfold parse_process_char, mk, is_nl. cbn [state]. rewrite Hlf, Hcr, Hco. reflexivity.
Qed.

(** A character that is not a quote, inside quotes. *)
Lemma process_quoted c fld flds :
  Ascii.eqb c DQUOTE = false ->
  parse_process_char (Some c) (mk IN_QUOTED_FIELD fld flds) =
  parse_add_char c (mk IN_QUOTED_FIELD fld flds).
Proof. intros Hq. unfold parse_process_char, mk. cbn [state]. rewrite Hq. reflexivity. Qed.

(** Inside quotes, up to the closing quote. *)
Lemma read_quoted_body g : forall tail ml fld flds recs,
  forallb_str not_CR g = true ->
  (Limits.text_length (fld +:+ g) <= Limits.FIELD_SIZE_LIMIT)%Z ->
  read_records (double_quotes g +:+ String DQUOTE tail) ml (mk IN_QUOTED_FIELD fld flds) recs =
  read_records tail true (mk QUOTE_IN_QUOTED_FIELD (fld +:+ g) flds) recs.
Proof.
  induction g as [|c g IH]; intros tail ml fld flds recs Hg Hlen.
  - cbn [double_quotes String.append]. rewrite read_records_cons, app_empty_r. reflexivity.
  - cbn [forallb_str] in Hg. apply andb_true_iff in Hg as [Hc Hg].
    assert (Hroom : (Limits.text_length fld < Limits.FIELD_SIZE_LIMIT)%Z).
    { rewrite text_length_app, text_length_cons in Hlen.
      pose proof (text_length_nonneg g). lia. }
    assert (Hnext : (Limits.text_length ((fld +:+ String c EmptyString) +:+ g)
                     <= Limits.FIELD_SIZE_LIMIT)%Z).
    { rewrite app_assoc_str. exact Hlen. }
    rewrite double_quotes_head. destruct (Ascii.eqb c DQUOTE) eqn:Hq.
    + apply Ascii.eqb_eq in Hq. subst c. cbn [String.append].
      rewrite read_records_cons.
      change (parse_process_char (Some DQUOTE) (mk IN_QUOTED_FIELD fld flds))
        with (Ret (mk QUOTE_IN_QUOTED_FIELD fld flds)).
      cbn [mbind res_bind]. change (Ascii.eqb DQUOTE LF) with false. cbv iota.
      rewrite read_records_cons.
      change (parse_process_char (Some DQUOTE) (mk QUOTE_IN_QUOTED_FIELD fld flds))
        with (r ← parse_add_char DQUOTE (mk QUOTE_IN_QUOTED_FIELD fld flds);
              Ret (goto IN_QUOTED_FIELD r)).
      rewrite add_char_ok by exact Hroom.
      cbn [mbind res_bind]. change (Ascii.eqb DQUOTE LF) with false. cbv iota.
      change (goto IN_QUOTED_FIELD
                (mk QUOTE_IN_QUOTED_FIELD (fld +:+ String DQUOTE EmptyString) flds))
        with (mk IN_QUOTED_FIELD (fld +:+ String DQUOTE EmptyString) flds).
      rewrite IH by assumption. rewrite app_assoc_str. reflexivity.
    + cbn [String.append]. rewrite read_records_cons.
      rewrite process_quoted by exact Hq. rewrite add_char_ok by exact Hroom.
      cbn [mbind res_bind]. destruct (Ascii.eqb c LF).
      * change (parse_process_char None (mk IN_QUOTED_FIELD (fld +:+ String c EmptyString) flds))
          with (Ret (mk IN_QUOTED_FIELD (fld +:+ String c EmptyString) flds)).
        cbn [mbind res_bind end_of_line mk state is_start_record].
        fold (mk IN_QUOTED_FIELD (fld +:+ String c EmptyString) flds).
        rewrite IH by assumption. rewrite app_assoc_str. reflexivity.
      * rewrite IH by assumption. rewrite app_assoc_str. reflexivity.
Qed.

(** Outside quotes, over characters that are not special. *)
Lemma read_plain_body g : forall tail fld flds recs,
  existsb_str is_special g = false ->
  (Limits.text_length (fld +:+ g) <= Limits.FIELD_SIZE_LIMIT)%Z ->
  read_records (g +:+ tail) true (mk IN_FIELD fld flds) recs =
  read_records tail true (mk IN_FIELD (fld +:+ g) flds) recs.
Proof.
  induction g as [|c g IH]; intros tail fld flds recs Hg Hlen.
  - cbn [String.append]. rewrite app_empty_r. reflexivity.
  - cbn [existsb_str] in Hg. apply orb_false_iff in Hg as [Hc Hg].
    assert (Hroom : (Limits.text_length fld < Limits.FIELD_SIZE_LIMIT)%Z).
    { rewrite text_length_app, text_length_cons in Hlen.
      pose proof (text_length_nonneg g). lia. }
    cbn [String.append]. rewrite read_records_cons.
    rewrite process_plain by exact Hc. rewrite add_char_ok by exact Hroom.
    assert (Hlf : Ascii.eqb c LF = false).
    { unfold is_special in Hc. apply orb_false_iff in Hc as [Hc _].
      apply orb_false_iff in Hc as [_ Hc]. exact Hc. }
    cbn [mbind res_bind]. rewrite Hlf.
    rewrite IH; [|exact Hg|rewrite app_assoc_str; exact Hlen].
    rewrite app_assoc_str. reflexivity.
Qed.

(** Outside quotes, a field that outgrows the limit is refused. *)
Lemma read_plain_overflow g : forall tail fld flds recs,
  existsb_str is_special g = false ->
  (Limits.text_length fld <= Limits.FIELD_SIZE_LIMIT)%Z ->
  (Limits.FIELD_SIZE_LIMIT < Limits.text_length (fld +:+ g))%Z ->
  read_records (g +:+ tail) true (mk IN_FIELD fld flds) recs =
  Raise (CsvError "field larger than field limit (131072)").
Proof.
  induction g as [|c g IH]; intros tail fld flds recs Hg Hfld Hlen.
  - rewrite app_empty_r in Hlen. lia.
  - cbn [existsb_str] in Hg. apply orb_false_iff in Hg as [Hc Hg].
    cbn [String.append]. rewrite read_records_cons.
    rewrite process_plain by exact Hc.
    destruct (Z.eq_dec (Limits.text_length fld) Limits.FIELD_SIZE_LIMIT) as [Hfull|Hroom].
    + rewrite add_char_full by lia. reflexivity.
    + rewrite add_char_ok by lia.
      assert (Hlf : Ascii.eqb c LF = false).
      { unfold is_special in Hc. apply orb_false_iff in Hc as [Hc _].
        apply orb_false_iff in Hc as [_ Hc]. exact Hc. }
      cbn [mbind res_bind]. rewrite Hlf.
      apply IH; [exact Hg|rewrite text_length_snoc; lia|rewrite app_assoc_str; exact Hlen].
Qed.

(** The first character of an unquoted field. *)
Lemma process_first c st flds :
  st = START_FIELD \/ st = START_RECORD ->
  is_special c = false ->
  parse_process_char (Some c) (mk st EmptyString flds) =
  Ret (mk IN_FIELD (String c EmptyString) flds).
Proof.
  intros Hst Hc. unfold is_special in Hc.
  apply orb_false_iff in Hc as [Hc Hcr]. apply orb_false_iff in Hc as [Hc Hlf].
  apply orb_false_iff in Hc as [Hco Hdq].
  destruct Hst as [-> | ->]; unfold parse_process_char, start_field, mk, is_nl;
    cbn [state goto]; rewrite Hlf, Hcr; cbn [orb]; rewrite ?Hdq, ?Hco; reflexivity.
Qed.

Lemma read_field_text g tail ml st flds recs :
  st = START_FIELD \/ st = START_RECORD ->
  forallb_str not_CR g = true ->
  Limits.fits_field g ->
  exists st' ml',
    (behind_field st' g /\ (st' = START_RECORD -> st = START_RECORD)) /\
    read_records (write_field g +:+ tail) ml (mk st EmptyString flds) recs =
    read_records tail ml' (mk st' g flds) recs.
Proof.
  intros Hst Hg Hfit. unfold write_field. destruct (existsb_str is_special g) eqn:Hs.
  - exists QUOTE_IN_QUOTED_FIELD, true. split; [split; [left; reflexivity|discriminate]|].
    cbn [String.append]. rewrite app_assoc_str. cbn [String.append].
    rewrite read_records_cons.
    assert (Hp : parse_process_char (Some DQUOTE) (mk st EmptyString flds) =
                 Ret (mk IN_QUOTED_FIELD EmptyString flds))
      by (destruct Hst as [-> | ->]; reflexivity).
    rewrite Hp. cbn [mbind res_bind]. change (Ascii.eqb DQUOTE LF) with false. cbv iota.
    rewrite read_quoted_body by assumption. reflexivity.
  - destruct g as [|c g'].
    + exists st, ml. split; [split; [right; right; auto|auto]|reflexivity].
    + exists IN_FIELD, true. split; [split; [right; left; reflexivity|discriminate]|].
      cbn [existsb_str] in Hs. apply orb_false_iff in Hs as [Hc Hs].
      cbn [String.append]. rewrite read_records_cons.
      rewrite (process_first c st flds Hst Hc).
      assert (Hlf : Ascii.eqb c LF = false).
      { unfold is_special in Hc. apply orb_false_iff in Hc as [Hc' _].
        apply orb_false_iff in Hc' as [_ Hc']. exact Hc'. }
      cbn [mbind res_bind]. rewrite Hlf.
      rewrite read_plain_body by assumption. reflexivity.
Qed.

(** An unquoted field longer than the limit, at the start of a record. *)
Lemma read_long_field g tail flds recs :
  existsb_str is_special g = false ->
  (Limits.FIELD_SIZE_LIMIT < Limits.text_length g)%Z ->
  read_records (g +:+ tail) false (mk START_RECORD EmptyString flds) recs =
  Raise (CsvError "field larger than field limit (131072)").
Proof.
  intros Hs Hlen. destruct g as [|c g']; [discriminate Hlen|].
  cbn [existsb_str] in Hs. apply orb_false_iff in Hs as [Hc Hs].
  cbn [String.append]. rewrite read_records_cons.
  rewrite (process_first c START_RECORD flds (or_intror eq_refl) Hc).
  assert (Hlf : Ascii.eqb c LF = false).
  { unfold is_special in Hc. apply orb_false_iff in Hc as [Hc' _].
    apply orb_false_iff in Hc' as [_ Hc']. exact Hc'. }
  cbn [mbind res_bind]. rewrite Hlf.
  apply read_plain_overflow; [exact Hs|discriminate|exact Hlen].
Qed.

Lemma read_comma st g tail ml flds recs :
  behind_field st g ->
  read_records (String COMMA tail) ml (mk st g flds) recs =
  read_records tail true (mk START_FIELD EmptyString (flds ++ [g])) recs.
Proof.
  intros [-> | [-> | [[-> | ->] ->]]]; reflexivity.
Qed.

Lemma read_line_end st g tail ml flds recs :
  behind_field st g -> st <> START_RECORD ->
  read_records (String LF tail) ml (mk st g flds) recs =
  read_records tail false parse_reset (recs ++ [flds ++ [g]]).
Proof.
  intros [-> | [-> | [[-> | ->] ->]]] Hst; try reflexivity. contradiction.
Qed.

(** The cells of a record whose first cell has been read. *)
Lemma record_text_cons g g' cells tail :
  record_text (g :: g' :: cells) +:+ tail =
  write_field g +:+ String COMMA (record_text (g' :: cells) +:+ tail).
Proof.
  unfold record_text.
  change (Json.join "," (map write_field (g :: g' :: cells)))
    with (write_field g +:+ "," +:+ Json.join "," (map write_field (g' :: cells))).
  rewrite !app_assoc_str. reflexivity.
Qed.

Lemma record_text_one g tail :
  record_text [g] +:+ tail = write_field g +:+ String LF tail.
Proof. unfold record_text. cbn [map Json.join]. rewrite app_assoc_str. reflexivity. Qed.

Lemma read_more_cells cells : forall tail ml flds recs,
  cells <> [] ->
  Forall readable_cell cells ->
  read_records (record_text cells +:+ tail) ml (mk START_FIELD EmptyString flds) recs =
  read_records tail false parse_reset (recs ++ [flds ++ cells]).
Proof.
  induction cells as [|g cells IH]; intros tail ml flds recs Hne Hall; [contradiction|].
  inversion Hall as [|? ? [Hg Hfit] Hall']; subst.
  destruct cells as [|g' cells'].
  - rewrite record_text_one.
    destruct (read_field_text g (String LF tail) ml START_FIELD flds recs
                (or_introl eq_refl) Hg Hfit) as (st' & ml' & [Hb Hs] & ->).
    apply read_line_end; [exact Hb|].
    intros E. specialize (Hs E). discriminate.
  - rewrite record_text_cons.
    destruct (read_field_text g (String COMMA (record_text (g' :: cells') +:+ tail))
                ml START_FIELD flds recs (or_introl eq_refl) Hg Hfit)
      as (st' & ml' & [Hb Hs] & ->).
    rewrite read_comma by exact Hb.
    rewrite IH by (try discriminate; exact Hall').
    rewrite <- app_assoc. reflexivity.
Qed.

(** A record of at least two cells, from the start of a record. *)
Lemma read_record g cells tail recs :
  cells <> [] ->
  Forall readable_cell (g :: cells) ->
  read_records (record_text (g :: cells) +:+ tail) false parse_reset recs =
  read_records tail false parse_reset (recs ++ [g :: cells]).
Proof.
  intros Hne Hall. inversion Hall as [|? ? [Hg Hfit] Hall']; subst.
  destruct cells as [|g' cells']; [contradiction|].
  rewrite record_text_cons.
  destruct (read_field_text g (String COMMA (record_text (g' :: cells') +:+ tail))
              false START_RECORD [] recs (or_intror eq_refl) Hg Hfit)
    as (st' & ml' & [Hb Hs] & E).
  change parse_reset with (mk START_RECORD EmptyString []). rewrite E.
  rewrite read_comma by exact Hb.
  rewrite read_more_cells by (try discriminate; exact Hall'). reflexivity.
Qed.

(** All the records of a written text. *)
Lemma read_all_records (rows : list (list string)) : forall recs,
  Forall (fun row => (2 <= length row)%nat /\ Forall readable_cell row) rows ->
  read_records (fold_right (fun row acc => record_text row +:+ acc) EmptyString rows)
               false parse_reset recs = Ret (recs ++ rows).
Proof.
  induction rows as [|row rows IH]; intros recs Hall.
  - cbn [fold_right read_records]. rewrite app_nil_r. reflexivity.
  - inversion Hall as [|? ? [Hlen Hrow] Hall']; subst. cbn [fold_right].
    destruct row as [|g [|g' cells]]; simpl in Hlen; try lia.
    rewrite read_record by (try discriminate; exact Hrow).
    rewrite IH by exact Hall'. rewrite <- app_assoc. reflexivity.
Qed.

(** The translation of the line ends makes no text longer. *)
Lemma universal_newlines_length_bounded n : forall s,
  (String.length s <= n)%nat ->
  (String.length (universal_newlines s) <= String.length s)%nat.
Proof.
  induction n as [|n IH]; intros [|c s] Hlen; simpl in Hlen; try lia; [simpl; lia..|].
  cbn [universal_newlines]. destruct (Ascii.eqb c CR).
  - destruct s as [|d s']; [simpl; lia|]. destruct (Ascii.eqb d LF).
    + specialize (IH s'). simpl in *. lia.
    + specialize (IH (String d s')). simpl in *. lia.
  - specialize (IH s). simpl in *. lia.
Qed.

Lemma universal_newlines_fits s :
  Limits.fits_field s -> Limits.fits_field (universal_newlines s).
Proof.
  unfold Limits.fits_field, Limits.text_length. intros H.
  pose proof (universal_newlines_length_bounded (String.length s) s (le_n _)). lia.
Qed.

End CsvFacts.

Module CSVHandlerFacts.
Import PyStr PyStrFacts StripFacts OS OSFacts Json JsonFacts Csv CsvFacts Models CSVHandler.

Section RoundTrip.
Variable float_repr : Q -> string.
Variable float_of_str : string -> option Q.

Abbreviation lines_cell := (lines_cell float_repr).
Abbreviation order_cells := (order_cells float_repr).
Abbreviation exported_text := (exported_text float_repr).
Abbreviation exported_row := (exported_row float_repr).
Abbreviation after_export := (after_export float_repr).

Lemma dict_to_list_order o :
  dict_to_list float_repr (order_row float_repr o) = Ret (order_cells o).
Proof.
  unfold order_row, CSVHandler.order_cells, CSVHandler.lines_cell, to_dict.
  destruct (order_lines o), (delivery_fee o); reflexivity.
Qed.

Lemma export_rows_text orders :
  export_rows float_repr orders =
  (fold_right (fun o acc => writerow (order_cells o) +:+ acc) EmptyString orders, None).
Proof.
  induction orders as [|o orders IH]; [reflexivity|].
  cbn [export_rows fold_right]. rewrite dict_to_list_order, IH. reflexivity.
Qed.

Lemma universal_rows (rows : list (list string)) :
  Forall (fun row => (2 <= length row)%nat) rows ->
  universal_newlines (fold_right (fun row acc => writerow row +:+ acc) EmptyString rows) =
  fold_right (fun row acc => record_text row +:+ acc) EmptyString
             (map (map universal_newlines) rows).
Proof.
  induction 1 as [|row rows Hrow Hrows IH]; [reflexivity|].
  cbn [fold_right map]. destruct row as [|c [|c' cells]]; simpl in Hrow; try lia.
  rewrite writerow_cells, app_assoc_str, universal_join by discriminate.
  rewrite IH. reflexivity.
Qed.

Lemma filter_not_nil (rows : list (list string)) :
  Forall (fun row => (2 <= length row)%nat) rows ->
  filter (fun row => is_nil row = false) rows = rows.
Proof.
  induction 1 as [|row rows Hrow Hrows IH]; [reflexivity|].
  rewrite filter_cons. destruct row; [simpl in Hrow; lia|].
  case_decide; [rewrite IH; reflexivity|contradiction].
Qed.

Lemma fold_order_rows orders :
  fold_right (fun o acc => writerow (order_cells o) +:+ acc) EmptyString orders =
  fold_right (fun row acc => writerow row +:+ acc) EmptyString (map order_cells orders).
Proof.
  induction orders as [|o os IH]; [reflexivity|]. cbn [map fold_right]. rewrite IH. reflexivity.
Qed.

Lemma fieldnames_readable : Forall readable_cell (map universal_newlines fieldnames).
Proof. repeat constructor; vm_compute; discriminate. Qed.

Lemma cells_readable o :
  cells_fit float_repr o -> Forall readable_cell (map universal_newlines (order_cells o)).
Proof.
  intros Hfit. apply Forall_map. eapply Forall_impl; [exact Hfit|].
  intros c Hc. split; [apply universal_newlines_no_CR|apply universal_newlines_fits, Hc].
Qed.

(** The text that the reader receives. *)
Lemma exported_records orders :
  universal_newlines (exported_text orders) =
  fold_right (fun row acc => record_text row +:+ acc) EmptyString
    (map universal_newlines fieldnames :: map (map universal_newlines) (map order_cells orders)).
Proof.
  unfold CSVHandler.exported_text.
  pose proof (universal_rows (fieldnames :: map order_cells orders)) as Hu.
  cbn [fold_right map] in Hu.
  rewrite fold_order_rows, Hu; [reflexivity|].
  constructor; [simpl; lia|]. apply Forall_map, Forall_forall. intros o _. simpl. lia.
Qed.

(** The rows that the reader finds in the exported text. *)
Lemma exported_rows orders :
  Forall (cells_fit float_repr) orders ->
  dict_reader_rows (universal_newlines (exported_text orders)) =
  Ret (map (fun o => dict_row fieldnames (map universal_newlines (order_cells o))) orders).
Proof.
  intros Hfit. unfold dict_reader_rows, reader_rows. rewrite exported_records.
  rewrite read_all_records.
  - cbn [app mbind res_bind]. rewrite filter_not_nil.
    + rewrite !map_map. reflexivity.
    + rewrite map_map. apply Forall_map, Forall_forall. intros o _. simpl. lia.
  - constructor.
    + split; [simpl; lia|apply fieldnames_readable].
    + rewrite map_map. apply Forall_map. eapply Forall_impl; [exact Hfit|].
      intros o Ho. split; [simpl; lia|apply cells_readable, Ho].
Qed.

Lemma dict_row_lines_cell (c1 c2 c3 c4 c5 c6 c7 c8 c9 c10 : string) :
  dict_row fieldnames [c1; c2; c3; c4; c5; c6; c7; c8; c9; c10] !! Some "OrderLinesJSON" =
  Some (PyStr c10).
Proof.
  unfold dict_row, zip_row, fieldnames. cbn [length Nat.ltb Nat.leb skipn combine fold_left fst snd].
  apply lookup_insert_eq.
Qed.

Abbreviation line_ok := (CSVHandler.line_ok float_repr float_of_str).

Lemma add_lines_exported o :
  Forall line_ok (order_lines o) ->
  add_order_lines float_of_str (exported_row o) =
  Ret (<[Some "order_lines" := imported_lines o]> (exported_row o)).
Proof.
  intros Hok. unfold add_order_lines, CSVHandler.exported_row, CSVHandler.order_cells. cbn [map].
  rewrite dict_row_lines_cell. unfold CSVHandler.lines_cell, imported_lines.
  destruct (order_lines o) as [|l ls] eqn:E; [reflexivity|].
  set (text := dumps float_repr (PyList (map line_data (l :: ls)))).
  assert (Hp : forallb_str PyStr.printable text = true)
    by (apply (lines_printable float_repr float_of_str), Hok).
  rewrite (universal_newlines_id text (printable_no_CR text Hp)).
  assert (Ht : py_truthy (PyStr text) = true) by reflexivity.
  rewrite Ht. cbn [loads_obj]. subst text.
  rewrite (loads_lines float_repr float_of_str (l :: ls)) by (try discriminate; exact Hok).
  reflexivity.
Qed.

Lemma add_all_exported orders :
  Forall (fun o => Forall line_ok (order_lines o)) orders ->
  add_all float_of_str (map exported_row orders) =
  Ret (map (fun o => <[Some "order_lines" := imported_lines o]> (exported_row o)) orders).
Proof.
  induction 1 as [|o orders Ho Hos IH]; [reflexivity|].
  cbn [map add_all]. rewrite (add_lines_exported o Ho). cbn [mbind res_bind].
  rewrite IH. reflexivity.
Qed.

Lemma add_order_lines_malformed (row : gmap (option string) pyobj) cell msg :
  row !! Some "OrderLinesJSON" = Some (PyStr cell) ->
  loads float_of_str cell = Raise (JSONDecodeError msg) ->
  add_order_lines float_of_str row = Ret (<[Some "order_lines" := PyList []]> row).
Proof.
  intros Hrow Hbad. unfold add_order_lines. rewrite Hrow.
  destruct (py_truthy (PyStr cell)); [|reflexivity].
  cbn [loads_obj]. rewrite Hbad. reflexivity.
Qed.

Lemma export_orders_ok orders path w :
  write_fault w !! path = None ->
  export_orders float_repr orders path w = (Ret tt, after_export orders path w).
Proof.
  intros Hw. unfold export_orders. rewrite export_rows_text.
  fold (CSVHandler.exported_text float_repr orders). unfold write_text. rewrite Hw. reflexivity.
Qed.

Lemma bind_ret {A B} (a : A) (k : A -> res B) : (Ret a ≫= k) = k a.
Proof. reflexivity. Qed.

Lemma read_exported orders path w :
  read_fault w !! path = None ->
  read_text path (after_export orders path w) = Ret (universal_newlines (exported_text orders)).
Proof.
  intros Hr. unfold read_text, CSVHandler.after_export. cbn [files read_fault].
  rewrite lookup_insert_eq, Hr. reflexivity.
Qed.

Lemma import_exported orders path w :
  read_fault w !! path = None ->
  Forall (fun o => Forall line_ok (order_lines o)) orders ->
  Forall (cells_fit float_repr) orders ->
  import_orders float_of_str path (after_export orders path w) =
  (Ret (map (fun o => <[Some "order_lines" := imported_lines o]> (exported_row o)) orders),
   after_export orders path w).
Proof.
  intros Hr Hfloats Hfit. unfold import_orders.
  rewrite (read_exported orders path w Hr), bind_ret, (exported_rows orders Hfit), bind_ret.
  change (fun o => dict_row fieldnames (map universal_newlines (order_cells o)))
    with exported_row.
  rewrite (add_all_exported orders Hfloats). reflexivity.
Qed.

(** The import of an exported file whose first order has a client name
    without comma, quote or line break that is longer than the field limit. *)
Lemma import_long_name o orders path w :
  read_fault w !! path = None ->
  existsb_str is_special (client_name o) = false ->
  (Limits.FIELD_SIZE_LIMIT < Limits.text_length (client_name o))%Z ->
  fst (import_orders float_of_str path (after_export (o :: orders) path w)) =
  Raise (CsvError "field larger than field limit (131072)").
Proof.
  intros Hr Hplain Hlong. unfold import_orders.
  rewrite (read_exported (o :: orders) path w Hr), bind_ret.
  unfold dict_reader_rows, reader_rows. rewrite exported_records.
  cbn [map fold_right].
  change (map universal_newlines fieldnames)
    with (universal_newlines "Client Name" :: map universal_newlines (tl fieldnames)).
  rewrite read_record by (try discriminate; apply fieldnames_readable).
  unfold CSVHandler.order_cells at 1. cbn [map].
  rewrite record_text_cons.
  rewrite (universal_newlines_id (client_name o)) by (apply special_none_no_CR, Hplain).
  unfold write_field at 1. rewrite Hplain.
  change parse_reset with (mk START_RECORD EmptyString []).
  rewrite read_long_field by assumption. reflexivity.
Qed.

(** C1 (amended).  When the file can be written and read, every quantity
    is within the digit limit of [int], every float of the order lines is
    written by [repr] as a float token that [float] reads back, and every
    cell written is within the field limit of the csv reader, the export
    succeeds and the import of the exported file returns one row per order,
    in order, whose [order_lines] is the list of the order's lines, each
    with its product code, quantity, unit price and line total (the empty
    list for an order without lines); and a row whose OrderLinesJSON cell
    makes [json.loads] raise [JSONDecodeError] gets the empty list. *)
Theorem export_then_import (orders : list Order) (path : string) (w : world)
    (Hw : write_fault w !! path = None)
    (Hr : read_fault w !! path = None)
    (Hlines : Forall (fun o => Forall line_ok (order_lines o)) orders)
    (Hcells : Forall (cells_fit float_repr) orders) :
  fst (export_orders float_repr orders path w) = Ret tt /\
  (exists rows,
     fst (import_orders float_of_str path (snd (export_orders float_repr orders path w)))
       = Ret rows /\
     Forall2 (fun row o =>
                row !! Some "order_lines" =
                Some (PyList
                        (map (fun line =>
                                PyDict [ ("product_code", PyStr (product_code line));
                                         ("quantity", PyInt (quantity line));
                                         ("unit_price", PyFloat (unit_price line));
                                         ("line_total", PyFloat (line_total line)) ])
                             (order_lines o))))
             rows orders) /\
  (forall (row : gmap (option string) pyobj) cell msg,
     row !! Some "OrderLinesJSON" = Some (PyStr cell) ->
     loads float_of_str cell = Raise (JSONDecodeError msg) ->
     add_order_lines float_of_str row = Ret (<[Some "order_lines" := PyList []]> row)).
Proof.
  rewrite (export_orders_ok orders path w Hw). cbn [fst snd].
  split; [reflexivity|]. split; [|apply add_order_lines_malformed].
  rewrite (import_exported orders path w Hr Hlines Hcells). cbn [fst].
  eexists. split; [reflexivity|].
  clear. induction orders as [|o orders IH]; [constructor|].
  cbn [map]. constructor; [|exact IH].
  rewrite lookup_insert_eq. reflexivity.
Qed.

End RoundTrip.

End CSVHandlerFacts.

Lemma export_then_import_witness :
  OS.write_fault empty_world !! "orders.csv" = None /\
  OS.read_fault empty_world !! "orders.csv" = None /\
  Forall (fun o => Forall (CSVHandler.line_ok Demo.float_repr Demo.float_of_str)
                          (Models.order_lines o)) demo_orders /\
  Forall (CSVHandler.cells_fit Demo.float_repr) demo_orders /\
  exists rows,
    fst (CSVHandler.import_orders Demo.float_of_str "orders.csv"
           (snd (CSVHandler.export_orders Demo.float_repr demo_orders "orders.csv" empty_world)))
      = Ret rows /\
    Forall2 (fun row o =>
               row !! Some "order_lines" =
               Some (Json.PyList
                       (map (fun line =>
                               Json.PyDict
                                 [ ("product_code", Json.PyStr (Models.product_code line));
                                   ("quantity", Json.PyInt (Models.quantity line));
                                   ("unit_price", Json.PyFloat (Models.unit_price line));
                                   ("line_total", Json.PyFloat (Models.line_total line)) ])
                            (Models.order_lines o))))
            rows demo_orders.
Proof.
  assert (H : Forall (fun o => Forall (CSVHandler.line_ok Demo.float_repr Demo.float_of_str)
                                  (Models.order_lines o)) demo_orders).
  { repeat constructor. }
  assert (Hfit : Forall (CSVHandler.cells_fit Demo.float_repr) demo_orders).
  { repeat constructor; vm_compute; discriminate. }
  split; [reflexivity|]. split; [reflexivity|]. split; [exact H|]. split; [exact Hfit|].
  exact (proj1 (proj2 (CSVHandlerFacts.export_then_import Demo.float_repr Demo.float_of_str
                         demo_orders "orders.csv" empty_world eq_refl eq_refl H Hfit))).
Defined.

(** C1 as stated fails on an order with a cell longer than the csv reader
    takes: the export of an order whose client name has 131073 letters
    succeeds, and the import of the exported file raises the error of the
    reader. *)
Lemma export_then_import_long_cell :
  fst (CSVHandler.export_orders Demo.float_repr [long_name_order] "orders.csv" empty_world)
    = Ret tt /\
  fst (CSVHandler.import_orders Demo.float_of_str "orders.csv"
         (snd (CSVHandler.export_orders Demo.float_repr [long_name_order]
                 "orders.csv" empty_world)))
    = Raise (CsvError "field larger than field limit (131072)").
Proof.
  rewrite (CSVHandlerFacts.export_orders_ok Demo.float_repr [long_name_order]
             "orders.csv" empty_world eq_refl).
  split; [reflexivity|]. cbn [snd].
  apply CSVHandlerFacts.import_long_name; [reflexivity| |]; vm_compute; reflexivity.
Qed.

(** The two orders, exported and imported again: the quoted cells come
    back without their quotes, the line break of the address as a single
    LF, the numbers of the other columns as text, and the order lines as
    objects. *)
Example import_demo_orders :
  (rows ← fst (CSVHandler.import_orders Demo.float_of_str "orders.csv"
                 (snd (CSVHandler.export_orders Demo.float_repr demo_orders
                         "orders.csv" empty_world)));
   Ret (map (fun row : gmap (option string) Json.pyobj =>
               (row !! Some "Client Name", row !! Some "Address",
                row !! Some "Delivery Fee", row !! Some "order_lines")) rows)) =
  Ret [ (Some (Json.PyStr "Rabe, Jean"),
         Some (Json.PyStr ("Lot 12" +:+ String OS.LF "Ambohibao")),
         Some (Json.PyStr "3000.0"),
         Some (Json.PyList
                 [Json.PyDict [("product_code", Json.PyStr "CA");
                               ("quantity", Json.PyInt 2);
                               ("unit_price", Json.PyFloat (PyFloat.Finite 25000));
                               ("line_total", Json.PyFloat (PyFloat.Finite 50000))]]));
        (Some (Json.PyStr "Soa"), Some (Json.PyStr ""), Some (Json.PyStr ""),
         Some (Json.PyList [])) ].
Proof. vm_compute. reflexivity. Qed.

(** A file written by hand: a cell that is not JSON, and a short row. *)
Example import_malformed_cell :
  let text := "Client Name,OrderLinesJSON" +:+ OS.newline +:+
              "Soa,[{" +:+ OS.newline +:+ "Aina" +:+ OS.newline in
  let w := {| OS.files := {[ "o.csv" := text ]}; OS.read_fault := ∅;
              OS.write_fault := ∅; OS.console := [] |} in
  (rows ← fst (CSVHandler.import_orders Demo.float_of_str "o.csv" w);
   Ret (map (fun row : gmap (option string) Json.pyobj =>
               (row !! Some "Client Name", row !! Some "OrderLinesJSON",
                row !! Some "order_lines")) rows)) =
  Ret [ (Some (Json.PyStr "Soa"), Some (Json.PyStr "[{"), Some (Json.PyList []));
        (Some (Json.PyStr "Aina"), Some Json.PyNone, Some (Json.PyList [])) ].
Proof. vm_compute. reflexivity. Qed.

(** ** utils/parsers.py: when [parse_product_field] returns *)

Module ParserTokensFacts.
Import PyStr PyStrFacts StripFacts Parsers ParserTokens JsonFacts PatternFacts.

Lemma PRODUCT_PATTERN_no_match c r :
  isalnum_char c = false -> PRODUCT_PATTERN_match (String c r) = None.
Proof. intros Hc. unfold PRODUCT_PATTERN_match. cbn [rep]. rewrite Hc. reflexivity. Qed.

Lemma lstrip_by_split p s : s = take_while p s +:+ lstrip_by p s.
Proof.
  induction s as [|c s IH]; [reflexivity|]. cbn [take_while lstrip_by].
  destruct (p c); [cbn [String.append]; f_equal; exact IH|reflexivity].
Qed.

Lemma take_while_all p s : forallb_str p (take_while p s) = true.
Proof.
  induction s as [|c s IH]; [reflexivity|]. cbn [take_while].
  destruct (p c) eqn:Hc; [cbn [forallb_str]; rewrite Hc; exact IH|reflexivity].
Qed.

Lemma dashes_digits_not_space b :
  isdigit (lstrip_by (Ascii.eqb "-") b) = true -> forallb_str not_space b = true.
Proof.
  intros H. apply andb_true_iff in H as [_ H].
  rewrite (lstrip_by_split (Ascii.eqb "-") b), forallb_str_app.
  apply andb_true_iff. split.
  - generalize (take_while_all (Ascii.eqb "-") b). apply OSFacts.forallb_str_impl.
    intros c Hc. apply Ascii.eqb_eq in Hc as <-. reflexivity.
  - apply digits_not_space, H.
Qed.

Lemma startswith_dashes c d r :
  startswith (String c (String d r)) "--" = Ascii.eqb "-" c && Ascii.eqb "-" d.
Proof. cbn [startswith]. destruct (Ascii.eqb "-" c), (Ascii.eqb "-" d); reflexivity. Qed.

Lemma lstrip_by_cons p c s :
  lstrip_by p (String c s) = if p c then lstrip_by p s else String c s.
Proof. reflexivity. Qed.

(** [int] on dashes followed by digits: it accepts at most one dash. *)
Lemma int_of_dashes_digits b :
  isdigit (lstrip_by (Ascii.eqb "-") b) = true ->
  if startswith b "--"
  then int_of_str b = Raise (ValueError ("invalid literal for int() with base 10: " +:+ b))
  else exists n, int_of_str b = Ret n.
Proof.
  intros H. pose proof (dashes_digits_not_space b H) as Hsp.
  destruct b as [|c r]; [discriminate|].
  rewrite lstrip_by_cons in H.
  destruct (Ascii.eqb "-" c) eqn:Hc.
  - apply Ascii.eqb_eq in Hc as <-.
    destruct r as [|d r']; [discriminate|].
    rewrite startswith_dashes, lstrip_by_cons in *.
    destruct (Ascii.eqb "-" d) eqn:Hd.
    + apply Ascii.eqb_eq in Hd as <-. cbn [andb Ascii.eqb Bool.eqb].
      unfold int_of_str. rewrite (strip_none _ Hsp). reflexivity.
    + rewrite andb_false_r. apply andb_true_iff in H as [_ H].
      rewrite (int_of_str_minus (String d r') H) by discriminate. eauto.
  - assert (Hs : startswith (String c r) "--" = false)
      by (cbn [startswith]; rewrite Hc; reflexivity).
    rewrite Hs. apply andb_true_iff in H as [_ H].
    rewrite (int_of_str_digits (String c r) H) by discriminate. eauto.
Qed.

Lemma upper_upper s : upper (upper s) = upper s.
Proof.
  induction s as [|c s IH]; [reflexivity|]. cbn [upper]. rewrite IH. f_equal.
  destruct c as [[] [] [] [] [] [] [] []]; reflexivity.
Qed.

(** One turn of the loop on a non-blank token: an entry with an upper-case
    code is added, or [int] raises on a token of the shape above. *)
Lemma parse_items_step item :
  truthy (strip item) = true ->
  (~ raising_token item /\
   exists e, upper_case (code e) /\
     forall rest parsed,
       parse_items (item :: rest) parsed = parse_items rest (parsed ++ [e])) \/
  (raising_token item /\
   exists msg, forall rest parsed,
     parse_items (item :: rest) parsed = Raise (ValueError msg)).
Proof.
  intros Ht. destruct (strip item) as [|c r] eqn:Es; [discriminate|].
  destruct (isalnum_char c) eqn:Hc.
  - left. split.
    { intros [Hs _]. unfold starts_alnum in Hs. rewrite Es in Hs. congruence. }
    destruct (PRODUCT_PATTERN_match_alnum c r Hc) as (g2 & Hm & Hg).
    assert (Hq : exists q,
               match g2 with
               | Some raw => if truthy raw then int_of_str raw else Ret 1%Z
               | None => Ret 1%Z
               end = Ret q).
    { destruct g2 as [raw|]; [|eauto]. destruct Hg as [-> [n ->]]. eauto. }
    destruct Hq as [q Hq].
    exists {| code := upper (take_while isalnum_char (String c r)); qty := q |}.
    split; [apply upper_upper|]. intros rest parsed.
    cbn [parse_items]. cbv zeta. rewrite Es. cbn [truthy is_empty negb].
    rewrite Hm, Hq. reflexivity.
  - pose proof (PRODUCT_PATTERN_no_match c r Hc) as Hm.
    assert (Hstep : forall rest parsed,
              parse_items (item :: rest) parsed =
              if (length (words (String c r)) =? 2)%nat
                 && isdigit (lstrip_by (Ascii.eqb "-") (nth_str (words (String c r)) 1))
              then
                (q ← int_of_str (nth_str (words (String c r)) 1);
                 parse_items rest
                   (parsed ++ [{| code := upper (nth_str (words (String c r)) 0); qty := q |}]))
              else parse_items rest (parsed ++ [{| code := upper (String c r); qty := 1 |}])).
    { intros rest parsed. cbn [parse_items]. cbv zeta. rewrite Es.
      cbn [truthy is_empty negb]. rewrite Hm. reflexivity. }
    assert (Hsa : starts_alnum item = false).
    { unfold starts_alnum. rewrite Es. exact Hc. }
    destruct ((length (words (String c r)) =? 2)%nat
              && isdigit (lstrip_by (Ascii.eqb "-") (nth_str (words (String c r)) 1)))
      eqn:Hguard.
    + apply andb_true_iff in Hguard as [Hlen Hdig]. apply Nat.eqb_eq in Hlen.
      destruct (words (String c r)) as [|a [|b [|x l]]] eqn:Hw; try discriminate Hlen.
      cbn [nth_str nth] in *.
      pose proof (int_of_dashes_digits b Hdig) as Hint.
      destruct (startswith b "--") eqn:Hdd.
      * right. split.
        { split; [exact Hsa|]. exists a, b. rewrite Es. auto. }
        eexists. intros rest parsed. rewrite Hstep, Hint. reflexivity.
      * left. split.
        { intros (_ & a' & b' & Hw' & _ & Hdd'). rewrite Es, Hw in Hw'.
          injection Hw' as <- <-. congruence. }
        destruct Hint as [n Hn].
        exists {| code := upper a; qty := n |}. split; [apply upper_upper|].
        intros rest parsed. rewrite Hstep, Hn. reflexivity.
    + left. split.
      { intros (_ & a' & b' & Hw' & Hdig' & _). rewrite Es in Hw'.
        rewrite Hw' in Hguard. cbn [length nth_str nth Nat.eqb andb] in Hguard. congruence. }
      exists {| code := upper (String c r); qty := 1 |}. split; [apply upper_upper|].
      intros rest parsed. rewrite Hstep. reflexivity.
Qed.

Lemma parse_items_returns (items : list string) : forall parsed,
  Forall (fun t => ~ raising_token t) (filter (fun p => truthy (strip p) = true) items) ->
  exists entries,
    parse_items items parsed = Ret (parsed ++ entries) /\
    length entries = length (filter (fun p => truthy (strip p) = true) items) /\
    Forall (fun e => upper_case (code e)) entries.
Proof.
  induction items as [|item rest IH]; intros parsed Hall.
  - exists []. rewrite app_nil_r. repeat split. constructor.
  - rewrite filter_cons in *. case_decide as Ht.
    + inversion Hall as [|? ? Hitem Hrest]; subst.
      destruct (parse_items_step item Ht) as [(_ & e & He & Hstep)|(Hbad & _)];
        [|contradiction].
      destruct (IH (parsed ++ [e]) Hrest) as (entries & Hp & Hlen & Hup).
      exists (e :: entries). rewrite Hstep, Hp, <- app_assoc.
      repeat split; [simpl; rewrite Hlen; reflexivity|constructor; assumption].
    + cbn [parse_items]. cbv zeta.
      destruct (truthy (strip item)); [congruence|]. cbn [negb]. apply IH, Hall.
Qed.

Lemma parse_items_raises (items : list string) : forall parsed,
  Exists raising_token (filter (fun p => truthy (strip p) = true) items) ->
  exists msg, parse_items items parsed = Raise (ValueError msg).
Proof.
  induction items as [|item rest IH]; intros parsed Hex.
  - inversion Hex.
  - rewrite filter_cons in Hex. case_decide as Ht.
    + destruct (parse_items_step item Ht) as [(Hgood & e & _ & Hstep)|(_ & msg & Hstep)].
      * rewrite Hstep. apply IH. inversion Hex; subst; [contradiction|assumption].
      * exists msg. apply Hstep.
    + cbn [parse_items]. cbv zeta.
      destruct (truthy (strip item)); [congruence|]. cbn [negb]. apply IH, Hex.
Qed.

Lemma parse_items_raise_inv (items : list string) : forall parsed e,
  parse_items items parsed = Raise e ->
  Exists raising_token (filter (fun p => truthy (strip p) = true) items).
Proof.
  induction items as [|item rest IH]; intros parsed e Hp; [discriminate|].
  rewrite filter_cons. case_decide as Ht.
  - destruct (parse_items_step item Ht) as [(_ & e0 & _ & Hstep)|(Hr & _)].
    + apply Exists_cons_tl. rewrite Hstep in Hp. apply (IH _ _ Hp).
    + apply Exists_cons_hd, Hr.
  - cbn [parse_items] in Hp. cbv zeta in Hp.
    destruct (truthy (strip item)); [congruence|]. apply (IH _ _ Hp).
Qed.

Lemma parse_product_field_good text :
  Forall (fun t => ~ raising_token t) (tokens text) ->
  exists entries, parse_product_field text = Ret entries /\
    length entries = length (tokens text) /\
    Forall (fun e => upper_case (code e)) entries.
Proof.
  intros Hall. unfold parse_product_field. destruct (blank text) eqn:Hb.
  - exists []. rewrite (tokens_blank text Hb). repeat split. constructor.
  - apply (parse_items_returns _ [] Hall).
Qed.

Lemma parse_product_field_bad text :
  Exists raising_token (tokens text) ->
  exists msg, parse_product_field text = Raise (ValueError msg).
Proof.
  intros Hex. unfold parse_product_field. destruct (blank text) eqn:Hb.
  - rewrite (tokens_blank text Hb) in Hex. inversion Hex.
  - apply (parse_items_raises _ [] Hex).
Qed.

(** X1.  On a field of ASCII text that is no longer than the digit limit of
    [int], so that no quantity in it is beyond that limit,
    [parse_product_field] returns exactly when no non-blank token of the
    field is a token that starts with neither a letter nor a digit and
    consists of two words of which the second is two or more dashes
    followed by digits.  When it returns there is one entry per non-blank
    token and every code is upper case; otherwise the exception is the
    [ValueError] of [int].  A blank field gives the empty list. *)
Theorem parse_product_field_returns_iff (text : string)
    (Hascii : Limits.is_ascii text = true)
    (Hlen : (String.length text <= Limits.INT_MAX_STR_DIGITS)%nat) :
  ((exists entries, parse_product_field text = Ret entries) <->
   Forall (fun t => ~ raising_token t) (tokens text)) /\
  (forall entries, parse_product_field text = Ret entries ->
     length entries = length (tokens text) /\
     Forall (fun e => upper_case (code e)) entries) /\
  (forall e, parse_product_field text = Raise e ->
     (exists msg, e = ValueError msg) /\ Exists raising_token (tokens text)) /\
  (blank text = true -> parse_product_field text = Ret []).
Proof.
  pose proof (parse_product_field_good text) as Hgood.
  pose proof (parse_product_field_bad text) as Hbad.
  assert (Hret : forall entries, parse_product_field text = Ret entries ->
            Forall (fun t => ~ raising_token t) (tokens text)).
  { intros entries Hp. apply Forall_forall. intros t Ht Hr.
    destruct Hbad as [msg Hm]; [apply Exists_exists; eauto|]. congruence. }
  split; [|split; [|split]].
  - split; [intros [entries Hp]; eapply Hret, Hp|].
    intros Hall. destruct (Hgood Hall) as (entries & Hp & _). eauto.
  - intros entries Hp. destruct (Hgood (Hret _ Hp)) as (entries' & Hp' & Hl & Hu).
    rewrite Hp in Hp'. injection Hp' as <-. auto.
  - intros e He.
    assert (Hex : Exists raising_token (tokens text)).
    { unfold parse_product_field in He. destruct (blank text); [discriminate|].
      apply (parse_items_raise_inv _ _ _ He). }
    split; [|exact Hex]. destruct (Hbad Hex) as [msg Hm]. exists msg. congruence.
  - intros Hb. unfold parse_product_field. rewrite Hb. reflexivity.
Qed.

Lemma parse_product_field_returns_iff_witness :
  Limits.is_ascii "CA x 2, # --5; TA" = true /\
  (String.length "CA x 2, # --5; TA" <= Limits.INT_MAX_STR_DIGITS)%nat /\
  Exists raising_token (tokens "CA x 2, # --5; TA") /\
  ~ (exists entries, parse_product_field "CA x 2, # --5; TA" = Ret entries).
Proof.
  assert (Hascii : Limits.is_ascii "CA x 2, # --5; TA" = true) by reflexivity.
  assert (Hlen : (String.length "CA x 2, # --5; TA" <= Limits.INT_MAX_STR_DIGITS)%nat)
    by (apply Nat.leb_le; vm_compute; reflexivity).
  assert (Hbad : Exists raising_token (tokens "CA x 2, # --5; TA")).
  { apply Exists_cons_tl, Exists_cons_hd. split; [reflexivity|].
    exists "#", "--5". repeat split; reflexivity. }
  split; [exact Hascii|]. split; [exact Hlen|]. split; [exact Hbad|].
  intros Hret.
  apply (proj1 (proj1 (parse_product_field_returns_iff _ Hascii Hlen))) in Hret.
  apply Exists_exists in Hbad as (t & Ht & Hraise).
  rewrite Forall_forall in Hret. exact (Hret t Ht Hraise).
Defined.

End ParserTokensFacts.

(** ** utils/formatters.py: [parse_numeric] on what [format_currency] writes *)

Module CurrencyRoundTripFacts.
Import PyStr PyStrFacts StripFacts PyNum PyNumFacts PyFloat Formatters FormattersFacts
       ParseNumericFacts JsonFacts.

Lemma filter_str_app p a b : filter_str p (a +:+ b) = filter_str p a +:+ filter_str p b.
Proof.
  induction a as [|c a IH]; [reflexivity|]. cbn [String.append filter_str].
  destruct (p c); [cbn [String.append]|]; rewrite IH; reflexivity.
Qed.

(** Without its spaces the grouped text is the plain decimal text. *)
Lemma group_thousands_no_space ds :
  forallb_str isdigit_char ds = true ->
  filter_str (fun c => negb (Ascii.eqb " " c)) (group_thousands " " ds) = ds.
Proof.
  induction ds as [|c r IH]; [reflexivity|]. intros Hd.
  cbn [forallb_str] in Hd. apply andb_true_iff in Hd as [Hc Hr].
  cbn [group_thousands filter_str].
  replace (negb (Ascii.eqb " " c)) with true
    by (destruct c as [[] [] [] [] [] [] [] []]; try discriminate; reflexivity).
  f_equal.
  destruct ((0 <? String.length r)%nat && (String.length r mod 3 =? 0)%nat);
    [rewrite filter_str_app|]; apply IH, Hr.
Qed.

(** A text in which the first character of [old] does not occur is left
    alone by [replace]. *)
Lemma replace_absent a old new s :
  forallb_str (fun c => negb (Ascii.eqb a c)) s = true ->
  replace (String a old) new s = s.
Proof.
  unfold replace. induction s as [|c s IH]; [reflexivity|]. intros H.
  cbn [forallb_str] in H. apply andb_true_iff in H as [Hc Hs].
  apply negb_true_iff in Hc. cbn [replace_aux startswith]. rewrite Hc, (IH Hs). reflexivity.
Qed.

Lemma replace_suffix_Ar s :
  forallb_str (fun c => negb (Ascii.eqb "A" c)) s = true ->
  replace "Ar" "" (s +:+ "Ar") = s.
Proof.
  unfold replace. induction s as [|c s IH]; [reflexivity|]. intros H.
  cbn [forallb_str] in H. apply andb_true_iff in H as [Hc Hs].
  apply negb_true_iff in Hc. cbn [String.append replace_aux startswith].
  rewrite Hc, (IH Hs). reflexivity.
Qed.

Lemma rstrip_by_last p s c :
  p c = false -> rstrip_by p (s +:+ String c EmptyString) = s +:+ String c EmptyString.
Proof.
  intros Hc. induction s as [|d s IH]; cbn [String.append rstrip_by].
  - rewrite Hc. reflexivity.
  - rewrite IH. destruct s; reflexivity.
Qed.

(** The sign and the digits of an integer are its decimal text. *)
Lemma sign_digits n :
  (if (n <? 0)%Z then "-" else "") +:+ str_of_int (Z.abs n) = str_of_int n.
Proof.
  destruct n as [|p|p]; [reflexivity|reflexivity|].
  change (Z.neg p <? 0)%Z with true. change (Z.abs (Z.neg p)) with (Z.pos p).
  rewrite str_of_int_neg, str_of_int_pos. reflexivity.
Qed.

Lemma str_of_int_plain n :
  forallb_str (fun c => isdigit_char c || Ascii.eqb "-" c) (str_of_int n) = true.
Proof.
  destruct n as [|p|p]; [reflexivity| |].
  - rewrite str_of_int_pos. generalize (uint_digits (Pos.to_uint p)).
    apply OSFacts.forallb_str_impl. intros c ->. reflexivity.
  - rewrite str_of_int_neg. cbn [forallb_str]. generalize (uint_digits (Pos.to_uint p)).
    apply OSFacts.forallb_str_impl. intros c ->. reflexivity.
Qed.

Lemma plain_without a s :
  isdigit_char a = false -> Ascii.eqb "-" a = false ->
  forallb_str (fun c => isdigit_char c || Ascii.eqb "-" c) s = true ->
  forallb_str (fun c => negb (Ascii.eqb a c)) s = true.
Proof.
  intros Ha Hm. apply OSFacts.forallb_str_impl. intros c Hc.
  apply negb_true_iff. destruct (Ascii.eqb a c) eqn:E; [|reflexivity].
  apply Ascii.eqb_eq in E. subst c. rewrite Ha, Hm in Hc. discriminate.
Qed.

Lemma str_of_int_head n : exists c r, str_of_int n = String c r /\ isspace c = false.
Proof.
  pose proof (str_of_int_plain n) as H.
  destruct (str_of_int n) as [|c r] eqn:E.
  - destruct n as [|p|p]; [discriminate| |].
    + rewrite str_of_int_pos in E. exfalso. apply (pos_uint_not_empty p E).
    + rewrite str_of_int_neg in E. discriminate.
  - exists c, r. split; [reflexivity|]. cbn [forallb_str] in H.
    apply andb_true_iff in H as [Hc _].
    destruct c as [[] [] [] [] [] [] [] []]; try discriminate; reflexivity.
Qed.

Lemma absent_not_contains a s :
  forallb_str (fun c => negb (Ascii.eqb a c)) s = true -> contains_char a s = false.
Proof.
  unfold contains_char. induction s as [|d s IH]; [reflexivity|].
  cbn [forallb_str existsb_str]. intros H. apply andb_true_iff in H as [Hd Hs].
  apply negb_true_iff in Hd. rewrite Hd. apply IH, Hs.
Qed.

(** The cleaning steps of [parse_numeric] on a rendered integer amount. *)
Lemma cleaned_currency n :
  replace "," ""
    (replace "ar" ""
       (replace "Ar" ""
          (replace " " ""
             (strip ((if (n <? 0)%Z then "-" else "") +:+
                     thousands_with_spaces (Z.abs n) +:+ " Ar"))))) = str_of_int n.
Proof.
  set (sign := if (n <? 0)%Z then "-" else "").
  set (text := sign +:+ thousands_with_spaces (Z.abs n) +:+ " Ar").
  assert (Hstrip : strip text = text).
  { unfold strip.
    assert (Hl : lstrip_by isspace text = text).
    { subst text sign. destruct (n <? 0)%Z; [reflexivity|]. cbn [String.append].
      unfold thousands_with_spaces. destruct (str_of_int_head (Z.abs n)) as (c & r & -> & Hc).
      cbn [group_thousands String.append lstrip_by]. rewrite Hc. reflexivity. }
    rewrite Hl. subst text.
    change " Ar" with (" A" +:+ "r"). rewrite <- !app_assoc_str.
    apply rstrip_by_last. reflexivity. }
  rewrite Hstrip. subst text.
  rewrite (replace_char_filter " "), !filter_str_app.
  unfold thousands_with_spaces.
  rewrite group_thousands_no_space by apply str_of_int_digits, Z.abs_nonneg.
  replace (filter_str (fun d => negb (Ascii.eqb " " d)) sign) with sign
    by (subst sign; destruct (n <? 0)%Z; reflexivity).
  change (filter_str (fun d => negb (Ascii.eqb " " d)) " Ar") with "Ar".
  rewrite <- app_assoc_str. subst sign. rewrite sign_digits.
  pose proof (str_of_int_plain n) as Hp.
  rewrite replace_suffix_Ar by (apply plain_without; [reflexivity|reflexivity|exact Hp]).
  rewrite (replace_absent "a" "r") by (apply plain_without; [reflexivity|reflexivity|exact Hp]).
  apply (replace_absent "," ""). apply plain_without; [reflexivity|reflexivity|exact Hp].
Qed.

(** X2.  For an integer amount that the floats hold exactly, up to [2^53]
    in magnitude, [format_currency] returns a text, and [parse_numeric]
    reads that amount back from it, a negative one included; when negative
    values are not allowed the result is [None] exactly for the negative
    amounts. *)
Theorem parse_numeric_format_currency (float_of_str : string -> option Q)
    (float_of_text : string -> option pyfloat) (float_repr : Q -> string) (n : Z)
    (Hn : (Z.abs n <= EXACT_INT_MAX)%Z) :
  exists text,
    format_currency float_of_text float_repr (VInt n) = Ret text /\
    parse_numeric float_of_str text true = Ret (Some (PInt n)) /\
    parse_numeric float_of_str text false = Ret (if (n <? 0)%Z then None else Some (PInt n)).
Proof.
  eexists. split; [apply FormattersFacts.format_currency_int, Hn|].
  unfold parse_numeric. rewrite cleaned_currency.
  destruct (str_of_int_head n) as (c & r & Hs & _).
  assert (Hdot : contains_char "." (str_of_int n) = false)
    by (apply absent_not_contains, plain_without;
        [reflexivity|reflexivity|apply str_of_int_plain]).
  assert (Htr : truthy (str_of_int n) = true) by (rewrite Hs; reflexivity).
  rewrite Htr, Hdot. cbn [negb]. rewrite int_of_str_of_int.
  split; [reflexivity|].
  cbn [catch mbind res_bind pynum_value negb andb].
  destruct (Qlt_le_dec (inject_Z n) 0) as [H|H], (n <? 0)%Z eqn:E; try reflexivity.
  - apply Z.ltb_ge in E. exfalso. apply (Qlt_not_le _ _ H).
    change 0%Q with (inject_Z 0). rewrite <- Zle_Qle. exact E.
  - apply Z.ltb_lt in E. exfalso. change 0%Q with (inject_Z 0) in H.
    rewrite <- Zle_Qle in H. lia.
Qed.

Lemma parse_numeric_format_currency_witness :
  (Z.abs (-1234567) <= EXACT_INT_MAX)%Z /\
  exists text,
    format_currency Demo.float_of_text Demo.float_repr (VInt (-1234567)) = Ret text /\
    parse_numeric Demo.float_of_str text true = Ret (Some (PInt (-1234567))) /\
    parse_numeric Demo.float_of_str text false = Ret None.
Proof.
  split; [vm_compute; discriminate|].
  apply (parse_numeric_format_currency Demo.float_of_str Demo.float_of_text Demo.float_repr
           (-1234567)).
  vm_compute. discriminate.
Defined.

End CurrencyRoundTripFacts.

(** ** utils/formatters.py: [parse_numeric] never raises *)

Module ParseNumericResultFacts.
Import PyStr PyStrFacts StripFacts Formatters ParseNumericFacts PatternFacts.

Lemma blank_strip_empty s : blank s = true -> strip s = EmptyString.
Proof.
  unfold blank. destruct s as [|c r]; [reflexivity|]. cbn [truthy is_empty negb orb].
  destruct (strip (String c r)); [reflexivity|discriminate].
Qed.

(** X3.  For every text and both settings of [allow_negative],
    [parse_numeric] returns: the failures of [int] and [float] give [None].
    When negative values are not allowed a returned number is never
    negative, and a blank text gives [None]. *)
Theorem parse_numeric_result (float_of_str : string -> option Q)
    (s : string) (allow_negative : bool) :
  exists r,
    parse_numeric float_of_str s allow_negative = Ret r /\
    (allow_negative = false -> forall v, r = Some v -> (0 <= pynum_value v)%Q) /\
    (blank s = true -> r = None).
Proof.
  destruct (parse_numeric_returns float_of_str s allow_negative) as [r Hr].
  exists r. split; [exact Hr|]. split.
  - intros -> v ->. revert Hr. unfold parse_numeric.
    set (cleaned := replace "," "" _).
    destruct (negb (truthy cleaned)); [discriminate|].
    destruct (contains_char "." cleaned).
    + destruct (float_str float_of_str cleaned) as [x|e]; cbn [mbind res_bind catch negb andb].
      * cbn [pynum_value]. destruct (Qlt_le_dec x 0) as [H|H]; [discriminate|].
        intros [= <-]. exact H.
      * destruct (is_value_or_type_error e); discriminate.
    + destruct (int_of_str cleaned) as [n|e]; cbn [mbind res_bind catch negb andb].
      * cbn [pynum_value]. destruct (Qlt_le_dec (inject_Z n) 0) as [H|H]; [discriminate|].
        intros [= <-]. exact H.
      * destruct (is_value_or_type_error e); discriminate.
  - intros Hb. revert Hr. unfold parse_numeric. rewrite (blank_strip_empty s Hb).
    cbn. intros [= <-]. reflexivity.
Qed.

End ParseNumericResultFacts.

(** ** utils/formatters.py: [capitalize_name] *)

Module CapitalizeFacts.
Import PyStr PyStrFacts StripFacts Capitalize PatternFacts.

Lemma words_aux_word w : forall cur rest,
  forallb_str not_space w = true ->
  words_aux (Some cur) (w +:+ rest) = words_aux (Some (cur +:+ w)) rest.
Proof.
  induction w as [|c w IH]; intros cur rest Hw.
  - rewrite app_empty_r. reflexivity.
  - cbn [forallb_str] in Hw. apply andb_true_iff in Hw as [Hc Hw].
    apply negb_true_iff in Hc. cbn [String.append words_aux]. rewrite Hc.
    rewrite (IH _ _ Hw), app_assoc_str. reflexivity.
Qed.

Lemma words_aux_start w rest :
  is_word w -> words_aux None (w +:+ rest) = words_aux (Some w) rest.
Proof.
  intros [Hne Hw]. destruct w as [|c w]; [contradiction|].
  cbn [forallb_str] in Hw. apply andb_true_iff in Hw as [Hc Hw].
  apply negb_true_iff in Hc. cbn [String.append words_aux]. rewrite Hc.
  apply (words_aux_word w (String c EmptyString) rest Hw).
Qed.

(** Splitting undoes joining with one space. *)
Lemma words_join ws : Forall is_word ws -> words (Json.join " " ws) = ws.
Proof.
  unfold words. induction 1 as [|w ws Hw Hws IH]; [reflexivity|].
  destruct ws as [|w' ws'].
  - cbn [Json.join]. rewrite <- (app_empty_r w) at 1.
    rewrite (words_aux_start w _ Hw). reflexivity.
  - change (Json.join " " (w :: w' :: ws')) with (w +:+ " " +:+ Json.join " " (w' :: ws')).
    rewrite (words_aux_start w _ Hw). cbn [String.append words_aux].
    change (isspace " ") with true. cbv iota. rewrite IH. reflexivity.
Qed.

Lemma words_aux_words s : forall cur,
  match cur with Some w => is_word w | None => True end ->
  Forall is_word (words_aux cur s).
Proof.
  induction s as [|c s IH]; intros cur Hcur; cbn [words_aux].
  - destruct cur; [constructor; [assumption|constructor]|constructor].
  - destruct (isspace c) eqn:Hc.
    + destruct cur; [constructor; [assumption|]|]; apply (IH None I).
    + apply IH. destruct cur as [w|].
      * destruct Hcur as [Hne Hw]. split; [destruct w; discriminate|].
        rewrite forallb_str_app, Hw. cbn [forallb_str]. unfold not_space. rewrite Hc. reflexivity.
      * split; [discriminate|]. cbn [forallb_str]. unfold not_space. rewrite Hc. reflexivity.
Qed.

Lemma words_are_words s : Forall is_word (words s).
Proof. apply (words_aux_words s None I). Qed.

Lemma words_spaces s : forallb_str isspace s = true -> words s = [].
Proof.
  unfold words. induction s as [|c s IH]; [reflexivity|]. cbn [forallb_str words_aux].
  intros H. apply andb_true_iff in H as [-> Hs]. apply IH, Hs.
Qed.

Lemma lower_not_space r : forallb_str not_space r = true -> forallb_str not_space (lower r) = true.
Proof.
  induction r as [|c r IH]; [reflexivity|]. cbn [forallb_str lower]. intros H.
  apply andb_true_iff in H as [Hc Hr]. rewrite (IH Hr), andb_true_r.
  revert Hc. destruct c as [[] [] [] [] [] [] [] []]; intros Hc; try discriminate Hc; reflexivity.
Qed.

Lemma capitalize_word w : is_word w -> is_word (capitalize w).
Proof.
  intros [Hne Hw]. destruct w as [|c r]; [contradiction|].
  split; [discriminate|]. cbn [capitalize forallb_str] in *.
  apply andb_true_iff in Hw as [Hc Hr]. rewrite (lower_not_space r Hr), andb_true_r.
  revert Hc. destruct c as [[] [] [] [] [] [] [] []]; intros Hc; try discriminate Hc; reflexivity.
Qed.

Lemma lower_lower r : lower (lower r) = lower r.
Proof.
  induction r as [|c r IH]; [reflexivity|]. cbn [lower]. rewrite IH. f_equal.
  destruct c as [[] [] [] [] [] [] [] []]; reflexivity.
Qed.

Lemma capitalize_capitalize w : capitalize (capitalize w) = capitalize w.
Proof.
  destruct w as [|c r]; [reflexivity|]. cbn [capitalize]. rewrite lower_lower. f_equal.
  destruct c as [[] [] [] [] [] [] [] []]; reflexivity.
Qed.



End CapitalizeFacts.

(** ** validators/validators.py: the delivery fee *)

Module DeliveryFeeFacts.
Import PyStr PyFloat Formatters DeliveryFee.

Lemma not_below_zero_iff (x : pyfloat) : not_below_zero x <-> lt_zero x = false.
Proof.
  destruct x as [q| |[]]; cbn [not_below_zero lt_zero]; try (split; congruence); [|tauto].
  destruct (Qlt_le_dec q 0) as [Hn|Hp]; split; try congruence; try tauto.
  intros Hq. exfalso. apply (Qlt_not_le _ _ Hn Hq).
Qed.

Lemma is_empty_iff (s : string) : is_empty s = true <-> s = EmptyString.
Proof. destruct s; simpl; split; congruence. Qed.

Section Fee.
Variable float_of_text : string -> option pyfloat.

Abbreviation validate_delivery_fee := (DeliveryFee.validate_delivery_fee float_of_text).

(** A fee given as a float. *)
Lemma validate_float_fee (x : pyfloat) :
  validate_delivery_fee (VFloat x) =
  Ret (if lt_zero x then (false, "Delivery fee cannot be negative") else (true, "OK")).
Proof.
  unfold DeliveryFee.validate_delivery_fee.
  cbn [is_none_or_empty float_of_value mbind res_bind].
  destruct (lt_zero x); reflexivity.
Qed.

(** A fee given as text, as the cells of the table give it. *)
Lemma validate_text_fee (s : string) :
  exists ok msg,
    validate_delivery_fee (VStr s) = Ret (ok, msg) /\
    (ok = true <->
     s <> EmptyString /\ exists x, float_of_text s = Some x /\ not_below_zero x) /\
    (ok = true -> msg = "OK") /\
    (s = EmptyString -> msg = "Delivery fee is required") /\
    (s <> EmptyString -> float_of_text s = None ->
       msg = "Delivery fee must be a valid number") /\
    (forall x, s <> EmptyString -> float_of_text s = Some x -> lt_zero x = true ->
       msg = "Delivery fee cannot be negative").
Proof.
  unfold DeliveryFee.validate_delivery_fee. cbn [is_none_or_empty].
  destruct s as [|c s].
  - exists false, "Delivery fee is required". cbn [is_empty].
    split; [reflexivity|]. split; [|split; [|split; [|split]]]; try congruence.
    split; [discriminate|]. intros [H _]. congruence.
  - cbn [is_empty float_of_value]. unfold float_of_string.
    assert (Hne : String c s <> EmptyString) by discriminate.
    destruct (float_of_text (String c s)) as [x|] eqn:Hx;
      cbn [mbind res_bind catch is_value_or_type_error].
    + destruct (lt_zero x) eqn:Hsign; eexists _, _; (split; [reflexivity|]).
      * split; [|split; [|split; [|split]]]; try congruence.
        split; [discriminate|]. intros (_ & y & [= <-] & Hy).
        apply not_below_zero_iff in Hy. congruence.
      * split; [|split; [|split; [|split]]]; try congruence.
        split; [|reflexivity]. intros _. split; [exact Hne|].
        exists x. split; [reflexivity|apply not_below_zero_iff, Hsign].
    + eexists _, _. split; [reflexivity|].
      split; [|split; [|split; [|split]]]; try congruence.
      split; [discriminate|]. intros (_ & y & Hy & _). discriminate.
Qed.

(** X5.  [validate_delivery_fee] returns for every fee that is text, a
    float or [None].  A text is accepted, with the message OK, exactly when
    it is not empty and [float] reads in it a float that is not below zero:
    a finite one from zero on, the positive infinity, and also [nan], for
    which the test [fee_value < 0] is false; the empty text and [None] are
    required, a text that [float] does not read must be a number, a float
    below zero cannot be negative.  An [int] up to [2^53] is judged by its
    sign, and one beyond the floats makes the function raise the
    [OverflowError] of [float], which its [except] does not name. *)
Theorem validate_delivery_fee_spec :
  (forall s : string,
     exists ok msg,
       validate_delivery_fee (VStr s) = Ret (ok, msg) /\
       (ok = true <->
        s <> EmptyString /\ exists x, float_of_text s = Some x /\ not_below_zero x) /\
       (ok = true -> msg = "OK") /\
       (s = EmptyString -> msg = "Delivery fee is required") /\
       (s <> EmptyString -> float_of_text s = None ->
          msg = "Delivery fee must be a valid number") /\
       (forall x, s <> EmptyString -> float_of_text s = Some x -> lt_zero x = true ->
          msg = "Delivery fee cannot be negative")) /\
  (forall x : pyfloat,
     validate_delivery_fee (VFloat x) =
     Ret (if lt_zero x then (false, "Delivery fee cannot be negative") else (true, "OK"))) /\
  validate_delivery_fee (VFloat NaN) = Ret (true, "OK") /\
  (forall s : string, s <> EmptyString -> float_of_text s = Some NaN ->
     validate_delivery_fee (VStr s) = Ret (true, "OK")) /\
  validate_delivery_fee VNone = Ret (false, "Delivery fee is required") /\
  (forall n : Z, (Z.abs n <= EXACT_INT_MAX)%Z ->
     validate_delivery_fee (VInt n) =
     Ret (if (n <? 0)%Z then (false, "Delivery fee cannot be negative") else (true, "OK"))) /\
  validate_delivery_fee (VInt (10 ^ 400)) =
    Raise (OverflowError "int too large to convert to float").
Proof.
  split; [exact validate_text_fee|]. split; [exact validate_float_fee|].
  split; [reflexivity|]. split; [|split; [reflexivity|split]].
  - intros s Hne Hs. unfold DeliveryFee.validate_delivery_fee. cbn [is_none_or_empty].
    destruct s as [|c s]; [contradiction|].
    cbn [is_empty float_of_value]. unfold float_of_string. rewrite Hs. reflexivity.
  - intros n Hn. unfold DeliveryFee.validate_delivery_fee.
    cbn [is_none_or_empty float_of_value]. rewrite (FormattersFacts.of_int_exact n Hn).
    cbn [mbind res_bind lt_zero catch].
    destruct (Qlt_le_dec (inject_Z n) 0) as [H|H], (n <? 0)%Z eqn:E; try reflexivity.
    + apply Z.ltb_ge in E. exfalso. apply (Qlt_not_le _ _ H).
      change 0%Q with (inject_Z 0). rewrite <- Zle_Qle. exact E.
    + apply Z.ltb_lt in E. exfalso. change 0%Q with (inject_Z 0) in H.
      rewrite <- Zle_Qle in H. lia.
  - vm_compute. reflexivity.
Qed.

End Fee.

End DeliveryFeeFacts.

(** ** data/addresses_manager.py: the history over several operations *)

Module AddressHistoryFacts.
Import PyStr PyStrFacts StripFacts OS OSFacts AddressManager AddressManagerFacts AddressHistory.

Lemma save_address_faults path a w :
  read_fault (save_address path a w) = read_fault w /\
  write_fault (save_address path a w) = write_fault w.
Proof.
  unfold save_address. destruct (blank a); [auto|].
  assert (Hl : read_fault (snd (load_addresses path w)) = read_fault w /\
               write_fault (snd (load_addresses path w)) = write_fault w).
  { unfold load_addresses. destruct (negb (path_exists path w)); [auto|].
    destruct (read_text path w); auto. }
  destruct (load_addresses path w) as [prior w0]. cbn [snd] in Hl.
  unfold write_text. destruct (write_fault w0 !! path); cbn; exact Hl.
Qed.

Lemma save_address_accessible path a w :
  accessible path w -> accessible path (save_address path a w).
Proof.
  unfold accessible. destruct (save_address_faults path a w) as [-> ->]. auto.
Qed.

(** A save followed by a load, on a file that can be read and written. *)
Lemma save_then_load path w a :
  accessible path w -> blank a = false -> single_line (strip a) = true ->
  fst (load_addresses path (save_address path a w)) =
  moved_to_front (strip a) (fst (load_addresses path w)).
Proof.
  intros [Hr Hw] Hnb Hline.
  assert (Hhist : Forall entry_ok (fst (load_addresses path w)))
    by apply load_addresses_ok, Hr.
  assert (Ha : entry_ok (strip a)).
  { split; [apply strip_idem|]. split; [|exact Hline].
    pose proof (blank_false_strip a Hnb) as H. destruct (strip a); [discriminate|congruence]. }
  unfold save_address. rewrite Hnb.
  rewrite (load_addresses_accessible path w Hr) in *. cbn [fst] in *.
  set (prior := match files w !! path with
                | Some data => stripped_lines (universal_newlines data)
                | None => []
                end) in *.
  replace (if list_in (strip a) prior then list_remove (strip a) prior else prior)
    with (list_remove (strip a) prior)
    by (destruct (list_in (strip a) prior) eqn:Hin;
        [reflexivity|apply list_in_false_remove, Hin]).
  fold (moved_to_front (strip a) prior). unfold write_text. rewrite Hw.
  rewrite load_addresses_accessible by exact Hr. cbn [fst files].
  rewrite lookup_insert_eq. apply read_back.
  apply Forall_take. constructor; [exact Ha|]. apply list_remove_ok, Hhist.
Qed.

Lemma save_blank path w a : blank a = true -> save_address path a w = w.
Proof. intros H. unfold save_address. rewrite H. reflexivity. Qed.

Lemma moved_to_front_NoDup a h : NoDup h -> NoDup (moved_to_front a h).
Proof.
  intros Hnd. unfold moved_to_front.
  eapply sublist_NoDup; [|apply sublist_take].
  rewrite (list_remove_NoDup a h Hnd). constructor.
  - intros Hin. apply list_elem_of_filter in Hin as [Hne _]. congruence.
  - apply NoDup_filter, Hnd.
Qed.

Lemma list_remove_elem a h x : x ∈ list_remove a h -> x ∈ h.
Proof.
  induction h as [|y h IH]; simpl; [auto|].
  destruct (String.eqb a y); intros H; [right; exact H|].
  apply elem_of_cons in H as [->|H]; [left|right; auto].
Qed.

Lemma moved_to_front_elem a h x : x ∈ moved_to_front a h -> x = a \/ x ∈ h.
Proof.
  unfold moved_to_front. intros H.
  apply (subseteq_take _ _ x) in H.
  apply elem_of_cons in H as [->|H]; [left; reflexivity|right].
  eapply list_remove_elem, H.
Qed.

Lemma moved_to_front_length a h :
  (length (moved_to_front a h) <= Nat.max 200 (length h))%nat.
Proof.
  unfold moved_to_front. rewrite length_take. unfold Config.MAX_ADDRESS_HISTORY. lia.
Qed.

(** X6.  Over any series of saves on a history file that can be read and
    written and that holds no entry twice, with addresses whose trimmed
    form is one line: the history holds no entry twice, it grows to at most
    200 entries (or stays as long as it was), every entry is an entry of
    the history before or one of the saved addresses, trimmed, and the
    last saved address comes first when it is not blank. *)
Theorem save_addresses_invariant (path : string) (addresses : list string) (w : world)
    (Hacc : accessible path w)
    (Hnodup : NoDup (fst (load_addresses path w)))
    (Hlines : Forall (fun a => single_line (strip a) = true) addresses) :
  let before := fst (load_addresses path w) in
  let after := fst (load_addresses path (save_addresses path addresses w)) in
  NoDup after /\
  (length after <= Nat.max 200 (length before))%nat /\
  (forall x, x ∈ after -> x ∈ before \/ exists a, a ∈ addresses /\ x = strip a) /\
  (forall a, last addresses = Some a -> blank a = false -> head after = Some (strip a)).
Proof.
  cbv zeta. unfold save_addresses.
  revert w Hacc Hnodup. induction Hlines as [|a rest Ha Hrest IH] using Forall_ind;
    intros w Hacc Hnodup.
  - cbn [fold_left]. repeat split; [exact Hnodup|lia|auto|discriminate].
  - cbn [fold_left].
    assert (Hstep : NoDup (fst (load_addresses path (save_address path a w))) /\
              (length (fst (load_addresses path (save_address path a w)))
               <= Nat.max 200 (length (fst (load_addresses path w))))%nat /\
              (forall x, x ∈ fst (load_addresses path (save_address path a w)) ->
                 x ∈ fst (load_addresses path w) \/ x = strip a) /\
              (blank a = false ->
               head (fst (load_addresses path (save_address path a w))) = Some (strip a))).
    { destruct (blank a) eqn:Hb.
      - rewrite (save_blank path w a Hb). repeat split; [exact Hnodup|lia|auto|discriminate].
      - rewrite (save_then_load path w a Hacc Hb Ha). split; [|split; [|split]].
        + apply moved_to_front_NoDup, Hnodup.
        + apply moved_to_front_length.
        + intros x Hx. apply moved_to_front_elem in Hx as [->|Hx]; auto.
        + reflexivity. }
    destruct Hstep as (Hnd1 & Hlen1 & Helem1 & Hhead1).
    destruct (IH (save_address path a w) (save_address_accessible path a w Hacc) Hnd1)
      as (Hnd & Hlen & Helem & Hhead).
    split; [|split; [|split]].
    + exact Hnd.
    + lia.
    + intros x Hx. destruct (Helem x Hx) as [H|(b & Hb & ->)].
      * destruct (Helem1 x H) as [H1| ->]; [left; exact H1|].
        right. exists a. split; [left|reflexivity].
      * right. exists b. split; [right; exact Hb|reflexivity].
    + intros b Hlast Hb. destruct rest as [|a' rest'].
      * cbn [last] in Hlast. injection Hlast as <-. cbn [fold_left]. apply Hhead1, Hb.
      * apply Hhead; [|exact Hb]. exact Hlast.
Qed.

Lemma save_addresses_invariant_witness :
  accessible "addresses.txt" empty_world /\
  NoDup (fst (load_addresses "addresses.txt" empty_world)) /\
  Forall (fun a => single_line (strip a) = true) ["Lot 12"; " Villa 3 "; "Lot 12"] /\
  NoDup (fst (load_addresses "addresses.txt"
                (save_addresses "addresses.txt" ["Lot 12"; " Villa 3 "; "Lot 12"]
                   empty_world))).
Proof.
  assert (Hacc : accessible "addresses.txt" empty_world) by (split; reflexivity).
  assert (Hnd : NoDup (fst (load_addresses "addresses.txt" empty_world)))
    by (cbn; constructor).
  assert (Hl : Forall (fun a => single_line (strip a) = true)
                 ["Lot 12"; " Villa 3 "; "Lot 12"])
    by (repeat constructor).
  split; [exact Hacc|]. split; [exact Hnd|]. split; [exact Hl|].
  exact (proj1 (save_addresses_invariant "addresses.txt" ["Lot 12"; " Villa 3 "; "Lot 12"]
                  empty_world Hacc Hnd Hl)).
Defined.

Example save_addresses_three :
  fst (load_addresses "addresses.txt"
         (save_addresses "addresses.txt" ["Lot 12"; " Villa 3 "; "Lot 12"] empty_world)) =
  ["Lot 12"; "Villa 3"].
Proof. vm_compute. reflexivity. Qed.

Lemma clear_history_removed refused path w :
  refused !! path = None ->
  clear_history refused path w =
  {| files := delete path (files w); read_fault := read_fault w;
     write_fault := write_fault w; console := console w |}.
Proof.
  intros Hrm. unfold clear_history, path_exists, remove_file.
  destruct (files w !! path) as [data|] eqn:Hf.
  - rewrite Hrm. reflexivity.
  - destruct w as [f r wf c]. cbn in *. f_equal.
    symmetry. apply delete_id, Hf.
Qed.

Lemma clear_history_refused refused path w e :
  files w !! path <> None -> refused !! path = Some e ->
  clear_history refused path w =
  print ("Error clearing address history: " +:+ exn_str e) w.
Proof.
  intros Hf Hrm. unfold clear_history, path_exists, remove_file.
  destruct (files w !! path) as [data|]; [|contradiction].
  rewrite Hrm. reflexivity.
Qed.

(** X7.  Where the history file can be read and written and the system
    does not refuse its removal, [clear_history] removes that file and no
    other, prints nothing, and leaves an empty history; clearing twice is
    clearing once; after it the history of a saved one-line address is
    that address alone.  Where the system refuses the removal of the
    existing file, as in a directory that cannot be written, the file
    stays, no file changes, and the exception is printed after the words
    "Error clearing address history". *)
Theorem clear_history_then_load (refused : gmap string exn) (path : string) (w : world)
    (Hacc : accessible path w) :
  (refused !! path = None ->
     fst (load_addresses path (clear_history refused path w)) = [] /\
     files (clear_history refused path w) !! path = None /\
     (forall other, other <> path ->
        files (clear_history refused path w) !! other = files w !! other) /\
     console (clear_history refused path w) = console w /\
     clear_history refused path (clear_history refused path w) =
       clear_history refused path w /\
     (forall a, blank a = false -> single_line (strip a) = true ->
        fst (load_addresses path (save_address path a (clear_history refused path w)))
        = [strip a])) /\
  (forall e, refused !! path = Some e -> files w !! path <> None ->
     files (clear_history refused path w) = files w /\
     console (clear_history refused path w) =
       console w ++ ["Error clearing address history: " +:+ exn_str e]).
Proof.
  destruct Hacc as [Hr Hw]. split.
  - intros Hrm. rewrite (clear_history_removed refused path w Hrm).
    set (cleared := {| files := delete path (files w); read_fault := read_fault w;
                       write_fault := write_fault w; console := console w |}).
    assert (Hgone : files cleared !! path = None) by apply lookup_delete_eq.
    assert (Hload : fst (load_addresses path cleared) = []).
    { unfold load_addresses, path_exists. rewrite Hgone. reflexivity. }
    split; [|split; [|split; [|split; [|split]]]].
    + exact Hload.
    + exact Hgone.
    + intros other Hne. apply lookup_delete_ne. congruence.
    + reflexivity.
    + unfold clear_history, path_exists. rewrite Hgone. reflexivity.
    + intros a Hb Hl.
      rewrite (save_then_load path cleared a (conj Hr Hw) Hb Hl), Hload. reflexivity.
  - intros e Hrm Hf. rewrite (clear_history_refused refused path w e Hf Hrm).
    split; reflexivity.
Qed.

Lemma clear_history_then_load_witness :
  accessible "addresses.txt" (save_address "addresses.txt" "Lot 12" empty_world) /\
  fst (load_addresses "addresses.txt"
         (clear_history ∅ "addresses.txt"
            (save_address "addresses.txt" "Lot 12" empty_world))) = [] /\
  files (clear_history (<["addresses.txt" := PermissionError "addresses.txt"]> ∅)
           "addresses.txt" (save_address "addresses.txt" "Lot 12" empty_world))
    = files (save_address "addresses.txt" "Lot 12" empty_world).
Proof.
  split; [split; reflexivity|]. split.
  - exact (proj1 (proj1 (clear_history_then_load ∅ "addresses.txt"
                           (save_address "addresses.txt" "Lot 12" empty_world)
                           (conj eq_refl eq_refl)) eq_refl)).
  - exact (proj1 (proj2 (clear_history_then_load
                           (<["addresses.txt" := PermissionError "addresses.txt"]> ∅)
                           "addresses.txt"
                           (save_address "addresses.txt" "Lot 12" empty_world)
                           (conj eq_refl eq_refl))
                        (PermissionError "addresses.txt") eq_refl
                        ltac:(vm_compute; discriminate))).
Defined.

(** X8.  Whatever the history file holds, and also when it is missing or
    cannot be read, every entry that [load_addresses] returns is trimmed,
    not empty and without a line break inside; loading changes no file,
    and prints one line exactly when the file exists and reading it fails. *)
Theorem load_addresses_entries (path : string) (w : world) :
  Forall entry_ok (fst (load_addresses path w)) /\
  files (snd (load_addresses path w)) = files w /\
  (forall e, files w !! path <> None -> read_text path w = Raise e ->
     fst (load_addresses path w) = [] /\
     console (snd (load_addresses path w)) =
       console w ++ ["Error loading addresses: " +:+ exn_str e]) /\
  ((files w !! path = None \/ exists text, read_text path w = Ret text) ->
     snd (load_addresses path w) = w).
Proof.
  unfold load_addresses, path_exists, read_text.
  destruct (files w !! path) as [data|] eqn:Hf; cbn [negb].
  - destruct (read_fault w !! path) as [e|] eqn:Hr; cbn [fst snd].
    + split; [constructor|]. split; [reflexivity|]. split.
      * intros e' _ [= <-]. auto.
      * intros [H|[text H]]; discriminate.
    + split; [apply loaded_entries_ok|]. split; [reflexivity|]. split.
      * intros e _ H. discriminate.
      * reflexivity.
  - cbn [fst snd]. split; [constructor|]. split; [reflexivity|]. split.
    + intros e H. contradiction.
    + reflexivity.
Qed.

End AddressHistoryFacts.

(** ** data/agents_manager.py: saving and loading again *)

Module AgentNamesFacts.
Import PyStr PyStrFacts StripFacts OS OSFacts AddressManager AddressManagerFacts
       AgentManager AgentManagerFacts AgentNames.

Lemma kept_names_ok names :
  Forall (fun a => single_line (strip a) = true) names -> Forall entry_ok (kept_names names).
Proof.
  unfold kept_names. induction 1 as [|a names Ha Hnames IH]; [constructor|].
  rewrite filter_cons. case_decide as Ht; [|exact IH].
  cbn [map]. constructor; [|exact IH].
  split; [apply strip_idem|]. split; [|exact Ha].
  destruct (strip a); [discriminate|congruence].
Qed.

(** X9.  On an agents file that can be read and written, with names whose
    trimmed form is one line and the default list untouched: after
    [save_agents], [load_agents] returns a new list that holds the saved
    names, trimmed and without the blank ones, in order; when none is left
    it holds the default names. *)
Theorem save_agents_then_load (path : string) (st : state) (agents : nat)
    (names : list string)
    (Hagents : heap st !! agents = Some names)
    (Hdefault : heap st !! DEFAULT_AGENTS_ref = Some Config.DEFAULT_AGENTS)
    (Hacc : accessible path (os st))
    (Hlines : Forall (fun a => single_line (strip a) = true) names) :
  let saved := save_agents path agents st in
  let r := (load_agents path saved).1 in
  let st' := (load_agents path saved).2 in
  heap st' !! r =
    Some (match kept_names names with
          | [] => Config.DEFAULT_AGENTS
          | _ :: _ => kept_names names
          end) /\
  (r ∉ dom (heap st)) /\
  heap st' !! agents = Some names.
Proof.
  cbv zeta. destruct Hacc as [Hr Hw].
  pose proof (kept_names_ok names Hlines) as Hok.
  assert (Hsaved : save_agents path agents st =
            {| os := {| files := <[path := lines_text (kept_names names)]> (files (os st));
                        read_fault := read_fault (os st);
                        write_fault := write_fault (os st);
                        console := console (os st) |};
               heap := heap st |}).
  { unfold save_agents, write_text. rewrite Hagents, Hw. reflexivity. }
  rewrite Hsaved. unfold load_agents, path_exists, read_text. cbn [os heap files read_fault].
  rewrite lookup_insert_eq, Hr. cbn [negb]. rewrite (read_back _ Hok).
  destruct (alloc (kept_names names) (heap st)) as [r h] eqn:E.
  pose proof (alloc_fresh (kept_names names) (heap st)) as Hf.
  pose proof (alloc_lookup (kept_names names) (heap st)) as Hl.
  pose proof (alloc_keeps (kept_names names) (heap st) _ _ Hdefault) as Hk.
  pose proof (alloc_keeps (kept_names names) (heap st) _ _ Hagents) as Hka.
  rewrite E in Hf, Hl, Hk, Hka. cbn [fst snd] in *.
  destruct (kept_names names) as [|a l] eqn:Hkept.
  - destruct (get_default_agents _) as [r' st'] eqn:G.
    pose proof G as G'. unfold get_default_agents, list_copy in G'. cbn [heap os] in G'.
    rewrite Hk in G'. cbn [default from_option id] in G'.
    pose proof (alloc_fresh Config.DEFAULT_AGENTS h) as Hf'.
    pose proof (alloc_lookup Config.DEFAULT_AGENTS h) as Hl'.
    pose proof (alloc_keeps Config.DEFAULT_AGENTS h _ _ Hka) as Hka'.
    destruct (alloc Config.DEFAULT_AGENTS h) as [r2 h2] eqn:E2.
    injection G' as <- <-. cbn [fst snd heap] in *.
    split; [exact Hl'|]. split; [|exact Hka'].
    intros Hin. apply Hf'. apply elem_of_dom. apply elem_of_dom in Hin as [x Hx].
    exists x. pose proof (alloc_keeps [] (heap st) _ _ Hx) as Hx'.
    rewrite E in Hx'. exact Hx'.
  - cbn [fst snd heap]. split; [exact Hl|]. split; [exact Hf|exact Hka].
Qed.

Lemma save_agents_then_load_witness :
  let st := {| os := empty_world;
               heap := <[1%nat := ["  Soa "; " "; "Hery"]]> initial_heap |} in
  heap st !! 1%nat = Some ["  Soa "; " "; "Hery"] /\
  heap st !! DEFAULT_AGENTS_ref = Some Config.DEFAULT_AGENTS /\
  accessible "agents.txt" (os st) /\
  Forall (fun a => single_line (strip a) = true) ["  Soa "; " "; "Hery"] /\
  heap (load_agents "agents.txt" (save_agents "agents.txt" 1 st)).2
    !! (load_agents "agents.txt" (save_agents "agents.txt" 1 st)).1 = Some ["Soa"; "Hery"].
Proof.
  cbv zeta.
  assert (Hl : Forall (fun a => single_line (strip a) = true) ["  Soa "; " "; "Hery"])
    by (repeat constructor).
  split; [reflexivity|]. split; [reflexivity|]. split; [split; reflexivity|].
  split; [exact Hl|].
  exact (proj1 (save_agents_then_load "agents.txt"
                  {| os := empty_world;
                     heap := <[1%nat := ["  Soa "; " "; "Hery"]]> initial_heap |}
                  1 ["  Soa "; " "; "Hery"] eq_refl eq_refl (conj eq_refl eq_refl) Hl)).
Defined.

End AgentNamesFacts.

(** ** The flat-file layer: writes that fail *)

Module WriteFailureFacts.
Import PyStr OS AddressManager AgentManager.

(** X10.  When the file cannot be opened for writing, [save_address],
    [save_agents] and [save_products_example] return normally, leave every
    file as it was and print the exception as the last line of the console;
    [export_orders] prints it too, writes nothing, and raises it again. *)
Theorem failed_writes (path : string) (w : world) (e : exn)
    (Hfail : write_fault w !! path = Some e) :
  (forall a, blank a = false ->
     files (save_address path a w) = files w /\
     last (console (save_address path a w)) = Some ("Error saving address: " +:+ exn_str e)) /\
  (forall agents h,
     let st := save_agents path agents {| os := w; heap := h |} in
     files (os st) = files w /\ heap st = h /\
     console (os st) = console w ++ ["Error saving agents: " +:+ exn_str e]) /\
  (path = Config.PRODUCTS_FILE ->
     files (ProductsLoader.save_products_example w) = files w /\
     console (ProductsLoader.save_products_example w) =
       console w ++ ["Error creating sample products file: " +:+ exn_str e]) /\
  (forall float_repr orders,
     CSVHandler.export_orders float_repr orders path w =
     (Raise e, print ("Error exporting orders: " +:+ exn_str e) w)).
Proof.
  split; [|split; [|split]].
  - intros a Hb. unfold save_address. rewrite Hb.
    assert (Hl : files (snd (load_addresses path w)) = files w /\
                 write_fault (snd (load_addresses path w)) = write_fault w).
    { unfold load_addresses. destruct (negb (path_exists path w)); [auto|].
      destruct (read_text path w); auto. }
    destruct (load_addresses path w) as [prior w0]. cbn [snd] in Hl. destruct Hl as [Hf Hwf].
    unfold write_text. rewrite Hwf, Hfail. cbn [print files console].
    split; [exact Hf|apply last_snoc].
  - intros agents h. cbv zeta. unfold save_agents, write_text. cbn [os heap].
    rewrite Hfail. cbn. auto.
  - intros ->. unfold ProductsLoader.save_products_example, write_text.
    rewrite Hfail. cbn. auto.
  - intros float_repr orders. unfold CSVHandler.export_orders, write_text.
    destruct (CSVHandler.export_rows float_repr orders) as [text failure].
    rewrite Hfail. reflexivity.
Qed.

Lemma failed_writes_witness :
  let w := {| files := ∅; read_fault := ∅;
              write_fault := {[ "orders.csv" := PermissionError "orders.csv" ]};
              console := [] |} in
  write_fault w !! "orders.csv" = Some (PermissionError "orders.csv") /\
  CSVHandler.export_orders Demo.float_repr demo_orders "orders.csv" w =
  (Raise (PermissionError "orders.csv"),
   print ("Error exporting orders: " +:+ exn_str (PermissionError "orders.csv")) w).
Proof.
  cbv zeta. split; [reflexivity|].
  exact (proj2 (proj2 (proj2
    (failed_writes "orders.csv"
       {| files := ∅; read_fault := ∅;
          write_fault := {[ "orders.csv" := PermissionError "orders.csv" ]};
          console := [] |}
       (PermissionError "orders.csv") eq_refl))) Demo.float_repr demo_orders).
Defined.

End WriteFailureFacts.

(** ** data/products_loader.py: the catalog that [load_products] builds *)

Module CatalogFacts.
Import PyStr PyStrFacts StripFacts OS ProductsLoader ProductPrice CatalogRows.

Section Loader.
Variable float_of_str : string -> option Q.

Abbreviation add_product := (add_product float_of_str).
Abbreviation products_of_rows := (products_of_rows float_of_str).
Abbreviation row_product := (row_product float_of_str).
Abbreviation last_price := (last_price float_of_str).
Abbreviation load_products := (load_products float_of_str).

Lemma add_product_row products row :
  add_product products row =
  match row_product row with
  | Some (code, price) => <[code := price]> products
  | None => products
  end.
Proof.
  unfold ProductsLoader.add_product, CatalogRows.row_product.
  destruct (length row <? 3)%nat; [reflexivity|].
  destruct (float_of_str _); reflexivity.
Qed.

Lemma products_of_data_rows rows :
  products_of_rows rows = fold_left add_product (data_rows rows) ∅.
Proof.
  unfold ProductsLoader.products_of_rows, data_rows.
  destruct rows as [|[|cell cells] rest]; reflexivity.
Qed.

Lemma row_product_upper row code price :
  row_product row = Some (code, price) -> upper code = code.
Proof.
  unfold CatalogRows.row_product. destruct (length row <? 3)%nat; [discriminate|].
  destruct (float_of_str _); [|discriminate]. intros [= <- _].
  apply ParserTokensFacts.upper_upper.
Qed.

Lemma fold_add_upper rows : forall products,
  upper_keys products -> upper_keys (fold_left add_product rows products).
Proof.
  induction rows as [|row rows IH]; intros products Hp; [exact Hp|].
  cbn [fold_left]. apply IH. rewrite add_product_row.
  destruct (row_product row) as [[code price]|] eqn:E; [|exact Hp].
  intros k Hk. destruct (decide (k = code)) as [->|Hne].
  - eapply row_product_upper, E.
  - rewrite lookup_insert_ne in Hk by congruence. apply Hp, Hk.
Qed.

(** In a fold of rows the last row of a code decides. *)
Lemma fold_add_last rows : forall products code,
  fold_left add_product rows products !! code =
  match last_price code rows with
  | Some price => Some price
  | None => products !! code
  end.
Proof.
  induction rows as [|row rows IH]; intros products code; [reflexivity|].
  cbn [fold_left CatalogRows.last_price]. rewrite IH.
  destruct (last_price code rows) as [p|]; [reflexivity|].
  rewrite add_product_row.
  destruct (row_product row) as [[c price]|]; [|reflexivity].
  destruct (String.eqb c code) eqn:E.
  - apply String.eqb_eq in E as ->. apply lookup_insert_eq.
  - apply String.eqb_neq in E. apply lookup_insert_ne, E.
Qed.

Lemma last_price_snoc rs row code price :
  row_product row = Some (code, price) -> last_price code (rs ++ [row]) = Some price.
Proof.
  intros Hp. induction rs as [|r rs IH]; cbn [app CatalogRows.last_price].
  - rewrite Hp, String.eqb_refl. reflexivity.
  - rewrite IH. reflexivity.
Qed.

Lemma load_products_rows w :
  fst (load_products w) = ∅ \/
  exists rows, fst (load_products w) = products_of_rows rows.
Proof.
  unfold ProductsLoader.load_products.
  destruct (_ ≫= _) as [rows|e]; [right; eauto|left].
  destruct (is_file_not_found e); reflexivity.
Qed.

(** X11.  Every key of a catalog that [load_products] returns is in upper
    case, whatever the file holds; so the price of an entry is found by
    [get_product_price] under every spelling of its code that differs in
    case only, and by a plain lookup with the code that
    [parse_product_field] puts in an entry. *)
Theorem load_products_upper_keys (w : world) :
  upper_keys (fst (load_products w)) /\
  (forall k price code,
     fst (load_products w) !! k = Some price -> same_ignoring_case code k ->
     get_product_price code (fst (load_products w)) = price) /\
  (forall k price, fst (load_products w) !! k = Some price ->
     ParserTokens.upper_case k).
Proof.
  assert (Hup : upper_keys (fst (load_products w))).
  { destruct (load_products_rows w) as [-> | [rows ->]].
    - intros k [x Hx]. rewrite lookup_empty in Hx. discriminate.
    - rewrite products_of_data_rows. apply fold_add_upper.
      intros k [x Hx]. rewrite lookup_empty in Hx. discriminate. }
  split; [exact Hup|]. split.
  - intros k price code Hk Hc. unfold get_product_price, same_ignoring_case in *.
    rewrite Hc, (Hup k) by (rewrite Hk; eauto). rewrite Hk. reflexivity.
  - intros k price Hk. apply Hup. rewrite Hk. eauto.
Qed.


Lemma row_product_cells code name price unit p :
  strip price = price -> float_of_str price = Some p ->
  row_product [code; name; price; unit] = Some (upper (strip code), p).
Proof.
  intros Hs Hp. unfold CatalogRows.row_product. cbn [length Nat.ltb Nat.leb nth].
  rewrite Hs, Hp. reflexivity.
Qed.

(** X13.  When the catalog file is missing and can be written and read,
    and [float] reads the four prices of the sample, [load_products]
    creates the sample file and returns its six products; when the missing
    file cannot be written it prints that failure only and returns the
    empty catalog. *)
Theorem load_products_creates_sample (w : world)
    (Hmissing : files w !! Config.PRODUCTS_FILE = None)
    (Hread : read_fault w !! Config.PRODUCTS_FILE = None)
    (Hfloat : float_of_str "25000" = Some 25000%Q /\ float_of_str "15000" = Some 15000%Q /\
              float_of_str "50" = Some 50%Q /\ float_of_str "10000" = Some 10000%Q) :
  (write_fault w !! Config.PRODUCTS_FILE = None ->
     fst (load_products w) = sample_catalog /\
     (files (snd (load_products w)) = <[Config.PRODUCTS_FILE := sample_text]> (files w)) /\
     console (snd (load_products w)) = console w) /\
  (forall e, write_fault w !! Config.PRODUCTS_FILE = Some e ->
     fst (load_products w) = ∅ /\
     files (snd (load_products w)) = files w /\
     console (snd (load_products w)) =
       console w ++ ["Error creating sample products file: " +:+ exn_str e]).
Proof.
  destruct Hfloat as (H1 & H2 & H3 & H4).
  assert (Hrows : Csv.reader_rows (universal_newlines sample_text) =
                  Ret (["Code"; "Name"; "Price"; "Unit"] :: Config.SAMPLE_PRODUCTS))
    by (vm_compute; reflexivity).
  split.
  - intros Hw.
    unfold ProductsLoader.load_products, ensure_products_file, path_exists.
    rewrite Hmissing. cbn [negb].
    unfold save_products_example, write_text. rewrite Hw.
    fold sample_text. unfold read_text. cbn [files read_fault].
    rewrite lookup_insert_eq, Hread. cbn [mbind res_bind]. rewrite Hrows.
    cbn [fst snd files console]. split; [|split; reflexivity].
    rewrite products_of_data_rows.
    change (data_rows (["Code"; "Name"; "Price"; "Unit"] :: Config.SAMPLE_PRODUCTS))
      with Config.SAMPLE_PRODUCTS.
    unfold Config.SAMPLE_PRODUCTS. cbn [fold_left].
    rewrite !add_product_row.
    rewrite !(row_product_cells _ _ "25000" _ _ eq_refl H1),
            (row_product_cells _ _ "15000" _ _ eq_refl H2),
            (row_product_cells _ _ "50" _ _ eq_refl H3),
            (row_product_cells _ _ "10000" _ _ eq_refl H4).
    reflexivity.
  - intros e Hw.
    unfold ProductsLoader.load_products, ensure_products_file, path_exists.
    rewrite Hmissing. cbn [negb].
    unfold save_products_example, write_text. rewrite Hw.
    unfold read_text. cbn [print files]. rewrite Hmissing. cbn. auto.
Qed.

End Loader.

Lemma load_products_creates_sample_witness :
  files empty_world !! Config.PRODUCTS_FILE = None /\
  read_fault empty_world !! Config.PRODUCTS_FILE = None /\
  write_fault empty_world !! Config.PRODUCTS_FILE = None /\
  fst (ProductsLoader.load_products Demo.float_of_str empty_world) = sample_catalog.
Proof.
  split; [reflexivity|]. split; [reflexivity|]. split; [reflexivity|].
  exact (proj1 (proj1 (load_products_creates_sample Demo.float_of_str empty_world
                  eq_refl eq_refl
                  (conj eq_refl (conj eq_refl (conj eq_refl eq_refl)))) eq_refl)).
Defined.

End CatalogFacts.

(** ** data/csv_handler.py: the nine columns of an exported order *)

Module CSVColumnsFacts.
Import PyStr PyFloat OS Json Csv Models CSVHandler.

Section Columns.
Variable float_repr : Q -> string.
Variable float_of_str : string -> option Q.

Abbreviation exported_row := (CSVHandler.exported_row float_repr).

Ltac lookup_cell :=
  repeat (rewrite lookup_insert_ne by discriminate);
  first [apply lookup_insert_eq | apply lookup_empty].

(** The text of a cell as an import finds it: line ends inside the cell
    are read as LF. *)
Lemma exported_row_cells o :
  let cell s := Some (PyStr (universal_newlines s)) in
  exported_row o !! Some "Client Name" = cell (client_name o) /\
  exported_row o !! Some "Phone" = cell (phone o) /\
  exported_row o !! Some "Address" = cell (address o) /\
  exported_row o !! Some "Delivery Fee" =
    cell (match delivery_fee o with Some x => repr float_repr x | None => EmptyString end) /\
  exported_row o !! Some "Product(s)" = cell (products o) /\
  exported_row o !! Some "Total Price" = cell (repr float_repr (total_price o)) /\
  exported_row o !! Some "Status" = cell (status o) /\
  exported_row o !! Some "Agent" = cell (agent o) /\
  exported_row o !! Some "Notes" = cell (notes o) /\
  exported_row o !! None = None.
Proof.
  cbv zeta. unfold CSVHandler.exported_row, CSVHandler.order_cells, dict_row, zip_row, fieldnames.
  cbn [map length Nat.ltb Nat.leb skipn combine fold_left fst snd].
  repeat split; lookup_cell.
Qed.

(** X14.  When the file can be written and read, the order lines are ones
    that [dumps] writes and [loads] reads (quantities within the digit
    limit of [int], floats that survive [repr] and [float]) and every cell
    written is within the field limit of the csv reader, the rows that an
    import finds in an exported file are, in order, those of the orders:
    the nine columns come back as text, a text cell as it was with every
    line end inside it read as LF, a number as [repr] writes it ([nan] and
    [inf] for the floats that are no numbers), an absent fee as the empty
    text; no row has surplus cells, and the import prints nothing and
    changes no file. *)
Theorem export_then_import_columns (orders : list Order) (path : string) (w : world)
    (Hw : write_fault w !! path = None)
    (Hr : read_fault w !! path = None)
    (Hlines : Forall (fun o => Forall (line_ok float_repr float_of_str) (order_lines o)) orders)
    (Hcells : Forall (cells_fit float_repr) orders) :
  let exported := snd (export_orders float_repr orders path w) in
  let cell s := Some (PyStr (universal_newlines s)) in
  exists rows,
    import_orders float_of_str path exported = (Ret rows, exported) /\
    Forall2 (fun row o =>
               row !! Some "Client Name" = cell (client_name o) /\
               row !! Some "Phone" = cell (phone o) /\
               row !! Some "Address" = cell (address o) /\
               row !! Some "Delivery Fee" =
                 cell (match delivery_fee o with
                       | Some (Finite x) => float_repr x
                       | Some NaN => "nan"
                       | Some (Inf false) => "inf"
                       | Some (Inf true) => "-inf"
                       | None => EmptyString
                       end) /\
               row !! Some "Product(s)" = cell (products o) /\
               row !! Some "Total Price" =
                 cell (match total_price o with
                       | Finite x => float_repr x
                       | NaN => "nan"
                       | Inf false => "inf"
                       | Inf true => "-inf"
                       end) /\
               row !! Some "Status" = cell (status o) /\
               row !! Some "Agent" = cell (agent o) /\
               row !! Some "Notes" = cell (notes o) /\
               row !! None = None)
            rows orders.
Proof.
  cbv zeta. rewrite (CSVHandlerFacts.export_orders_ok float_repr orders path w Hw).
  cbn [snd].
  rewrite (CSVHandlerFacts.import_exported float_repr float_of_str orders path w Hr
             Hlines Hcells).
  eexists. split; [reflexivity|].
  clear. induction orders as [|o orders IH]; [constructor|].
  cbn [map]. constructor; [|exact IH].
  pose proof (exported_row_cells o) as H. cbv zeta in H.
  repeat (rewrite lookup_insert_ne by discriminate).
  destruct H as (H1 & H2 & H3 & H4 & H5 & H6 & H7 & H8 & H9 & H10).
  split; [exact H1|]. split; [exact H2|]. split; [exact H3|].
  split; [rewrite H4; destruct (delivery_fee o) as [[x| |[]]|]; reflexivity|].
  split; [exact H5|].
  split; [rewrite H6; destruct (total_price o) as [x| |[]]; reflexivity|].
  auto.
Qed.

End Columns.

Lemma export_then_import_columns_witness :
  write_fault empty_world !! "orders.csv" = None /\
  read_fault empty_world !! "orders.csv" = None /\
  Forall (fun o => Forall (CSVHandler.line_ok Demo.float_repr Demo.float_of_str)
                          (order_lines o)) demo_orders /\
  Forall (cells_fit Demo.float_repr) demo_orders /\
  exists rows,
    fst (import_orders Demo.float_of_str "orders.csv"
           (snd (export_orders Demo.float_repr demo_orders "orders.csv" empty_world)))
      = Ret rows /\
    length rows = length demo_orders.
Proof.
  assert (H : Forall (fun o => Forall (CSVHandler.line_ok Demo.float_repr Demo.float_of_str)
                                  (order_lines o)) demo_orders).
  { repeat constructor. }
  assert (Hfit : Forall (cells_fit Demo.float_repr) demo_orders).
  { repeat constructor; vm_compute; discriminate. }
  split; [reflexivity|]. split; [reflexivity|]. split; [exact H|]. split; [exact Hfit|].
  destruct (export_then_import_columns Demo.float_repr Demo.float_of_str
              demo_orders "orders.csv" empty_world eq_refl eq_refl H Hfit) as (rows & Hi & Hf).
  exists rows. split; [rewrite Hi; reflexivity|].
  apply (Forall2_length _ _ _ Hf).
Defined.

End CSVColumnsFacts.

(** ** utils/parsers.py: the formats of the docstring *)

Module SpellingsFacts.
Import PyStr PyStrFacts StripFacts PyNum PyNumFacts Parsers Spellings JsonFacts PatternFacts.

Lemma take_while_id p s : forallb_str p s = true -> take_while p s = s.
Proof.
  induction s as [|c s IH]; [reflexivity|]. cbn [forallb_str take_while]. intros H.
  apply andb_true_iff in H as [-> Hs]. rewrite (IH Hs). reflexivity.
Qed.

Lemma take_while_app p a b :
  forallb_str p a = true -> stops p b -> take_while p (a +:+ b) = a.
Proof.
  intros Ha Hb. induction a as [|c a IH]; cbn [String.append].
  - destruct b as [|d b]; [reflexivity|]. cbn [take_while]. cbn in Hb. rewrite Hb. reflexivity.
  - cbn [forallb_str] in Ha. apply andb_true_iff in Ha as [Hc Ha].
    cbn [take_while]. rewrite Hc, (IH Ha). reflexivity.
Qed.

Lemma lstrip_by_run p a b :
  forallb_str p a = true -> stops p b -> lstrip_by p (a +:+ b) = b.
Proof.
  intros Ha Hb. rewrite lstrip_by_app, Ha.
  destruct b as [|d b]; [reflexivity|]. cbn [lstrip_by]. cbn in Hb. rewrite Hb. reflexivity.
Qed.

Lemma rep_stop {R} cls s (k : string -> string -> option R) :
  stops cls s -> rep cls 0 s k = k EmptyString s.
Proof. destruct s as [|c s]; [reflexivity|]. cbn. intros ->. reflexivity. Qed.

(** The pattern on a token that starts with a letter or a digit, after its
    two greedy runs. *)
Lemma PRODUCT_PATTERN_match_runs c r :
  isalnum_char c = true ->
  PRODUCT_PATTERN_match (String c r) =
  match
    opt is_sep (lstrip_by isspace (lstrip_by isalnum_char (String c r))) (fun _ r3 =>
    rep isspace 0 r3 (fun _ r4 =>
    opt (Ascii.eqb "-") r4 (fun sign r5 =>
    rep isdigit_char 1 r5 (fun ds _ => Some (sign +:+ ds)))))
  with
  | Some g2 => Some (take_while isalnum_char (String c r), Some g2)
  | None => Some (take_while isalnum_char (String c r), None)
  end.
Proof.
  intros Hc. unfold PRODUCT_PATTERN_match.
  assert (Hin : forall (g1 r2 : string),
            is_Some (match
                       opt is_sep r2 (fun _ r3 =>
                       rep isspace 0 r3 (fun _ r4 =>
                       opt (Ascii.eqb "-") r4 (fun sign r5 =>
                       rep isdigit_char 1 r5 (fun ds _ => Some (sign +:+ ds)))))
                     with
                     | Some g2 => Some (g1, Some g2)
                     | None => Some (g1, None)
                     end)).
  { intros g1 r2. destruct (opt _ _ _); eauto. }
  rewrite rep_total.
  - rewrite rep_total; [reflexivity|intros _ r2; apply Hin|lia].
  - intros g1 r1. rewrite rep_total; [apply Hin|intros _ r2; apply Hin|lia].
  - cbn [take_while]. rewrite Hc. simpl. lia.
Qed.

Lemma str_of_int_stops n :
  stops isalnum_char (" x " +:+ str_of_int n) /\
  stops isspace (str_of_int n) /\ stops is_sep (str_of_int n).
Proof.
  split; [reflexivity|].
  pose proof (CurrencyRoundTripFacts.str_of_int_plain n) as H.
  destruct (str_of_int n) as [|c r]; [split; exact I|].
  cbn [forallb_str] in H. apply andb_true_iff in H as [Hc _].
  split; cbn; revert Hc; destruct c as [[] [] [] [] [] [] [] []]; intros Hc;
    try discriminate Hc; reflexivity.
Qed.

(** The end of the pattern on the text of an integer: the whole text. *)
Lemma signed_digits_match n :
  opt (Ascii.eqb "-") (str_of_int n) (fun sign r5 =>
  rep isdigit_char 1 r5 (fun ds _ => Some (sign +:+ ds))) = Some (str_of_int n).
Proof.
  assert (Hrun : forall sign ds,
            forallb_str isdigit_char ds = true -> ds <> EmptyString ->
            rep isdigit_char 1 ds (fun ds' _ => Some (sign +:+ ds')) = Some (sign +:+ ds)).
  { intros sign ds Hd Hne. rewrite rep_total.
    - rewrite (take_while_id _ _ Hd). reflexivity.
    - eauto.
    - rewrite (take_while_id _ _ Hd). destruct ds; [contradiction|simpl; lia]. }
  destruct n as [|p|p]; [reflexivity| |].
  - rewrite str_of_int_pos.
    pose proof (uint_digits (Pos.to_uint p)) as Hd.
    pose proof (pos_uint_not_empty p) as Hne.
    destruct (NilEmpty.string_of_uint (Pos.to_uint p)) as [|c r] eqn:E; [contradiction|].
    unfold opt.
    replace (Ascii.eqb "-" c) with false.
    + apply (Hrun EmptyString (String c r) Hd Hne).
    + cbn [forallb_str] in Hd. apply andb_true_iff in Hd as [Hc _].
      destruct c as [[] [] [] [] [] [] [] []]; try discriminate Hc; reflexivity.
  - rewrite str_of_int_neg. unfold opt. rewrite Ascii.eqb_refl.
    rewrite (Hrun "-" _ (uint_digits (Pos.to_uint p)) (pos_uint_not_empty p)). reflexivity.
Qed.

Lemma group2_of_int n :
  rep isspace 0 (str_of_int n) (fun _ r4 =>
  opt (Ascii.eqb "-") r4 (fun sign r5 =>
  rep isdigit_char 1 r5 (fun ds _ => Some (sign +:+ ds)))) = Some (str_of_int n).
Proof.
  rewrite rep_stop by apply str_of_int_stops. apply signed_digits_match.
Qed.

Lemma code_head i : code_ok i -> exists c r, item_code i = String c r /\ isalnum_char c = true.
Proof.
  intros [Hne Hc]. destruct (item_code i) as [|c r]; [contradiction|].
  cbn [forallb_str] in Hc. apply andb_true_iff in Hc as [Hc _]. eauto.
Qed.

(** The pattern finds the code and the quantity of every spelling. *)
Lemma match_spelled i :
  code_ok i ->
  PRODUCT_PATTERN_match (spell i) =
  Some (item_code i,
        match how i with Bare => None | _ => Some (str_of_int (item_qty i)) end).
Proof.
  intros Hok. destruct (code_head i Hok) as (c & r & Hcode & Hc).
  destruct Hok as [_ Hall]. unfold spell.
  destruct (str_of_int_stops (item_qty i)) as (Hx & Hsp & Hsep).
  set (num := str_of_int (item_qty i)) in *.
  assert (Hstart : forall rest, item_code i +:+ rest = String c (r +:+ rest))
    by (intros rest; rewrite Hcode; reflexivity).
  destruct (how i).
  - rewrite <- (app_empty_r (item_code i)) at 1. rewrite Hstart.
    rewrite (PRODUCT_PATTERN_match_runs c _ Hc), <- Hstart.
    rewrite take_while_app, lstrip_by_run by (exact Hall || exact I). reflexivity.
  - rewrite Hstart, (PRODUCT_PATTERN_match_runs c _ Hc), <- Hstart.
    rewrite take_while_app, lstrip_by_run by (exact Hall || reflexivity).
    change (lstrip_by isspace (" x " +:+ num)) with (String "x" (String " " num)).
    unfold opt at 1. change (is_sep "x") with true. cbv iota.
    cbn [rep]. change (isspace " ") with true. cbv iota. cbn [Nat.pred].
    rewrite rep_stop by exact Hsp.
    unfold num. rewrite signed_digits_match. reflexivity.
  - rewrite Hstart, (PRODUCT_PATTERN_match_runs c _ Hc), <- Hstart.
    rewrite take_while_app, lstrip_by_run by (exact Hall || reflexivity).
    change (lstrip_by isspace (":" +:+ num)) with (String ":" num).
    unfold opt at 1. change (is_sep ":") with true. cbv iota.
    unfold num. rewrite group2_of_int. reflexivity.
  - rewrite Hstart, (PRODUCT_PATTERN_match_runs c _ Hc), <- Hstart.
    rewrite take_while_app, lstrip_by_run by (exact Hall || reflexivity).
    change (" " +:+ num) with (String " " num). cbn [lstrip_by].
    change (isspace " ") with true. cbv iota.
    replace (lstrip_by isspace num) with num
      by (destruct num as [|d s]; [reflexivity|]; cbn [lstrip_by]; cbn in Hsp;
          rewrite Hsp; reflexivity).
    assert (Hopt : forall k : string -> string -> option string,
              opt is_sep num k = k EmptyString num).
    { intros k. unfold opt. destruct num as [|d s]; [reflexivity|].
      cbn in Hsep. rewrite Hsep. reflexivity. }
    rewrite Hopt. unfold num. rewrite group2_of_int. reflexivity.
Qed.

Lemma rstrip_by_app_keep p a b :
  rstrip_by p b <> EmptyString -> rstrip_by p (a +:+ b) = a +:+ rstrip_by p b.
Proof.
  intros Hb. induction a as [|c a IH]; [reflexivity|].
  cbn [String.append rstrip_by]. rewrite IH.
  destruct (a +:+ rstrip_by p b) eqn:E; [|reflexivity].
  destruct a; [cbn in E; contradiction|discriminate].
Qed.

Lemma str_of_int_not_space n : forallb_str not_space (str_of_int n) = true.
Proof.
  generalize (CurrencyRoundTripFacts.str_of_int_plain n). apply OSFacts.forallb_str_impl.
  intros c Hc. destruct c as [[] [] [] [] [] [] [] []]; try discriminate Hc; reflexivity.
Qed.

Lemma alnum_not_space s : forallb_str isalnum_char s = true -> forallb_str not_space s = true.
Proof.
  apply OSFacts.forallb_str_impl.
  intros c Hc. destruct c as [[] [] [] [] [] [] [] []]; try discriminate Hc; reflexivity.
Qed.

(** A spelled product has no white space at its ends. *)
Lemma strip_spelled pad i :
  code_ok i -> forallb_str isspace pad = true -> strip (pad +:+ spell i) = spell i.
Proof.
  intros Hok Hpad. destruct (code_head i Hok) as (c & r & Hcode & Hc).
  destruct Hok as [Hne Hall].
  assert (Hnum : rstrip_by isspace (str_of_int (item_qty i)) = str_of_int (item_qty i)).
  { apply rstrip_by_none. apply str_of_int_not_space. }
  assert (Hnum' : rstrip_by isspace (str_of_int (item_qty i)) <> EmptyString).
  { rewrite Hnum. destruct (CurrencyRoundTripFacts.str_of_int_head (item_qty i))
      as (d & s & -> & _). discriminate. }
  assert (Hl : lstrip_by isspace (pad +:+ spell i) = spell i).
  { rewrite lstrip_by_app, Hpad. unfold spell.
    assert (Hh : forall rest, lstrip_by isspace (item_code i +:+ rest) = item_code i +:+ rest).
    { intros rest. rewrite Hcode. cbn [String.append lstrip_by].
      replace (isspace c) with false; [reflexivity|].
      destruct c as [[] [] [] [] [] [] [] []]; try discriminate Hc; reflexivity. }
    destruct (how i); try apply Hh.
    rewrite <- (app_empty_r (item_code i)). apply Hh. }
  unfold strip. rewrite Hl. unfold spell. destruct (how i).
  - apply rstrip_by_none, alnum_not_space, Hall.
  - rewrite <- app_assoc_str, rstrip_by_app_keep, Hnum; [reflexivity|exact Hnum'].
  - rewrite <- app_assoc_str, rstrip_by_app_keep, Hnum; [reflexivity|exact Hnum'].
  - rewrite <- app_assoc_str, rstrip_by_app_keep, Hnum; [reflexivity|exact Hnum'].
Qed.

Lemma spelled_head i : code_ok i -> exists c r, spell i = String c r.
Proof.
  intros Hok. destruct (code_head i Hok) as (c & r & Hcode & _).
  unfold spell. rewrite Hcode. destruct (how i); cbn [String.append]; eauto.
Qed.

(** One turn of the loop on a spelled product, with white space before it. *)
Lemma parse_spelled pad i rest parsed :
  code_ok i -> forallb_str isspace pad = true ->
  parse_items ((pad +:+ spell i) :: rest) parsed =
  parse_items rest (parsed ++ [spelled_entry i]).
Proof.
  intros Hok Hpad. cbn [parse_items]. cbv zeta.
  rewrite (strip_spelled pad i Hok Hpad).
  destruct (spelled_head i Hok) as (c & r & Hs).
  assert (Ht : truthy (spell i) = true) by (rewrite Hs; reflexivity).
  rewrite Ht, (match_spelled i Hok). cbn [negb].
  unfold spelled_entry. destruct (how i); try reflexivity.
  all: destruct (CurrencyRoundTripFacts.str_of_int_head (item_qty i)) as (d & s & Hd & _);
    replace (truthy (str_of_int (item_qty i))) with true by (rewrite Hd; reflexivity);
    rewrite int_of_str_of_int; reflexivity.
Qed.

Lemma spelled_no_sep i :
  code_ok i -> forallb_str (fun c => negb (is_item_sep c)) (spell i) = true.
Proof.
  intros [_ Hall].
  assert (Hcode : forallb_str (fun c => negb (is_item_sep c)) (item_code i) = true).
  { revert Hall. apply OSFacts.forallb_str_impl.
    intros c Hc. destruct c as [[] [] [] [] [] [] [] []]; try discriminate Hc; reflexivity. }
  assert (Hnum : forallb_str (fun c => negb (is_item_sep c)) (str_of_int (item_qty i)) = true).
  { generalize (CurrencyRoundTripFacts.str_of_int_plain (item_qty i)).
    apply OSFacts.forallb_str_impl.
    intros c Hc. destruct c as [[] [] [] [] [] [] [] []]; try discriminate Hc; reflexivity. }
  unfold spell. destruct (how i); rewrite ?forallb_str_app, ?Hcode, ?Hnum; reflexivity.
Qed.

Lemma parse_spelled_items (items : list item) : forall pad parsed,
  items <> [] -> Forall code_ok items -> forallb_str isspace pad = true ->
  parse_items (split_on is_item_sep (pad +:+ Json.join ", " (map spell items))) parsed =
  Ret (parsed ++ map spelled_entry items).
Proof.
  induction items as [|i items IH]; intros pad parsed Hne Hok Hpad; [contradiction|].
  inversion Hok as [|? ? Hi Hitems]; subst.
  assert (Hpadsep : forallb_str (fun c => negb (is_item_sep c)) pad = true).
  { revert Hpad. apply OSFacts.forallb_str_impl.
    intros c Hc. destruct c as [[] [] [] [] [] [] [] []]; try discriminate Hc; reflexivity. }
  assert (Hcur : forallb_str (fun c => negb (is_item_sep c)) (pad +:+ spell i) = true)
    by (rewrite forallb_str_app, Hpadsep, (spelled_no_sep i Hi); reflexivity).
  destruct items as [|j items'].
  - cbn [map Json.join]. rewrite (split_on_no_sep _ _ Hcur).
    rewrite (parse_spelled pad i [] parsed Hi Hpad). reflexivity.
  - change (Json.join ", " (map spell (i :: j :: items')))
      with (spell i +:+ ", " +:+ Json.join ", " (map spell (j :: items'))).
    rewrite <- app_assoc_str.
    change (", " +:+ Json.join ", " (map spell (j :: items')))
      with (String "," (" " +:+ Json.join ", " (map spell (j :: items')))).
    rewrite (split_on_app_sep is_item_sep _ "," _ Hcur eq_refl).
    rewrite (parse_spelled pad i _ parsed Hi Hpad).
    rewrite (IH " " (parsed ++ [spelled_entry i])); [|discriminate|exact Hitems|reflexivity].
    rewrite <- app_assoc. reflexivity.
Qed.

(** X15.  A field that lists products in the formats of the docstring
    (code alone, code x quantity, code:quantity, code quantity), separated
    by a comma and a space, with codes of ASCII letters and digits and
    quantities within the digit limit of [int], parses to their entries in
    order: the code in upper case, the quantity as written, negative ones
    included, and 1 for a code alone. *)
Theorem parse_product_field_spelled (items : list item)
    (Hne : items <> [])
    (Hcodes : Forall code_ok items)
    (Hdigits : Forall (fun i => Limits.convertible (item_qty i)) items) :
  parse_product_field (Json.join ", " (map spell items)) = Ret (map spelled_entry items).
Proof.
  unfold parse_product_field.
  assert (Hb : blank (Json.join ", " (map spell items)) = false).
  { destruct items as [|i items']; [contradiction|].
    inversion Hcodes as [|? ? Hi _]; subst.
    destruct (code_head i Hi) as (c & r & Hcode & Hc).
    assert (Hs : exists rest, Json.join ", " (map spell (i :: items')) = String c rest).
    { destruct items'; cbn [map Json.join]; unfold spell; rewrite Hcode;
        destruct (how i); cbn [String.append]; eauto. }
    destruct Hs as [rest ->]. unfold blank, strip. cbn [truthy is_empty negb orb lstrip_by].
    assert (Hsp : isspace c = false)
      by (destruct c as [[] [] [] [] [] [] [] []]; try discriminate Hc; reflexivity).
    rewrite Hsp, (rstrip_by_keep _ _ _ Hsp). reflexivity. }
  rewrite Hb.
  apply (parse_spelled_items items EmptyString [] Hne Hcodes eq_refl).
Qed.

Lemma parse_product_field_spelled_witness :
  let items := [ {| how := Times; item_code := "ca"; item_qty := 2 |};
                 {| how := Colon; item_code := "TA"; item_qty := -1 |};
                 {| how := Bare; item_code := "CG"; item_qty := 0 |};
                 {| how := Spaced; item_code := "bs"; item_qty := 100 |} ] in
  items <> [] /\ Forall code_ok items /\
  Forall (fun i => Limits.convertible (item_qty i)) items /\
  Json.join ", " (map spell items) = "ca x 2, TA:-1, CG, bs 100" /\
  parse_product_field "ca x 2, TA:-1, CG, bs 100" =
  Ret [ {| code := "CA"; qty := 2 |}; {| code := "TA"; qty := -1 |};
        {| code := "CG"; qty := 1 |}; {| code := "BS"; qty := 100 |} ].
Proof.
  cbv zeta.
  assert (Hne : [ {| how := Times; item_code := "ca"; item_qty := 2 |};
                  {| how := Colon; item_code := "TA"; item_qty := -1 |};
                  {| how := Bare; item_code := "CG"; item_qty := 0 |};
                  {| how := Spaced; item_code := "bs"; item_qty := 100 |} ] <> [])
    by discriminate.
  assert (Hok : Forall code_ok
                  [ {| how := Times; item_code := "ca"; item_qty := 2 |};
                    {| how := Colon; item_code := "TA"; item_qty := -1 |};
                    {| how := Bare; item_code := "CG"; item_qty := 0 |};
                    {| how := Spaced; item_code := "bs"; item_qty := 100 |} ])
    by (repeat constructor; discriminate).
  assert (Hdigits : Forall (fun i => Limits.convertible (item_qty i))
                  [ {| how := Times; item_code := "ca"; item_qty := 2 |};
                    {| how := Colon; item_code := "TA"; item_qty := -1 |};
                    {| how := Bare; item_code := "CG"; item_qty := 0 |};
                    {| how := Spaced; item_code := "bs"; item_qty := 100 |} ])
    by (repeat first [apply List.Forall_nil | apply List.Forall_cons];
        apply Nat.leb_le; vm_compute; reflexivity).
  split; [exact Hne|]. split; [exact Hok|]. split; [exact Hdigits|]. split; [reflexivity|].
  exact (parse_product_field_spelled _ Hne Hok Hdigits).
Defined.

End SpellingsFacts.

(** ** ui/main_window.py: from the rows of the table to orders *)

Module MainWindowFacts.
Import PyStr PyFloat Formatters Parsers ParserTokens ParserTokensFacts Models MainWindow.

(** The conversion of an [int] to a float fails in one way only. *)
Lemma of_int_raises n e :
  of_int n = Raise e -> e = OverflowError "int too large to convert to float".
Proof.
  unfold of_int. destruct (2 ^ 1024 <=? _)%Z; [|discriminate]. intros [= <-]. reflexivity.
Qed.

Section App.
Variable float_of_text : string -> option pyfloat.
Variable float_mul : pyfloat -> pyfloat -> pyfloat.
Variable products : gmap string Q.

Abbreviation cell_float := (cell_float float_of_text).
Abbreviation convert_row := (convert_row float_of_text float_mul products).
Abbreviation new_order_lines := (new_order_lines float_mul products).

(** The two numbers of a row: both as read, or both zero. *)
Lemma numbers_of_row row :
  exists fee total,
    catch (delivery_fee ← cell_float row "Delivery Fee";
           total_price ← cell_float row "Total Price";
           Ret (delivery_fee, total_price))
          is_value_error (fun _ => Ret (zero, zero)) = Ret (fee, total) /\
    (forall f t, cell_float row "Delivery Fee" = Ret f ->
                 cell_float row "Total Price" = Ret t -> fee = f /\ total = t) /\
    (forall e, cell_float row "Delivery Fee" = Raise e \/
               cell_float row "Total Price" = Raise e -> fee = zero /\ total = zero).
Proof.
  assert (Hve : forall key e, cell_float row key = Raise e -> is_value_error e = true).
  { intros key e. unfold MainWindow.cell_float, float_of_string.
    destruct (row !! key) as [s|]; [|discriminate].
    destruct (truthy s); [|discriminate].
    destruct (float_of_text s); [discriminate|]. intros [= <-]. reflexivity. }
  destruct (cell_float row "Delivery Fee") as [f|e] eqn:Ef.
  - destruct (cell_float row "Total Price") as [t|e] eqn:Et.
    + exists f, t. split; [reflexivity|]. split.
      * intros f' t' [= <-] [= <-]. auto.
      * intros e [H|H]; discriminate.
    + exists zero, zero. cbn [mbind res_bind catch]. rewrite (Hve _ _ Et).
      split; [reflexivity|]. split; [intros f' t' _ H; discriminate|auto].
  - exists zero, zero. cbn [mbind res_bind catch]. rewrite (Hve _ _ Ef).
    split; [reflexivity|]. split; [intros f' t' H; discriminate|auto].
Qed.

(** The order lines of the parsed products, when every quantity is within
    the range of the floats. *)
Lemma new_order_lines_ok (entries : list entry) :
  Forall (fun e => returns (of_int (qty e))) entries ->
  exists lines,
    new_order_lines entries = Ret lines /\
    Forall2 (fun line e =>
               product_code line = code e /\ quantity line = qty e /\
               unit_price line = Finite (default 0%Q (products !! code e)) /\
               exists x, of_int (qty e) = Ret x /\
                         line_total line = float_mul x (unit_price line))
            lines entries.
Proof.
  induction 1 as [|e entries [x Hx] _ (lines & Hl & Hall)].
  - exists []. split; [reflexivity|constructor].
  - cbn [MainWindow.new_order_lines]. unfold new_order_line. rewrite Hx.
    cbn [mbind res_bind]. rewrite Hl. cbn [mbind res_bind].
    eexists. split; [reflexivity|]. constructor; [|exact Hall].
    cbn [product_code quantity unit_price line_total]. unfold price_of. eauto 6.
Qed.

(** On a quantity beyond the floats the loop raises. *)
Lemma new_order_lines_overflow (entries : list entry) :
  Exists (fun e => ~ returns (of_int (qty e))) entries ->
  new_order_lines entries = Raise (OverflowError "int too large to convert to float").
Proof.
  induction entries as [|e entries IH]; intros Hex; [inversion Hex|].
  cbn [MainWindow.new_order_lines]. unfold new_order_line.
  destruct (of_int (qty e)) as [x|err] eqn:Hx.
  - cbn [mbind res_bind]. rewrite IH; [reflexivity|].
    inversion Hex as [? ? Hbad|? ? Hrest]; subst; [|exact Hrest].
    exfalso. apply Hbad. exists x. exact Hx.
  - rewrite (of_int_raises _ _ Hx). reflexivity.
Qed.


End App.


(** A row as the table holds it after a recalculation: the total cell is
    the text that [format_currency] wrote, which [float] refuses, so the
    order gets a fee and a total of zero although the fee cell is a number. *)
Example convert_row_formatted_total :
  let row := OrderTable.zip_dict OrderTable.COLUMNS
               [ "Soa"; "0341234567"; "Lot 12"; "3000"; "CA x 2";
                 "53 000 Ar"; "Pending"; "Hery"; "" ] in
  let products := {[ "CA" := 25000%Q ]} in
  format_currency Demo.float_of_text Demo.float_repr (VInt 53000) = Ret "53 000 Ar" /\
  option_map
    (fun o => (delivery_fee o, total_price o,
               map (fun l => (product_code l, quantity l, unit_price l, line_total l))
                   (order_lines o)))
    (match MainWindow.convert_row Demo.float_of_text Demo.float_mul products row with
     | Ret o => Some o
     | Raise _ => None
     end) =
  Some (Some zero, zero, [("CA", 2%Z, Finite 25000, Finite 50000)]).
Proof. vm_compute. split; reflexivity. Qed.

(** A fee cell that reads nan gives an order with that fee, which
    [is_valid] accepts; a quantity of 400 digits makes the conversion raise. *)
Example convert_row_nan_fee :
  let row := OrderTable.zip_dict OrderTable.COLUMNS
               [ "Soa"; "034 12 345 67"; "Lot 12"; "nan"; ""; ""; "Pending"; "Hery"; "" ] in
  MainWindow.convert_row Demo.float_of_text Demo.float_mul ∅ row = Ret nan_fee_order /\
  MainWindow.convert_row Demo.float_of_text Demo.float_mul ∅
    {[ "Product(s)" := "CA x " +:+ PyNum.str_of_int (10 ^ 400) ]} =
  Raise (OverflowError "int too large to convert to float").
Proof. vm_compute. split; reflexivity. Qed.

End MainWindowFacts.

(** ** ui/table.py: the colour of a row *)

Module OrderTableFacts.
Import PyStr PyFloat Validators ValidatorsFacts Formatters DeliveryFee OrderTable.

Lemma zip_dict_columns (c1 c2 c3 c4 c5 c6 c7 c8 c9 : string) :
  let d := zip_dict COLUMNS [c1; c2; c3; c4; c5; c6; c7; c8; c9] in
  d !! "Phone" = Some c2 /\ d !! "Address" = Some c3 /\
  d !! "Delivery Fee" = Some c4 /\ d !! "Status" = Some c7.
Proof.
  cbv zeta. unfold zip_dict, COLUMNS. cbn [combine fold_left fst snd].
  repeat split;
    repeat (rewrite lookup_insert_ne by discriminate); apply lookup_insert_eq.
Qed.

Lemma validate_address_flag a : fst (validate_address a) = negb (blank a).
Proof. unfold validate_address. destruct (blank a); reflexivity. Qed.

(** X17.  For a row of the nine columns of the table, [_update_row_color]
    never raises.  It gives the tag invalid exactly when the phone breaks
    the phone rule, or the address is blank, or the fee is empty, or is a
    text that [float] does not read, or reads as a float below zero; a fee
    that reads as [nan] or as the positive infinity passes, as [fee < 0] is
    false for it.  The name and the other cells play no part.  A row that
    passes gets the tag of its status when the status is one of the five
    that have a colour, and no tag otherwise. *)
Theorem update_row_color_spec (float_of_text : string -> option pyfloat)
    (name phone address fee products total status agent notes : string) :
  let values := [name; phone; address; fee; products; total; status; agent; notes] in
  let valid :=
    phone_rule phone /\ blank address = false /\
    fee <> EmptyString /\ exists x, float_of_text fee = Some x /\ not_below_zero x in
  exists tags,
    _update_row_color float_of_text COLUMNS values = Ret tags /\
    (tags = ["invalid"] <-> ~ valid) /\
    (valid ->
     tags = if existsb (String.eqb status) STATUS_COLORS_keys
            then ["status_" +:+ status] else []).
Proof.
  cbv zeta. unfold _update_row_color.
  destruct (zip_dict_columns name phone address fee products total status agent notes)
    as (-> & -> & -> & ->).
  destruct (DeliveryFeeFacts.validate_text_fee float_of_text fee)
    as (ok & msg & -> & Hok & _).
  cbn [mbind res_bind fst andb]. rewrite validate_address_flag.
  pose proof (validate_phone_iff phone) as Hphone.
  destruct (fst (validate_phone phone)) eqn:Ep; cbn [andb negb].
  - destruct (blank address) eqn:Ea; cbn [andb negb].
    + eexists. split; [reflexivity|]. split; [|intros (_ & H & _); discriminate].
      split; [intros _ (_ & H & _); discriminate|reflexivity].
    + destruct ok; cbn [negb].
      * assert (Hv : phone_rule phone /\ false = false /\
                     fee <> EmptyString /\
                     exists x, float_of_text fee = Some x /\ not_below_zero x).
        { split; [apply Hphone; reflexivity|]. split; [reflexivity|]. apply Hok. reflexivity. }
        eexists. split; [reflexivity|]. split; [|reflexivity].
        split; [|intros H; contradiction].
        destruct (existsb (String.eqb status) STATUS_COLORS_keys); discriminate.
      * eexists. split; [reflexivity|]. split.
        -- split; [|reflexivity]. intros _ (_ & _ & H). apply Hok in H. discriminate.
        -- intros (_ & _ & H). apply Hok in H. discriminate.
  - eexists. split; [reflexivity|]. split.
    + split; [|reflexivity]. intros _ (H & _). apply Hphone in H. discriminate.
    + intros (H & _). apply Hphone in H. discriminate.
Qed.

(** A row whose fee cell reads nan gets the colour of its status. *)
Example update_row_color_nan :
  _update_row_color Demo.float_of_text COLUMNS
    [ "Soa"; "034 12 345 67"; "Lot 12"; "nan"; ""; ""; "Ok"; "Hery"; "" ] =
  Ret ["status_Ok"].
Proof. vm_compute. reflexivity. Qed.

End OrderTableFacts.
